(** * Upload-and-orchestration pipeline of [oldclient.py]

    A shallow embedding of the functions of [src/oldclient.py] that the
    specification talks about: [sanitize_name], [upload_to_minio],
    [update_machine_status_counts], [check_firmware_update_status],
    [write_master_signal] and the machine loop of [main].

    Python strings are sequences of Unicode code points; integers are
    unbounded ([Z]); the floating-point success rate is computed in
    binary64 through the Standard Library's [SpecFloat]. External services
    (object store, document store, file system removals, the imported
    preparation, extraction and classification functions) are oracles held
    in the world the program runs in, and every call the program makes to
    them is recorded in a trace.

    [run_command] and [setup_virtual_environment], which run before the
    pipeline has anything to work on, are embedded in a world of their own
    (module [Bootstrap]). *)

From Stdlib Require Import ZArith NArith List Bool Lia String Ascii Permutation.
From Stdlib Require Import Floats.SpecFloat.
Import ListNotations.

(** ** Python strings *)

Definition codepoint := N.
Definition pystr := list codepoint.

(** An ASCII literal as a Python string. *)
Definition py (s : string) : pystr := map N_of_ascii (list_ascii_of_string s).

Fixpoint str_eqb (a b : pystr) : bool :=
  match a, b with
  | [], [] => true
  | x :: a', y :: b' => N.eqb x y && str_eqb a' b'
  | _, _ => false
  end.

(** [a <= b] on strings: lexicographic on code points, as Python compares
    [str] values. *)
Fixpoint str_leb (a b : pystr) : bool :=
  match a, b with
  | [], _ => true
  | _ :: _, [] => false
  | x :: a', y :: b' =>
      if N.ltb x y then true
      else if N.eqb x y then str_leb a' b'
      else false
  end.

(** [str.replace(old, new)] for one-character [old] and [new]. *)
Definition replace_char (old new : codepoint) (s : pystr) : pystr :=
  map (fun c => if N.eqb c old then new else c) s.

(** [needle in s] *)
Fixpoint is_prefix (p s : pystr) : bool :=
  match p, s with
  | [], _ => true
  | x :: p', y :: s' => N.eqb x y && is_prefix p' s'
  | _ :: _, [] => false
  end.

Fixpoint str_contains (needle s : pystr) : bool :=
  is_prefix needle s ||
  match s with
  | [] => false
  | _ :: s' => str_contains needle s'
  end.

(** ** Name sanitizer: [sanitize_name] *)

Module Sanitizer.

Definition ch_hyphen : codepoint := 45%N.
Definition ch_dot : codepoint := 46%N.
Definition ch_underscore : codepoint := 95%N.
Definition ch_space : codepoint := 32%N.
Definition ch_newline : codepoint := 10%N.
Definition ch_a : codepoint := 97%N.
Definition ch_z : codepoint := 122%N.

Definition is_upper (c : codepoint) : bool := (N.leb 65 c && N.leb c 90)%N.
Definition is_lower (c : codepoint) : bool := (N.leb 97 c && N.leb c 122)%N.
Definition is_digit (c : codepoint) : bool := (N.leb 48 c && N.leb c 57)%N.

(** The character class [[a-z0-9]]. *)
Definition is_alnum (c : codepoint) : bool := is_lower c || is_digit c.

(** The character class [[a-z0-9.-]]: what [re.sub(r"[^a-z0-9.-]", "", _)]
    keeps. *)
Definition is_allowed (c : codepoint) : bool :=
  is_alnum c || N.eqb c ch_dot || N.eqb c ch_hyphen.

(** [str.lower()] on one code point. The ASCII letters are lowered; of the
    code points outside ASCII, only KELVIN SIGN (U+212A) and LATIN CAPITAL
    LETTER I WITH DOT ABOVE (U+0130) lower to a string that holds an ASCII
    character. Every other code point outside ASCII lowers to code points
    outside ASCII, which the third step below deletes whatever they are:
    they are left in place here. *)
Definition lower_char (c : codepoint) : pystr :=
  if is_upper c then [(c + 32)%N]
  else if N.eqb c 8490 then [107%N]
  else if N.eqb c 304 then [105%N; 775%N]
  else [c].

Definition lower (s : pystr) : pystr := flat_map lower_char s.

Definition starts_with (c : codepoint) (s : pystr) : bool :=
  match s with
  | x :: _ => N.eqb x c
  | [] => false
  end.

(** [re.sub(r"[c]+", "c", s)]: every maximal run of [c] becomes one [c]. *)
Fixpoint collapse (c : codepoint) (s : pystr) : pystr :=
  match s with
  | [] => []
  | x :: t =>
      if N.eqb x c && starts_with c t then collapse c t
      else x :: collapse c t
  end.

Fixpoint lstrip (p : codepoint -> bool) (s : pystr) : pystr :=
  match s with
  | [] => []
  | x :: t => if p x then lstrip p t else s
  end.

Definition rstrip (p : codepoint -> bool) (s : pystr) : pystr :=
  rev (lstrip p (rev s)).

(** [s.strip(chars)] with [p] the membership test of [chars]. *)
Definition strip (p : codepoint -> bool) (s : pystr) : pystr :=
  rstrip p (lstrip p s).

Definition dot_or_hyphen (c : codepoint) : bool :=
  N.eqb c ch_dot || N.eqb c ch_hyphen.

(** [re.match(r"^[a-z0-9]", s)] is not [None]. *)
Definition match_leading_alnum (s : pystr) : bool :=
  match s with
  | x :: _ => is_alnum x
  | [] => false
  end.

(** [re.match(r"[a-z0-9]$", s)] is not [None]. [re.match] anchors the
    pattern at the start of the string, so the pattern asks for one
    character of the class at position 0 followed by the end of the string
    ([$] also matches just before a final newline). *)
Definition match_alnum_then_end (s : pystr) : bool :=
  match s with
  | [x] => is_alnum x
  | [x; y] => is_alnum x && N.eqb y ch_newline
  | _ => false
  end.

Definition sanitize_name (name : pystr) : pystr :=
  let name := lower name in
  let name := replace_char ch_space ch_hyphen
                (replace_char ch_underscore ch_hyphen name) in
  let name := filter is_allowed name in
  let name := collapse ch_hyphen name in
  let name := collapse ch_dot name in
  let name := strip dot_or_hyphen name in
  let name :=
    if (0 <? List.length name)%nat && negb (match_leading_alnum name)
    then ch_a :: name else name in
  let name :=
    if (0 <? List.length name)%nat && negb (match_alnum_then_end name)
    then name ++ [ch_z] else name in
  name.

(** The name before the two closing tests of [sanitize_name]. *)
Definition cleaned (name : pystr) : pystr :=
  strip dot_or_hyphen
    (collapse ch_dot
       (collapse ch_hyphen
          (filter is_allowed
             (replace_char ch_space ch_hyphen
                (replace_char ch_underscore ch_hyphen (lower name)))))).

(** The two closing tests. *)
Definition finish (name : pystr) : pystr :=
  let name :=
    if (0 <? List.length name)%nat && negb (match_leading_alnum name)
    then ch_a :: name else name in
  if (0 <? List.length name)%nat && negb (match_alnum_then_end name)
  then name ++ [ch_z] else name.

(** No two [c] in a row. *)
Fixpoint no_run (c : codepoint) (s : pystr) : bool :=
  match s with
  | [] => true
  | x :: t => negb (N.eqb x c && starts_with c t) && no_run c t
  end.

Definition head_kept (s : pystr) : bool :=
  match s with
  | [] => true
  | x :: _ => negb (dot_or_hyphen x)
  end.

Definition clean (s : pystr) : Prop :=
  Forall (fun c => is_allowed c = true) s
  /\ no_run ch_hyphen s = true
  /\ no_run ch_dot s = true
  /\ head_kept s = true
  /\ head_kept (rev s) = true.

End Sanitizer.


(** ** Binary64 arithmetic

    Python's [float] is IEEE 754 binary64. The operations are those of the
    Standard Library's executable specification [SpecFloat], at precision 53
    and maximal exponent 1024. *)

Module Float64.

Definition prec : Z := 53.
Definition emax : Z := 1024.

Definition float := spec_float.

(** [float(n)]: the nearest binary64 number, exact below [2^53]. *)
Definition of_int (n : Z) : float := binary_normalize prec emax n 0 false.

Definition mul (x y : float) : float := SFmul prec emax x y.
Definition div (x y : float) : float := SFdiv prec emax x y.

(** [a / b] on two [int]s with [b <> 0]: true division. *)
Definition truediv (a b : Z) : float := div (of_int a) (of_int b).

(** [x >= n] for a float [x] and an [int] [n] that binary64 holds exactly. *)
Definition ge_int (x : float) (n : Z) : bool := SFleb (of_int n) x.

End Float64.

(** ** Rounding to nearest, ties to even

    The quantities in which the binary64 operations are described: a
    non-negative rational [N / D] lies at the integer [N / D] (rounded down)
    with what is left over located against one half; [rne] rounds it to the
    nearest integer, ties to even. *)

Module Rounding.

Local Open Scope Z_scope.

Definition loc_of (N D : Z) : location :=
  if N mod D =? 0 then loc_Exact else loc_Inexact (2 * (N mod D) ?= D).

Definition located (N D : Z) (mrs : shr_record) : Prop :=
  0 < D /\ 0 <= N /\ shr_m mrs = N / D /\ loc_of_shr_record mrs = loc_of N D.

Definition rne (N D : Z) : Z := round_nearest_even (N / D) (loc_of N D).

(** The normal binary64 number of mantissa [r] in [[2^52, 2^53]] at exponent
    [e]: a mantissa of [2^53] carries into the exponent. *)
Definition pack (r e : Z) : spec_float :=
  if r <? 2 ^ 53 then S754_finite false (Z.to_pos r) e
  else S754_finite false (Z.to_pos (2 ^ 52)) (e + 1).

(** [float(100)] and [float(80)]. *)
Definition float_100 : spec_float := S754_finite false 7036874417766400 (-46).
Definition float_80 : spec_float := S754_finite false 5629499534213120 (-46).

(** The threshold at which a quotient in [[1/2, 1)] times 100 reaches 80:
    the mantissa of the binary64 number just below 0.8. *)
Definition mantissa_below_0_8 : Z := 7205759403792793.

End Rounding.

(** [success_rate = (upload_count / total_files) * 100 if total_files > 0 else 0] *)
Definition success_rate (upload_count total_files : Z) : Float64.float :=
  if (0 <? total_files)%Z
  then Float64.mul (Float64.truediv upload_count total_files) (Float64.of_int 100)
  else Float64.of_int 0.

(** ** The world the program runs in *)

(** Any instance of Python's [Exception]; the payload is its message. *)
Inductive exn := Exception (what : pystr).

Inductive result (A : Type) : Type :=
| Ok (a : A)
| Raised (e : exn).
Arguments Ok {A} a.
Arguments Raised {A} e.

Definition is_raised {A} (r : result A) : bool :=
  match r with Ok _ => false | Raised _ => true end.

(** A directory tree: the children of a directory are in the order the
    operating system lists them ([os.scandir]). *)
#[warnings="-register-all"]
Inductive entry :=
| File (name : pystr)
| Dir (name : pystr) (children : list entry).

Definition entry_name (e : entry) : pystr :=
  match e with File n => n | Dir n _ => n end.

Definition is_dir_entry (e : entry) : bool :=
  match e with Dir _ _ => true | File _ => false end.

(** Calls to the outside of the program. *)
Inductive call :=
| Minio
| BucketExists (bucket : pystr)
| MakeBucket (bucket : pystr)
| FputObject (bucket object_name file_path : pystr)
| Sleep (seconds : Z)
| IntMongoPort
| MongoClient
| MongoDatabase
| FindOne
| InsertOne (successful_updates failed_updates : Z)
| UpdateOneInc (successful_updates failed_updates : Z)
| SetupVirtualEnvironment
| RmtreeOutputRoot
| MakedirsOutputRoot
| GlobRequiredFiles
| ListMachines
| PrepareMachine (machine_path : pystr)
| RunLogExtraction (machine_name : pystr)
| DetermineUpdateTypeAndCheck (installsetlog_path cidebug_path : pystr)
| Rmtree (path : pystr)
| Touch (path : pystr)
| Unlink (path : pystr).

Inductive log_level := Info | Warning | Error.

(** The messages given to [logging]; the formatted text is not modelled. *)
Inductive log_msg :=
| MsgStartingUpload (machine_name : pystr)
| MsgConnected
| MsgClientInitFailed
| MsgOutputDirNotFound (output_path : pystr)
| MsgUsingPrefix (machine_prefix machine_name : pystr)
| MsgCreatedBucket
| MsgUsingExistingBucket
| MsgBucketError
| MsgNoFiles (machine_name : pystr)
| MsgFoundFiles (total_files : Z)
| MsgProgress (file_count total_files : Z) (file : pystr)
| MsgRetry (attempt_plus_1 : Z) (file : pystr)
| MsgFailedToUpload (file : pystr)
| MsgUploaded (upload_count total_files : Z)
| MsgPartialUpload (machine_name : pystr)
| MsgNothingUploaded (machine_name : pystr)
| MsgUploadException (machine_name : pystr)
| MsgMongoUpdated (success_count failure_count : Z)
| MsgMongoFailed
| MsgLogMissing (log_name machine_name : pystr)
| MsgUpdateStatus (machine_name result : pystr)
| MsgUpdateSuccessful (machine_name : pystr)
| MsgUpdateFailed (machine_name : pystr)
| MsgStatusCheckError (machine_name : pystr)
| MsgSignalCreated
| MsgSignalRemoved
| MsgSignalError
| MsgSkippedUpload (machine_name : pystr)
| MsgRemovedOutputDir (machine_name : pystr)
| MsgOutputDirMissing (machine_name : pystr)
| MsgRemoveFailed (machine_name : pystr)
| MsgRemovedDirectory (item : pystr).

(** What the program did, most recent first: each call with whether it
    raised, and each log record. *)
Inductive event :=
| Called (c : call) (raised : bool)
| Logged (level : log_level) (msg : log_msg).

Definition history := list event.

(** What a failing [shutil.rmtree] leaves behind, and what an extraction
    writes. *)
Inductive rmtree_outcome :=
| Removed
| RemoveFailed (e : exn) (left_over : list entry).

(** The answers of the outside world. Each may depend on everything the
    program did before ([history]). *)
Record World := {
  minio : history -> result unit;
  bucket_exists : history -> pystr -> result bool;
  make_bucket : history -> pystr -> result unit;
  fput_object : history -> pystr -> pystr -> pystr -> result unit;
  (* [int(os.getenv("MONGO_PORT"))]: raises when the variable is unset or
     is not a number *)
  int_mongo_port : history -> result unit;
  mongo_client : history -> result unit;
  (* [client[os.getenv("MONGO_DB")]]: raises when the variable is unset *)
  mongo_database : history -> result unit;
  (* [find_one]: whether the record exists *)
  find_one : history -> result bool;
  insert_one : history -> Z -> Z -> result unit;
  update_one : history -> Z -> Z -> result unit;
  setup_virtual_environment : history -> bool;
  rmtree_output_root : history -> rmtree_outcome;
  makedirs_output_root : history -> result unit;
  (* [source_dir.glob("**/required_files")]: the paths the search yields, and
     the exception that ends it when one does; [item.is_dir()] for such a
     path *)
  glob_required_files : history -> list pystr * option exn;
  required_files_is_dir : history -> pystr -> bool;
  (* [base_source_dir.is_dir()] and the names of its subdirectories *)
  source_is_dir : bool;
  list_machines : history -> result (list pystr);
  shared_prepare_machine : history -> pystr -> result bool;
  (* the extraction's result, and the content it gives the machine's output
     directory when it writes one *)
  shared_run_log_extraction :
    history -> pystr -> result (bool * option (list entry));
  determine_update_type_and_check : history -> pystr -> pystr -> result pystr;
  rmtree : history -> pystr -> rmtree_outcome;
  touch : history -> pystr -> result unit;
  unlink : history -> pystr -> result unit
}.

(** The state of a run: the trace, the children of the output root when it
    exists, and whether the signal file exists. *)
Record State := {
  world : World;
  trace : history;
  output_root : option (list entry);
  signal_file : bool
}.

Definition with_trace (st : State) (t : history) : State :=
  {| world := world st; trace := t;
     output_root := output_root st; signal_file := signal_file st |}.

Definition with_output_root (st : State) (r : option (list entry)) : State :=
  {| world := world st; trace := trace st;
     output_root := r; signal_file := signal_file st |}.

Definition with_signal_file (st : State) (b : bool) : State :=
  {| world := world st; trace := trace st;
     output_root := output_root st; signal_file := b |}.

(** ** Statements with state and exceptions *)

Definition M (A : Type) : Type := State -> result A * State.

Definition ret {A} (a : A) : M A := fun st => (Ok a, st).

Definition bind {A B} (m : M A) (k : A -> M B) : M B :=
  fun st =>
    match m st with
    | (Ok a, st') => k a st'
    | (Raised e, st') => (Raised e, st')
    end.

Definition raise {A} (e : exn) : M A := fun st => (Raised e, st).

(** [try: m  except Exception as e: handler e] *)
Definition try_except {A} (m : M A) (handler : exn -> M A) : M A :=
  fun st =>
    match m st with
    | (Ok a, st') => (Ok a, st')
    | (Raised e, st') => handler e st'
    end.

Declare Scope py_scope.
Delimit Scope py_scope with py.
Notation "x <- m ;; k" := (bind m (fun x => k))
  (at level 61, m at next level, right associativity) : py_scope.
Notation "m ;; k" := (bind m (fun _ => k))
  (at level 61, right associativity) : py_scope.
Open Scope py_scope.

Definition record_event (e : event) : M unit :=
  fun st => (Ok tt, with_trace st (e :: trace st)).

Definition logging (level : log_level) (msg : log_msg) : M unit :=
  record_event (Logged level msg).

(** A call to the outside: the world answers from the history, and the call
    is recorded with its outcome. *)
Definition external {A} (c : call) (answer : World -> history -> result A) : M A :=
  fun st =>
    let r := answer (world st) (trace st) in
    (r, with_trace st (Called c (is_raised r) :: trace st)).

Definition time_sleep (seconds : Z) : M unit :=
  external (Sleep seconds) (fun _ _ => Ok tt).

Fixpoint for_each {A S} (l : list A) (body : A -> S -> M S) (s : S) : M S :=
  match l with
  | [] => ret s
  | x :: rest => s' <- body x s ;; for_each rest body s'
  end.

(** ** Paths and the file system *)

Definition ch_slash : codepoint := 47%N.
Definition ch_backslash : codepoint := 92%N.

(** [os.path.join(a, b)] on POSIX. *)
Definition os_path_join (a b : pystr) : pystr :=
  if Sanitizer.starts_with ch_slash b then b
  else if Sanitizer.starts_with ch_slash (rev a) || (List.length a =? 0)%nat
       then a ++ b
       else a ++ [ch_slash] ++ b.

(** [os.path.relpath(path, start)] for a [path] that is [start], a
    separator, and the components below [start]. *)
Definition os_path_relpath (path start : pystr) : pystr :=
  skipn (S (List.length start)) path.

Definition subdir_names (children : list entry) : list pystr :=
  map entry_name (filter is_dir_entry children).

Definition file_names (children : list entry) : list pystr :=
  map entry_name (filter (fun e => negb (is_dir_entry e)) children).

(** [os.walk(top)], top-down: a directory yields [(root, dirs, files)] and
    is followed by the walks of its subdirectories, in listing order. *)
Fixpoint walk_entry (parent : pystr) (e : entry)
  : list (pystr * list pystr * list pystr) :=
  match e with
  | File _ => []
  | Dir name children =>
      let root := os_path_join parent name in
      (root, subdir_names children, file_names children)
        :: flat_map (walk_entry root) children
  end.

Definition os_walk (top : pystr) (children : list entry)
  : list (pystr * list pystr * list pystr) :=
  (top, subdir_names children, file_names children)
    :: flat_map (walk_entry top) children.

(** [sorted(names)] *)
Fixpoint insert_sorted (x : pystr) (l : list pystr) : list pystr :=
  match l with
  | [] => [x]
  | y :: rest => if str_leb x y then x :: l else y :: insert_sorted x rest
  end.

Fixpoint sorted (l : list pystr) : list pystr :=
  match l with
  | [] => []
  | x :: rest => insert_sorted x (sorted rest)
  end.

Fixpoint lookup_entry (name : pystr) (children : list entry) : option entry :=
  match children with
  | [] => None
  | e :: rest =>
      if str_eqb (entry_name e) name then Some e else lookup_entry name rest
  end.

(** The children of [output_root/machine_name] when that is a directory.
    A machine name is the name of a directory entry. *)
Definition machine_dir (st : State) (machine_name : pystr)
  : option (list entry) :=
  match output_root st with
  | Some children =>
      match lookup_entry machine_name children with
      | Some (Dir _ c) => Some c
      | _ => None
      end
  | None => None
  end.

(** [os.path.isdir(os.path.join(base_output_dir, machine_name))] *)
Definition os_path_isdir_machine (machine_name : pystr) : M bool :=
  fun st =>
    (Ok (match machine_dir st machine_name with Some _ => true | None => false end),
     st).

(** [os.walk(output_path)]; it yields nothing when [output_path] cannot be
    listed. *)
Definition os_walk_machine (output_path machine_name : pystr)
  : M (list (pystr * list pystr * list pystr)) :=
  fun st =>
    (Ok (match machine_dir st machine_name with
         | Some c => os_walk output_path c
         | None => []
         end),
     st).

(** ** Object storage uploader: [upload_to_minio] *)

Definition MINIO_BUCKET_NAME : pystr := py "hpe-log-analysis".

Definition get_minio_client : M unit :=
  try_except
    (external Minio minio ;;
     logging Info MsgConnected)
    (fun e =>
       logging Error MsgClientInitFailed ;;
       raise e).

Record counters := {
  upload_count : Z;
  file_count : Z;
  error_count : Z
}.

(** [for attempt in range(3)]: the body of the retry loop, from the
    attempt numbers still to run. The result is the new [upload_count]. *)
Fixpoint upload_attempts (attempts : list Z) (minio_path file_path file : pystr)
  (upload_count : Z) : M Z :=
  match attempts with
  | [] => ret upload_count
  | attempt :: rest =>
      uploaded <-
        try_except
          (external (FputObject MINIO_BUCKET_NAME minio_path file_path)
             (fun w h => fput_object w h MINIO_BUCKET_NAME minio_path file_path) ;;
           ret true)
          (fun e =>
             if (attempt <? 2)%Z
             then logging Warning (MsgRetry (attempt + 1) file) ;;
                  time_sleep 1 ;;
                  ret false
             else raise e) ;;
      if uploaded : bool
      then ret (upload_count + 1)%Z
      else upload_attempts rest minio_path file_path file upload_count
  end.

Definition range3 : list Z := [0; 1; 2]%Z.

(** The body of [for file in sorted(files)]. *)
Definition upload_file (machine_prefix output_path : pystr) (total_files : Z)
  (root file : pystr) (c : counters) : M counters :=
  let file_count' := (file_count c + 1)%Z in
  let file_path := os_path_join root file in
  let rel_path := os_path_relpath file_path output_path in
  let minio_path :=
    machine_prefix ++ [ch_slash] ++ replace_char ch_backslash ch_slash rel_path in
  try_except
    ((if (file_count' mod 10 =? 0)%Z || (file_count' =? 1)%Z
         || (file_count' =? total_files)%Z
      then logging Info (MsgProgress file_count' total_files file)
      else ret tt) ;;
     n <- upload_attempts range3 minio_path file_path file (upload_count c) ;;
     ret {| upload_count := n;
            file_count := file_count';
            error_count := error_count c |})
    (fun e =>
       logging Error (MsgFailedToUpload file) ;;
       ret {| upload_count := upload_count c;
              file_count := file_count';
              error_count := (error_count c + 1)%Z |}).

Definition count_files (w : list (pystr * list pystr * list pystr)) : Z :=
  fold_right (fun '(_, _, files) n => (Z.of_nat (List.length files) + n)%Z) 0%Z w.

Definition upload_all (machine_prefix output_path : pystr) (total_files : Z)
  (w : list (pystr * list pystr * list pystr)) (c : counters) : M counters :=
  for_each w
    (fun '(root, _, files) c =>
       for_each (sorted files)
         (upload_file machine_prefix output_path total_files root) c)
    c.

(** The final report, from the counters. *)
Definition final_report (machine_name : pystr) (total_files : Z) (c : counters)
  : M bool :=
  if (0 <? upload_count c)%Z then
    let rate := success_rate (upload_count c) total_files in
    logging Info (MsgUploaded (upload_count c) total_files) ;;
    if Float64.ge_int rate 80 then ret true
    else logging Warning (MsgPartialUpload machine_name) ;;
         ret false
  else if (0 <? total_files)%Z then
    logging Error (MsgNothingUploaded machine_name) ;;
    ret false
  else ret true.

Definition ensure_bucket : M bool :=
  try_except
    (present <- external (BucketExists MINIO_BUCKET_NAME)
                  (fun w h => bucket_exists w h MINIO_BUCKET_NAME) ;;
     if negb present
     then external (MakeBucket MINIO_BUCKET_NAME)
            (fun w h => make_bucket w h MINIO_BUCKET_NAME) ;;
          logging Info MsgCreatedBucket ;;
          ret true
     else logging Info MsgUsingExistingBucket ;;
          ret true)
    (fun e =>
       logging Error MsgBucketError ;;
       ret false).

(** The counting and the uploading of the files, once the bucket is there. *)
Definition upload_batch (machine_name machine_prefix output_path : pystr)
  : M bool :=
  w <- os_walk_machine output_path machine_name ;;
  let total_files := count_files w in
  if (total_files =? 0)%Z then
    logging Warning (MsgNoFiles machine_name) ;;
    ret true
  else
    logging Info (MsgFoundFiles total_files) ;;
    w' <- os_walk_machine output_path machine_name ;;
    c <- upload_all machine_prefix output_path total_files w'
           {| upload_count := 0; file_count := 0; error_count := 0 |} ;;
    final_report machine_name total_files c.

Definition upload_to_minio (machine_name base_output_dir_str : pystr) : M bool :=
  try_except
    (logging Info (MsgStartingUpload machine_name) ;;
     get_minio_client ;;
     let machine_prefix := Sanitizer.sanitize_name machine_name in
     let output_path := os_path_join base_output_dir_str machine_name in
     isdir <- os_path_isdir_machine machine_name ;;
     if negb isdir then
       logging Error (MsgOutputDirNotFound output_path) ;;
       ret false
     else
       logging Info (MsgUsingPrefix machine_prefix machine_name) ;;
       bucket_ready <- ensure_bucket ;;
       if negb bucket_ready then ret false
       else upload_batch machine_name machine_prefix output_path)
    (fun e =>
       logging Error (MsgUploadException machine_name) ;;
       ret false).

(** ** Analytics counter: [update_machine_status_counts] *)

Definition update_machine_status_counts (success_count failure_count : Z)
  : M unit :=
  try_except
    (external IntMongoPort int_mongo_port ;;
     external MongoClient mongo_client ;;
     external MongoDatabase mongo_database ;;
     status_doc_found <- external FindOne find_one ;;
     (if negb status_doc_found
      then external (InsertOne success_count failure_count)
             (fun w h => insert_one w h success_count failure_count)
      else external (UpdateOneInc success_count failure_count)
             (fun w h => update_one w h success_count failure_count)) ;;
     logging Info (MsgMongoUpdated success_count failure_count))
    (fun e =>
       logging Error MsgMongoFailed).

(** ** Update-status classification: [check_firmware_update_status] *)

Definition installSetLogs_log : pystr := py "installSetLogs.log".
Definition ciDebug_log : pystr := py "ciDebug.log".

(** The success marker, U+2705. *)
Definition check_mark : pystr := [9989%N].

(** Whether [output_root/machine_name/name] is a file. *)
Definition has_file (st : State) (machine_name name : pystr) : bool :=
  match machine_dir st machine_name with
  | Some c =>
      match lookup_entry name c with
      | Some (File _) => true
      | _ => false
      end
  | None => false
  end.

(** [os.path.isfile(os.path.join(output_path, name))] *)
Definition os_path_isfile_in_machine (machine_name name : pystr) : M bool :=
  fun st => (Ok (has_file st machine_name name), st).

Definition check_firmware_update_status (machine_name base_output_dir_str : pystr)
  : M bool :=
  try_except
    (let output_path := os_path_join base_output_dir_str machine_name in
     let installsetlog_path := os_path_join output_path installSetLogs_log in
     let cidebug_path := os_path_join output_path ciDebug_log in
     has_installset <- os_path_isfile_in_machine machine_name installSetLogs_log ;;
     if negb has_installset then
       logging Warning (MsgLogMissing installSetLogs_log machine_name) ;;
       ret false
     else
       has_cidebug <- os_path_isfile_in_machine machine_name ciDebug_log ;;
       if negb has_cidebug then
         logging Warning (MsgLogMissing ciDebug_log machine_name) ;;
         ret false
       else
         result <- external
                     (DetermineUpdateTypeAndCheck installsetlog_path cidebug_path)
                     (fun w h => determine_update_type_and_check w h
                                   installsetlog_path cidebug_path) ;;
         logging Info (MsgUpdateStatus machine_name result) ;;
         if str_contains check_mark result then
           logging Info (MsgUpdateSuccessful machine_name) ;;
           ret true
         else
           logging Info (MsgUpdateFailed machine_name) ;;
           ret false)
    (fun e =>
       logging Error (MsgStatusCheckError machine_name) ;;
       ret false).

(** ** Downstream trigger: [write_master_signal] *)

Definition MASTER_SIGNAL_FILE : pystr := py "NEEDS_MASTER".

Definition set_signal_file (b : bool) : M unit :=
  fun st => (Ok tt, with_signal_file st b).

Definition signal_file_exists : M bool :=
  fun st => (Ok (signal_file st), st).

Definition write_master_signal (should_run_master : bool) : M bool :=
  try_except
    (if should_run_master then
       external (Touch MASTER_SIGNAL_FILE)
         (fun w h => touch w h MASTER_SIGNAL_FILE) ;;
       set_signal_file true ;;
       logging Info MsgSignalCreated ;;
       ret true
     else
       present <- signal_file_exists ;;
       (if present : bool then
          external (Unlink MASTER_SIGNAL_FILE)
            (fun w h => unlink w h MASTER_SIGNAL_FILE) ;;
          set_signal_file false ;;
          logging Info MsgSignalRemoved
        else ret tt) ;;
       ret true)
    (fun e =>
       logging Error MsgSignalError ;;
       ret false).

(** ** Cleanup before a run: [cleanup_directories]

    The output root is removed and made again; then every [required_files]
    directory below the source root is removed, a removal that raises being
    passed over. The source tree itself is not part of the state: what the
    search yields and what is a directory are answers of the world. *)

Definition set_output_root (r : option (list entry)) : M unit :=
  fun st => (Ok tt, with_output_root st r).

Definition get_output_root : M (option (list entry)) :=
  fun st => (Ok (output_root st), st).

Definition shutil_rmtree_output_root : M unit :=
  fun st =>
    match rmtree_output_root (world st) (trace st) with
    | Removed =>
        (Ok tt,
         with_output_root
           (with_trace st (Called RmtreeOutputRoot false :: trace st)) None)
    | RemoveFailed e left_over =>
        (Raised e,
         with_output_root
           (with_trace st (Called RmtreeOutputRoot true :: trace st))
           (Some left_over))
    end.

(** [item.is_dir()] for a path the search yielded. *)
Definition required_files_item_is_dir (item : pystr) : M bool :=
  fun st => (Ok (required_files_is_dir (world st) (trace st) item), st).

(** [shutil.rmtree(item)] on a directory of the source tree. *)
Definition shutil_rmtree_item (item : pystr) : M unit :=
  fun st =>
    match rmtree (world st) (trace st) item with
    | Removed =>
        (Ok tt, with_trace st (Called (Rmtree item) false :: trace st))
    | RemoveFailed e _ =>
        (Raised e, with_trace st (Called (Rmtree item) true :: trace st))
    end.

(** The body of [for item in source_dir.glob("**/required_files")]. *)
Definition remove_required_files (item : pystr) (count : Z) : M Z :=
  is_dir <- required_files_item_is_dir item ;;
  if is_dir : bool then
    try_except
      (shutil_rmtree_item item ;;
       logging Info (MsgRemovedDirectory item) ;;
       ret (count + 1)%Z)
      (fun e => ret count)
  else ret count.

(** The loop over the paths the search yields. The end of the search is
    recorded when the loop reaches it: the search is exhausted, or it
    raises. *)
Definition remove_all_required_files : M Z :=
  fun st =>
    let found := glob_required_files (world st) (trace st) in
    (count <- for_each (fst found) remove_required_files 0%Z ;;
     match snd found with
     | None => record_event (Called GlobRequiredFiles false) ;; ret count
     | Some e => record_event (Called GlobRequiredFiles true) ;; raise e
     end) st.

(** [source_dir.is_dir()] *)
Definition source_dir_is_dir : M bool :=
  fun st => (Ok (source_is_dir (world st)), st).

Definition cleanup_directories : M bool :=
  try_except
    (root <- get_output_root ;;
     (match root with
      | Some _ => shutil_rmtree_output_root
      | None => ret tt
      end) ;;
     external MakedirsOutputRoot makedirs_output_root ;;
     root' <- get_output_root ;;
     (match root' with
      | Some _ => ret tt
      | None => set_output_root (Some [])
      end) ;;
     source_exists <- source_dir_is_dir ;;
     (if source_exists : bool
      then remove_all_required_files ;; ret tt
      else ret tt) ;;
     ret true)
    (fun e => ret false).

(** ** Machine pipeline and orchestrator: [main] *)

(** The output directory of a machine, written by the extraction: it
    replaces the entry of that name or is added to the listing. *)
Fixpoint write_dir (name : pystr) (content : list entry) (children : list entry)
  : list entry :=
  match children with
  | [] => [Dir name content]
  | e :: rest =>
      if str_eqb (entry_name e) name then Dir name content :: rest
      else e :: write_dir name content rest
  end.

Definition remove_entry (name : pystr) (children : list entry) : list entry :=
  filter (fun e => negb (str_eqb (entry_name e) name)) children.

Definition after_extraction (machine_name : pystr)
  (written : option (list entry)) (root : option (list entry))
  : option (list entry) :=
  match written with
  | None => root
  | Some content =>
      Some (write_dir machine_name content
              (match root with Some c => c | None => [] end))
  end.

(** [shared_run_log_extraction(machine_name, base_source_dir, base_output_dir)] *)
Definition run_log_extraction (machine_name : pystr) : M bool :=
  fun st =>
    let r := shared_run_log_extraction (world st) (trace st) machine_name in
    let st' :=
      with_trace st (Called (RunLogExtraction machine_name) (is_raised r) :: trace st) in
    match r with
    | Ok (extract_success, written) =>
        (Ok extract_success,
         with_output_root st' (after_extraction machine_name written (output_root st)))
    | Raised e => (Raised e, st')
    end.

(** Whether [output_root/machine_name] exists. *)
Definition has_entry (st : State) (machine_name : pystr) : bool :=
  match output_root st with
  | Some c =>
      match lookup_entry machine_name c with
      | Some _ => true
      | None => false
      end
  | None => false
  end.

(** [os.path.exists(os.path.join(base_output_dir, machine_name))] *)
Definition os_path_exists_machine (machine_name : pystr) : M bool :=
  fun st => (Ok (has_entry st machine_name), st).

(** [shutil.rmtree(machine_output_path)]: the directory goes, or the call
    raises and what it did not delete stays. *)
Definition shutil_rmtree_machine (machine_output_path machine_name : pystr)
  : M unit :=
  fun st =>
    let children := match output_root st with Some c => c | None => [] end in
    match rmtree (world st) (trace st) machine_output_path with
    | Removed =>
        (Ok tt,
         with_output_root
           (with_trace st (Called (Rmtree machine_output_path) false :: trace st))
           (Some (remove_entry machine_name children)))
    | RemoveFailed e left_over =>
        (Raised e,
         with_output_root
           (with_trace st (Called (Rmtree machine_output_path) true :: trace st))
           (Some (write_dir machine_name left_over children)))
    end.

Record run_state := {
  success_count : Z;
  failure_count : Z;
  prep_extract_failures : list pystr
}.

Definition add_failure (r : run_state) (label : pystr) : run_state :=
  {| success_count := success_count r;
     failure_count := failure_count r;
     prep_extract_failures := prep_extract_failures r ++ [label] |}.

Definition add_success_count (r : run_state) : run_state :=
  {| success_count := (success_count r + 1)%Z;
     failure_count := failure_count r;
     prep_extract_failures := prep_extract_failures r |}.

Definition add_failure_count (r : run_state) : run_state :=
  {| success_count := success_count r;
     failure_count := (failure_count r + 1)%Z;
     prep_extract_failures := prep_extract_failures r |}.

(** The removal of a successful machine's output directory. *)
Definition remove_machine_output (machine_name base_output_dir : pystr) : M unit :=
  try_except
    (let machine_output_path := os_path_join base_output_dir machine_name in
     present <- os_path_exists_machine machine_name ;;
     if present : bool then
       shutil_rmtree_machine machine_output_path machine_name ;;
       logging Info (MsgRemovedOutputDir machine_name)
     else
       logging Warning (MsgOutputDirMissing machine_name))
    (fun e =>
       logging Error (MsgRemoveFailed machine_name)).

(** What follows the classification of a machine. *)
Definition after_classification (machine_name base_output_dir : pystr)
  (is_update_success : bool) (r : run_state) : M run_state :=
  if is_update_success then
    let r := add_success_count r in
    logging Info (MsgSkippedUpload machine_name) ;;
    remove_machine_output machine_name base_output_dir ;;
    ret r
  else
    let r := add_failure_count r in
    upload_success <- upload_to_minio machine_name base_output_dir ;;
    if negb upload_success
    then ret (add_failure r (machine_name ++ py " (upload)"))
    else ret r.

(** The body of [for machine_name in sorted(machines)]. *)
Definition process_machine (base_source_dir base_output_dir machine_name : pystr)
  (r : run_state) : M run_state :=
  let machine_path := os_path_join base_source_dir machine_name in
  prep_success <- external (PrepareMachine machine_path)
                    (fun w h => shared_prepare_machine w h machine_path) ;;
  if negb prep_success then ret (add_failure r machine_name)
  else
    extract_success <- run_log_extraction machine_name ;;
    if negb extract_success then ret (add_failure r machine_name)
    else
      is_update_success <-
        check_firmware_update_status machine_name base_output_dir ;;
      after_classification machine_name base_output_dir is_update_success r.

Definition initial_run_state : run_state :=
  {| success_count := 0; failure_count := 0; prep_extract_failures := [] |}.

(** The machine loop: the final counters and [overall_success]. *)
Definition process_machines (base_source_dir base_output_dir : pystr)
  (machines : list pystr) : M (bool * run_state) :=
  match machines with
  | [] => ret (true, initial_run_state)
  | _ :: _ =>
      r <- for_each (sorted machines)
             (process_machine base_source_dir base_output_dir)
             initial_run_state ;;
      ret (match prep_extract_failures r with [] => true | _ :: _ => false end, r)
  end.

(** [[d for d in base_output_dir.iterdir() if d.is_dir()]]: it raises when
    the output root does not exist. *)
Definition list_output_dirs : M (list entry) :=
  fun st =>
    match output_root st with
    | Some c => (Ok (filter is_dir_entry c), st)
    | None => (Raised (Exception (py "FileNotFoundError")), st)
    end.

(** The decision about the downstream trigger, at the end of [main]. *)
Definition decide_master_signal (failure_count : Z) : M unit :=
  output_dirs <- list_output_dirs ;;
  let output_empty := (List.length output_dirs =? 0)%nat in
  if output_empty then
    write_master_signal false ;; ret tt
  else if (0 <? failure_count)%Z then
    write_master_signal true ;; ret tt
  else
    write_master_signal false ;; ret tt.

(** [main] from the environment setup to the end of the machine loop: [None]
    when it stops there with [return False], otherwise [overall_success] and
    the counters. *)
Definition prepare_extract_upload (base_source_dir base_output_dir : pystr)
  : M (option (bool * run_state)) :=
  env_ready <- external SetupVirtualEnvironment
                 (fun w h => Ok (setup_virtual_environment w h)) ;;
  if negb env_ready then ret None
  else
    cleanup_directories ;;
    (fun st =>
       if negb (source_is_dir (world st)) then (Ok None, st)
       else
         (machines <- external ListMachines list_machines ;;
          result <- process_machines base_source_dir base_output_dir machines ;;
          ret (Some result)) st).

(** [if success_count > 0 or failure_count > 0: update_machine_status_counts(..)] *)
Definition record_statistics (r : run_state) : M unit :=
  if (0 <? success_count r)%Z || (0 <? failure_count r)%Z
  then update_machine_status_counts (success_count r) (failure_count r)
  else ret tt.

Definition main : M bool :=
  let base_source_dir := py "machines" in
  let base_output_dir := py "output" in
  try_except
    (run <- prepare_extract_upload base_source_dir base_output_dir ;;
     match run with
     | None => ret false
     | Some (overall_success, r) =>
         record_statistics r ;;
         decide_master_signal (failure_count r) ;;
         ret overall_success
     end)
    (fun e => ret false).

(** ** Worlds to run the program in *)

(** A world in which every outside call succeeds: the bucket exists, the
    counter record exists, removals succeed; there are no machines, and the
    classifier finds no success. *)
Definition quiet_world : World :=
  {| minio := fun _ => Ok tt;
     bucket_exists := fun _ _ => Ok true;
     make_bucket := fun _ _ => Ok tt;
     fput_object := fun _ _ _ _ => Ok tt;
     int_mongo_port := fun _ => Ok tt;
     mongo_client := fun _ => Ok tt;
     mongo_database := fun _ => Ok tt;
     find_one := fun _ => Ok true;
     insert_one := fun _ _ _ => Ok tt;
     update_one := fun _ _ _ => Ok tt;
     setup_virtual_environment := fun _ => true;
     rmtree_output_root := fun _ => Removed;
     makedirs_output_root := fun _ => Ok tt;
     glob_required_files := fun _ => ([], None);
     required_files_is_dir := fun _ _ => true;
     source_is_dir := true;
     list_machines := fun _ => Ok [];
     shared_prepare_machine := fun _ _ => Ok true;
     shared_run_log_extraction := fun _ _ => Ok (true, None);
     determine_update_type_and_check := fun _ _ _ => Ok [];
     rmtree := fun _ _ => Removed;
     touch := fun _ _ => Ok tt;
     unlink := fun _ _ => Ok tt |}.

(** A world with the given machines in which every extraction writes
    [written] as the machine's output directory, the classifier answers
    [verdict], the removal of a machine's output directory ends as [removal]
    says, and [fput_object] fails for the local paths in [refused]. *)
Definition demo_world (machines : list pystr) (written : list entry)
  (verdict : pystr) (removal : rmtree_outcome) (refused : list pystr) : World :=
  {| minio := minio quiet_world;
     bucket_exists := bucket_exists quiet_world;
     make_bucket := make_bucket quiet_world;
     fput_object := fun _ _ _ file_path =>
       if existsb (str_eqb file_path) refused
       then Raised (Exception (py "S3Error")) else Ok tt;
     int_mongo_port := int_mongo_port quiet_world;
     mongo_client := mongo_client quiet_world;
     mongo_database := mongo_database quiet_world;
     find_one := find_one quiet_world;
     insert_one := insert_one quiet_world;
     update_one := update_one quiet_world;
     setup_virtual_environment := setup_virtual_environment quiet_world;
     rmtree_output_root := rmtree_output_root quiet_world;
     makedirs_output_root := makedirs_output_root quiet_world;
     glob_required_files := glob_required_files quiet_world;
     required_files_is_dir := required_files_is_dir quiet_world;
     source_is_dir := true;
     list_machines := fun _ => Ok machines;
     shared_prepare_machine := shared_prepare_machine quiet_world;
     shared_run_log_extraction := fun _ _ => Ok (true, Some written);
     determine_update_type_and_check := fun _ _ _ => Ok verdict;
     rmtree := fun _ _ => removal;
     touch := touch quiet_world;
     unlink := unlink quiet_world |}.

(** Both logs and one more artifact. *)
Definition complete_logs : list entry :=
  [File installSetLogs_log; File ciDebug_log; File (py "trace.txt")].

Definition initial_state (w : World) (root : option (list entry)) : State :=
  {| world := w; trace := []; output_root := root; signal_file := false |}.

(** ** Observations on traces *)

(** The events added by a step from [st] to [st']. *)
Definition new_events (st st' : State) (new : history) : Prop :=
  trace st' = new ++ trace st.

(** A call that reads or writes the object store's buckets and objects. *)
Definition is_store_call (e : event) : bool :=
  match e with
  | Called (BucketExists _) _ => true
  | Called (MakeBucket _) _ => true
  | Called (FputObject _ _ _) _ => true
  | _ => false
  end.

Definition is_fput (e : event) : bool :=
  match e with
  | Called (FputObject _ _ _) _ => true
  | _ => false
  end.

Definition is_ok_fput (e : event) : bool :=
  match e with
  | Called (FputObject _ _ _) false => true
  | _ => false
  end.

Definition is_failed_fput (e : event) : bool :=
  match e with
  | Called (FputObject _ _ _) true => true
  | _ => false
  end.

Definition is_sleep (e : event) : bool :=
  match e with
  | Called (Sleep _) _ => true
  | _ => false
  end.

Definition is_one_second_sleep (e : event) : bool :=
  match e with
  | Called (Sleep n) false => (n =? 1)%Z
  | _ => false
  end.

Definition is_retry_record (e : event) : bool :=
  match e with
  | Logged Warning (MsgRetry _ _) => true
  | _ => false
  end.

(** A record that reports upload counters. *)
Definition is_counter_record (e : event) : bool :=
  match e with
  | Logged _ (MsgProgress _ _ _) => true
  | Logged _ (MsgUploaded _ _) => true
  | Logged _ (MsgFoundFiles _) => true
  | _ => false
  end.

Definition count (p : event -> bool) (h : history) : nat :=
  List.length (filter p h).

(** The local paths given to [fput_object], in the order of the list. *)
Definition fput_paths (h : history) : list pystr :=
  flat_map (fun e => match e with
                     | Called (FputObject _ _ file_path) _ => [file_path]
                     | _ => []
                     end) h.

(** The local paths of a batch in the order [upload_to_minio] takes them:
    directory after directory as [os.walk] yields them, the files of one
    directory by sorted name. *)
Definition attempt_order (w : list (pystr * list pystr * list pystr))
  : list pystr :=
  flat_map (fun '(root, _, files) => map (os_path_join root) (sorted files)) w.

(** [ps] with its [i]-th path repeated [ns[i]] times. *)
Definition repeat_each (ps : list pystr) (ns : list nat) : list pystr :=
  List.concat (map (fun pn => repeat (fst pn) (snd pn)) (combine ps ns)).

(** The trigger the specification asks for, from the children of the output
    root and the failure count: false without machine subdirectories,
    otherwise whether failures were counted. *)
Definition trigger_required (children : list entry) (failure_count : Z) : bool :=
  if (List.length (filter is_dir_entry children) =? 0)%nat then false
  else (0 <? failure_count)%Z.

(** The file operations on the signal file succeed at this point of the run. *)
Definition signal_file_writable (st : State) : Prop :=
  touch (world st) (trace st) MASTER_SIGNAL_FILE = Ok tt
  /\ unlink (world st) (trace st) MASTER_SIGNAL_FILE = Ok tt.

(** The state of a run once a machine has been prepared and its extraction
    has returned [written]. *)
Definition extracted (st : State) (base_source_dir machine_name : pystr)
  (written : option (list entry)) : State :=
  {| world := world st;
     trace := Called (RunLogExtraction machine_name) false
              :: Called (PrepareMachine (os_path_join base_source_dir machine_name))
                   false
              :: trace st;
     output_root := after_extraction machine_name written (output_root st);
     signal_file := signal_file st |}.

(** A machine passes preparation and extraction, which writes [written]. *)
Definition prepared_and_extracted (st : State) (base_source_dir machine_name : pystr)
  (written : option (list entry)) : Prop :=
  shared_prepare_machine (world st) (trace st)
    (os_path_join base_source_dir machine_name) = Ok true
  /\ shared_run_log_extraction (world st)
       (Called (PrepareMachine (os_path_join base_source_dir machine_name)) false
          :: trace st)
       machine_name
     = Ok (true, written).

(** A statement that leaves the file system, the signal file and the world
    as they are, and only adds to the trace. *)
Definition preserves {A} (m : M A) : Prop :=
  forall (st : State) (r : result A) (st' : State),
    m st = (r, st') ->
    output_root st' = output_root st
    /\ signal_file st' = signal_file st
    /\ world st' = world st
    /\ exists new, trace st' = new ++ trace st.

(** The files of a tree, read off the tree: the paths of its [File] entries. *)
Fixpoint files_of (parent : pystr) (e : entry) : list pystr :=
  match e with
  | File name => [os_path_join parent name]
  | Dir name children => flat_map (files_of (os_path_join parent name)) children
  end.

Definition files_under (top : pystr) (children : list entry) : list pystr :=
  flat_map (files_of top) children.

(** A sequence of strings in ascending order. *)
Fixpoint is_sorted (l : list pystr) : bool :=
  match l with
  | [] => true
  | x :: rest =>
      match rest with
      | [] => true
      | y :: _ => str_leb x y && is_sorted rest
      end
  end.

(** The paths of a batch relative to the machine's directory, in the order
    they are uploaded. *)
Definition relative_paths_attempted (top : pystr) (children : list entry)
  : list pystr :=
  map (fun file_path => os_path_relpath file_path top)
    (attempt_order (os_walk top children)).

(** The client is constructed and the bucket is found or made: the answers
    of the object store at the two or three points where [upload_to_minio]
    asks. *)
Definition store_ready (machine_name : pystr) (st : State) : Prop :=
  let h0 := Logged Info (MsgStartingUpload machine_name) :: trace st in
  let h1 := Logged Info
              (MsgUsingPrefix (Sanitizer.sanitize_name machine_name) machine_name)
            :: Logged Info MsgConnected :: Called Minio false :: h0 in
  minio (world st) h0 = Ok tt
  /\ (bucket_exists (world st) h1 MINIO_BUCKET_NAME = Ok true
      \/ (bucket_exists (world st) h1 MINIO_BUCKET_NAME = Ok false
          /\ make_bucket (world st)
               (Called (BucketExists MINIO_BUCKET_NAME) false :: h1)
               MINIO_BUCKET_NAME
             = Ok tt)).

(** Ten artifacts of a machine, and the world in which the uploads of the
    listed local paths fail. *)
Definition ten_files : list entry :=
  map (fun n => File (py "log" ++ [n]))
    [48; 49; 50; 51; 52; 53; 54; 55; 56; 57]%N.

Definition ten_files_state (refused : list pystr) : State :=
  initial_state (demo_world [py "m1"] ten_files [] Removed refused)
    (Some [Dir (py "m1") ten_files]).

(** One file of the batch: what [upload_file] does to the counters. *)
Definition file_uploaded (c c' : counters) : Prop :=
  upload_count c' = (upload_count c + 1)%Z
  /\ error_count c' = error_count c
  /\ file_count c' = (file_count c + 1)%Z.

Definition file_failed (c c' : counters) : Prop :=
  upload_count c' = upload_count c
  /\ error_count c' = (error_count c + 1)%Z
  /\ file_count c' = (file_count c + 1)%Z.

(** What uploading the files [paths], in this order, does: every path is
    given to [fput_object] between one and three times before the next one
    is, the counters account for every path, and nothing else changes. *)
Definition uploads (paths : list pystr) (c c' : counters) (st st' : State)
  : Prop :=
  exists (new : history) (ns : list nat),
    new_events st st' new
    /\ output_root st' = output_root st
    /\ signal_file st' = signal_file st
    /\ world st' = world st
    /\ List.length ns = List.length paths
    /\ Forall (fun n => 1 <= n <= 3)%nat ns
    /\ fput_paths (rev new) = repeat_each paths ns
    /\ upload_count c' = (upload_count c + Z.of_nat (count is_ok_fput new))%Z
    /\ (upload_count c' + error_count c'
        = upload_count c + error_count c + Z.of_nat (List.length paths))%Z
    /\ file_count c' = (file_count c + Z.of_nat (List.length paths))%Z
    /\ (error_count c <= error_count c')%Z
    /\ count is_sleep new = count is_one_second_sleep new
    /\ (count is_sleep new <= 2 * List.length paths)%nat.

(** The files below the subdirectories among [children]. *)
Definition files_in_subdirs (parent : pystr) (e : entry) : list pystr :=
  match e with
  | File _ => []
  | Dir _ _ => files_of parent e
  end.

(** The events of [failed] failed attempts to put one file, most recent
    first: each failed attempt is followed by its retry record and by a
    sleep of one second. *)
Fixpoint retried (minio_path file_path file : pystr) (failed : nat) : history :=
  match failed with
  | O => []
  | S earlier =>
      Called (Sleep 1) false
        :: Logged Warning (MsgRetry (Z.of_nat failed) file)
        :: Called (FputObject MINIO_BUCKET_NAME minio_path file_path) true
        :: retried minio_path file_path file earlier
  end.

(** ** Further observations *)

(** The first three steps of [sanitize_name]: lower case, hyphens for
    underscores and spaces, and the deletion of every other character. *)
Definition folded (name : pystr) : pystr :=
  filter Sanitizer.is_allowed
    (replace_char Sanitizer.ch_space Sanitizer.ch_hyphen
       (replace_char Sanitizer.ch_underscore Sanitizer.ch_hyphen
          (Sanitizer.lower name))).

(** One character through [lower] and the two replacements. *)
Definition hyphenated (c : codepoint) : pystr :=
  replace_char Sanitizer.ch_space Sanitizer.ch_hyphen
    (replace_char Sanitizer.ch_underscore Sanitizer.ch_hyphen
       (Sanitizer.lower_char c)).

(** A relation between the state before and the state after, kept by every
    run of a statement, whether it returns or raises. *)
Definition respects (R : State -> State -> Prop) {A} (m : M A) : Prop :=
  forall (st : State) (r : result A) (st' : State), m st = (r, st') -> R st st'.

(** The world is the same, and in a world that satisfies [W] every event
    added to the trace satisfies [P]. *)
Definition emits (W : World -> Prop) (P : event -> bool) (st st' : State) : Prop :=
  world st' = world st
  /\ (W (world st) ->
      exists new, trace st' = new ++ trace st /\ forallb P new = true).

Definition any_world (w : World) : Prop := True.

(** What [upload_to_minio] may do for a machine: write records, construct
    the client, look up or make the one bucket, put objects into that bucket
    under the machine's prefix, and sleep one second. *)
Definition is_upload_event (machine_name : pystr) (e : event) : bool :=
  match e with
  | Logged _ _ => true
  | Called Minio _ => true
  | Called (BucketExists bucket) _ => str_eqb bucket MINIO_BUCKET_NAME
  | Called (MakeBucket bucket) _ => str_eqb bucket MINIO_BUCKET_NAME
  | Called (FputObject bucket object_name _) _ =>
      str_eqb bucket MINIO_BUCKET_NAME
      && is_prefix (Sanitizer.sanitize_name machine_name ++ [ch_slash]) object_name
      && negb (existsb (N.eqb ch_backslash) object_name)
  | Called (Sleep seconds) _ => (seconds =? 1)%Z
  | Called _ _ => false
  end.

(** A store that answers every [fput_object] the same way: it raises
    ([raised = true]) or it stores the object. *)
Definition puts_answer (raised : bool) (w : World) : Prop :=
  forall (h : history) (bucket object_name file_path : pystr),
    is_raised (fput_object w h bucket object_name file_path) = raised.

Definition is_failure_record (e : event) : bool :=
  match e with
  | Logged Error (MsgFailedToUpload _) => true
  | _ => false
  end.

(** What uploading [n] files does against such a store. *)
Definition uniform_batch (raised : bool) (n : nat) (c c' : counters)
  (st st' : State) : Prop :=
  exists new : history,
    new_events st st' new
    /\ world st' = world st
    /\ count is_fput new = (if raised then 3 * n else n)%nat
    /\ count is_ok_fput new = (if raised then 0 else n)%nat
    /\ count is_sleep new = (if raised then 2 * n else 0)%nat
    /\ count is_retry_record new = (if raised then 2 * n else 0)%nat
    /\ count is_failure_record new = (if raised then n else 0)%nat
    /\ upload_count c' = (upload_count c + (if raised then 0 else Z.of_nat n))%Z
    /\ error_count c' = (error_count c + (if raised then Z.of_nat n else 0))%Z.

(** The quiet world with a store that refuses every object. *)
Definition refusing_world : World :=
  {| minio := minio quiet_world;
     bucket_exists := bucket_exists quiet_world;
     make_bucket := make_bucket quiet_world;
     fput_object := fun _ _ _ _ => Raised (Exception (py "S3Error"));
     int_mongo_port := int_mongo_port quiet_world;
     mongo_client := mongo_client quiet_world;
     mongo_database := mongo_database quiet_world;
     find_one := find_one quiet_world;
     insert_one := insert_one quiet_world;
     update_one := update_one quiet_world;
     setup_virtual_environment := setup_virtual_environment quiet_world;
     rmtree_output_root := rmtree_output_root quiet_world;
     makedirs_output_root := makedirs_output_root quiet_world;
     glob_required_files := glob_required_files quiet_world;
     required_files_is_dir := required_files_is_dir quiet_world;
     source_is_dir := true;
     list_machines := list_machines quiet_world;
     shared_prepare_machine := shared_prepare_machine quiet_world;
     shared_run_log_extraction := shared_run_log_extraction quiet_world;
     determine_update_type_and_check := determine_update_type_and_check quiet_world;
     rmtree := rmtree quiet_world;
     touch := touch quiet_world;
     unlink := unlink quiet_world |}.

Definition is_classifier_call (e : event) : bool :=
  match e with
  | Called (DetermineUpdateTypeAndCheck _ _) _ => true
  | _ => false
  end.


(** What [write_master_signal] may do: write records, and touch or unlink
    the signal file. *)
Definition is_signal_event (e : event) : bool :=
  match e with
  | Logged _ _ => true
  | Called (Touch path) _ => str_eqb path MASTER_SIGNAL_FILE
  | Called (Unlink path) _ => str_eqb path MASTER_SIGNAL_FILE
  | Called _ _ => false
  end.

Definition is_call (e : event) : bool :=
  match e with
  | Called _ _ => true
  | Logged _ _ => false
  end.

(** The construction of the store's client, or a call to the store. *)
Definition is_minio_event (e : event) : bool :=
  match e with
  | Called Minio _ => true
  | _ => is_store_call e
  end.

(** The calls of [main] that no [try] of its machine loop guards: the
    listing of the machines, the preparation and the extraction. *)
Definition is_abort_call (c : call) : bool :=
  match c with
  | ListMachines => true
  | PrepareMachine _ => true
  | RunLogExtraction _ => true
  | _ => false
  end.

Definition is_abort_event (e : event) : bool :=
  match e with
  | Called c true => is_abort_call c
  | _ => false
  end.

(** A call to the counter store. *)
Definition is_counter_call (e : event) : bool :=
  match e with
  | Called IntMongoPort _ => true
  | Called MongoClient _ => true
  | Called MongoDatabase _ => true
  | Called FindOne _ => true
  | Called (InsertOne _ _) _ => true
  | Called (UpdateOneInc _ _) _ => true
  | _ => false
  end.

(** A file operation on the signal file. *)
Definition is_signal_call (e : event) : bool :=
  match e with
  | Called (Touch _) _ => true
  | Called (Unlink _) _ => true
  | _ => false
  end.

(** What the run does up to the end of the machine loop, as long as no
    unguarded call raises. *)
Definition is_loop_event (e : event) : bool :=
  negb (is_abort_event e) && negb (is_counter_call e) && negb (is_signal_call e).

(** What [main] does before it looks at the machines. *)
Definition is_setup_event (e : event) : bool :=
  match e with
  | Called SetupVirtualEnvironment _ => true
  | Called RmtreeOutputRoot _ => true
  | Called MakedirsOutputRoot _ => true
  | _ => false
  end.

Definition keeps_signal (st st' : State) : Prop :=
  signal_file st' = signal_file st.

(** A statement of the machine loop: it leaves the signal file alone, and it
    either goes through with events of the loop only, or raises right after
    an unguarded call raised. *)
Definition aborts_or_runs {A} (m : M A) : Prop :=
  forall (st : State) (res : result A) (st' : State),
    m st = (res, st') ->
    signal_file st' = signal_file st
    /\ exists new : history,
         trace st' = new ++ trace st
         /\ match res with
            | Ok _ => forallb is_loop_event new = true
            | Raised _ =>
                exists c tl,
                  new = Called c true :: tl
                  /\ is_abort_call c = true
                  /\ forallb is_loop_event tl = true
            end.

(** A statement of the loop that never raises. *)
Definition runs_clean {A} (m : M A) : Prop :=
  forall (st : State) (res : result A) (st' : State),
    m st = (res, st') ->
    signal_file st' = signal_file st
    /\ (exists a, res = Ok a)
    /\ exists new : history,
         trace st' = new ++ trace st /\ forallb is_loop_event new = true.

(** A world in which the preparation of the machine at [failing_path]
    raises, and every other machine is classified as failed. *)
Definition aborting_world (machines : list pystr) (failing_path : pystr) : World :=
  {| minio := minio quiet_world;
     bucket_exists := bucket_exists quiet_world;
     make_bucket := make_bucket quiet_world;
     fput_object := fput_object quiet_world;
     int_mongo_port := int_mongo_port quiet_world;
     mongo_client := mongo_client quiet_world;
     mongo_database := mongo_database quiet_world;
     find_one := find_one quiet_world;
     insert_one := insert_one quiet_world;
     update_one := update_one quiet_world;
     setup_virtual_environment := setup_virtual_environment quiet_world;
     rmtree_output_root := rmtree_output_root quiet_world;
     makedirs_output_root := makedirs_output_root quiet_world;
     glob_required_files := glob_required_files quiet_world;
     required_files_is_dir := required_files_is_dir quiet_world;
     source_is_dir := true;
     list_machines := fun _ => Ok machines;
     shared_prepare_machine := fun _ machine_path =>
       if str_eqb machine_path failing_path
       then Raised (Exception (py "OSError")) else Ok true;
     shared_run_log_extraction := fun _ _ => Ok (true, Some complete_logs);
     determine_update_type_and_check := fun _ _ _ => Ok (py "failed");
     rmtree := rmtree quiet_world;
     touch := touch quiet_world;
     unlink := unlink quiet_world |}.

(** The quiet world without a source directory. *)
Definition sourceless_world : World :=
  {| minio := minio quiet_world;
     bucket_exists := bucket_exists quiet_world;
     make_bucket := make_bucket quiet_world;
     fput_object := fput_object quiet_world;
     int_mongo_port := int_mongo_port quiet_world;
     mongo_client := mongo_client quiet_world;
     mongo_database := mongo_database quiet_world;
     find_one := find_one quiet_world;
     insert_one := insert_one quiet_world;
     update_one := update_one quiet_world;
     setup_virtual_environment := setup_virtual_environment quiet_world;
     rmtree_output_root := rmtree_output_root quiet_world;
     makedirs_output_root := makedirs_output_root quiet_world;
     glob_required_files := glob_required_files quiet_world;
     required_files_is_dir := required_files_is_dir quiet_world;
     source_is_dir := false;
     list_machines := list_machines quiet_world;
     shared_prepare_machine := shared_prepare_machine quiet_world;
     shared_run_log_extraction := shared_run_log_extraction quiet_world;
     determine_update_type_and_check := determine_update_type_and_check quiet_world;
     rmtree := rmtree quiet_world;
     touch := touch quiet_world;
     unlink := unlink quiet_world |}.

(** ** Observations on the cleanup, the machine loop and the end of the run *)

(** What the loop over the [required_files] directories may do: remove one
    of the paths the search yielded, and record a removal. *)
Definition is_required_removal (items : list pystr) (e : event) : Prop :=
  (exists item raised, e = Called (Rmtree item) raised /\ In item items)
  \/ (exists item, e = Logged Info (MsgRemovedDirectory item)).

(** The removal of the old output root, when there is one. *)
Definition old_root_removed (st : State) : history :=
  match output_root st with
  | Some _ => [Called RmtreeOutputRoot false]
  | None => []
  end.

(** The ways [cleanup_directories] ends, with the events of each: the
    removal of the old output root raises; the creation of the new one
    raises; there is no source directory; or the [required_files]
    directories are looked for and removed, and the search ends, with an
    exception or without. *)
Definition cleanup_end (st st' : State) (b : bool) (new : history) : Prop :=
  (exists e left_over,
      rmtree_output_root (world st) (trace st) = RemoveFailed e left_over
      /\ output_root st <> None
      /\ new = [Called RmtreeOutputRoot true]
      /\ b = false
      /\ output_root st' = Some left_over)
  \/ (new = Called MakedirsOutputRoot true :: old_root_removed st
      /\ b = false
      /\ output_root st' = None)
  \/ (source_is_dir (world st) = false
      /\ new = Called MakedirsOutputRoot false :: old_root_removed st
      /\ b = true
      /\ output_root st' = Some [])
  \/ (source_is_dir (world st) = true
      /\ exists (removals : history) (search_raised : bool),
           let found :=
             glob_required_files (world st)
               (Called MakedirsOutputRoot false :: old_root_removed st
                ++ trace st) in
           new = Called GlobRequiredFiles search_raised :: removals
                 ++ Called MakedirsOutputRoot false :: old_root_removed st
           /\ search_raised = (match snd found with Some _ => true | None => false end)
           /\ Forall (is_required_removal (fst found)) removals
           /\ b = negb search_raised
           /\ output_root st' = Some []).

(** A world whose source tree has two [required_files] directories, the
    first of which cannot be removed. *)
Definition stubborn_world : World :=
  {| minio := minio quiet_world;
     bucket_exists := bucket_exists quiet_world;
     make_bucket := make_bucket quiet_world;
     fput_object := fput_object quiet_world;
     int_mongo_port := int_mongo_port quiet_world;
     mongo_client := mongo_client quiet_world;
     mongo_database := mongo_database quiet_world;
     find_one := find_one quiet_world;
     insert_one := insert_one quiet_world;
     update_one := update_one quiet_world;
     setup_virtual_environment := setup_virtual_environment quiet_world;
     rmtree_output_root := rmtree_output_root quiet_world;
     makedirs_output_root := makedirs_output_root quiet_world;
     glob_required_files := fun _ =>
       ([py "machines/m1/required_files"; py "machines/m2/required_files"], None);
     required_files_is_dir := fun _ _ => true;
     source_is_dir := true;
     list_machines := list_machines quiet_world;
     shared_prepare_machine := shared_prepare_machine quiet_world;
     shared_run_log_extraction := shared_run_log_extraction quiet_world;
     determine_update_type_and_check := determine_update_type_and_check quiet_world;
     rmtree := fun _ path =>
       if str_eqb path (py "machines/m1/required_files")
       then RemoveFailed (Exception (py "PermissionError")) []
       else Removed;
     touch := touch quiet_world;
     unlink := unlink quiet_world |}.

(** How the step of one machine ends, when it ends without an exception. *)
Inductive step_end :=
| PreparationFailed
| ExtractionFailed
| UpdateSuccessful
| UpdateFailed (uploaded : bool).

(** What the end of a step does to the counters and to the list of
    failures. *)
Definition counted (machine_name : pystr) (o : step_end) (r : run_state)
  : run_state :=
  match o with
  | PreparationFailed => add_failure r machine_name
  | ExtractionFailed => add_failure r machine_name
  | UpdateSuccessful => add_success_count r
  | UpdateFailed true => add_failure_count r
  | UpdateFailed false =>
      add_failure (add_failure_count r) (machine_name ++ py " (upload)")
  end.

(** The answers of the world that make the step of [machine_name], started
    in [st], end as [o]: the preparation returned [False]; it returned
    [True] and the extraction returned [False]; both returned [True] and
    the classification answered [True]; or it answered [False], and the
    upload returned [uploaded]. *)
Definition ends_as (base_source_dir base_output_dir machine_name : pystr)
  (st : State) (o : step_end) : Prop :=
  let machine_path := os_path_join base_source_dir machine_name in
  match o with
  | PreparationFailed =>
      shared_prepare_machine (world st) (trace st) machine_path = Ok false
  | ExtractionFailed =>
      shared_prepare_machine (world st) (trace st) machine_path = Ok true
      /\ exists written,
           shared_run_log_extraction (world st)
             (Called (PrepareMachine machine_path) false :: trace st)
             machine_name
           = Ok (false, written)
  | UpdateSuccessful =>
      exists written,
        prepared_and_extracted st base_source_dir machine_name written
        /\ fst (check_firmware_update_status machine_name base_output_dir
                  (extracted st base_source_dir machine_name written))
           = Ok true
  | UpdateFailed uploaded =>
      exists written,
        prepared_and_extracted st base_source_dir machine_name written
        /\ let checked :=
             check_firmware_update_status machine_name base_output_dir
               (extracted st base_source_dir machine_name written) in
           fst checked = Ok false
           /\ fst (upload_to_minio machine_name base_output_dir (snd checked))
              = Ok uploaded
  end.

(** The machines of a loop with the end of each one's step: every step
    starts in the state the step before it left, ends as its entry of
    [ends] says, and counts as [counted] says. *)
Fixpoint loop_ends (base_source_dir base_output_dir : pystr)
  (machines : list pystr) (ends : list step_end)
  (r : run_state) (st : State) (r' : run_state) (st' : State) : Prop :=
  match machines, ends with
  | [], [] => r' = r /\ st' = st
  | machine_name :: machines', o :: ends' =>
      exists st1 : State,
        ends_as base_source_dir base_output_dir machine_name st o
        /\ process_machine base_source_dir base_output_dir machine_name r st
           = (Ok (counted machine_name o r), st1)
        /\ loop_ends base_source_dir base_output_dir machines' ends'
             (counted machine_name o r) st1 r' st'
  | _, _ => False
  end.

Definition is_counted_success (o : step_end) : bool :=
  match o with UpdateSuccessful => true | _ => false end.

Definition is_counted_failure (o : step_end) : bool :=
  match o with UpdateFailed _ => true | _ => false end.

(** The entry a step adds to the list of failures. *)
Definition failure_label (machine_name : pystr) (o : step_end) : list pystr :=
  match o with
  | PreparationFailed => [machine_name]
  | ExtractionFailed => [machine_name]
  | UpdateSuccessful => []
  | UpdateFailed true => []
  | UpdateFailed false => [machine_name ++ py " (upload)"]
  end.

Definition failure_labels (machines : list pystr) (ends : list step_end)
  : list pystr :=
  flat_map (fun mo => failure_label (fst mo) (snd mo)) (combine machines ends).

(** The operation that [write_master_signal should_run_master] needs on the
    signal file raises at this point of the run: the [touch], or the
    [unlink] of a file that is there. *)
Definition signal_operation_raises (should_run_master : bool) (st : State)
  : bool :=
  if should_run_master
  then is_raised (touch (world st) (trace st) MASTER_SIGNAL_FILE)
  else signal_file st
       && is_raised (unlink (world st) (trace st) MASTER_SIGNAL_FILE).

(** The quiet world with a signal file that cannot be removed. *)
Definition stuck_signal_world : World :=
  {| minio := minio quiet_world;
     bucket_exists := bucket_exists quiet_world;
     make_bucket := make_bucket quiet_world;
     fput_object := fput_object quiet_world;
     int_mongo_port := int_mongo_port quiet_world;
     mongo_client := mongo_client quiet_world;
     mongo_database := mongo_database quiet_world;
     find_one := find_one quiet_world;
     insert_one := insert_one quiet_world;
     update_one := update_one quiet_world;
     setup_virtual_environment := setup_virtual_environment quiet_world;
     rmtree_output_root := rmtree_output_root quiet_world;
     makedirs_output_root := makedirs_output_root quiet_world;
     glob_required_files := glob_required_files quiet_world;
     required_files_is_dir := required_files_is_dir quiet_world;
     source_is_dir := source_is_dir quiet_world;
     list_machines := list_machines quiet_world;
     shared_prepare_machine := shared_prepare_machine quiet_world;
     shared_run_log_extraction := shared_run_log_extraction quiet_world;
     determine_update_type_and_check := determine_update_type_and_check quiet_world;
     rmtree := rmtree quiet_world;
     touch := touch quiet_world;
     unlink := fun _ _ => Raised (Exception (py "PermissionError")) |}.


(** ** Environment setup: [run_command] and [setup_virtual_environment]

    The two functions run before anything of the pipeline exists; they have
    a world of their own: the child processes, the two paths they test and
    the platform. *)

Module Bootstrap.

(** [subprocess.CompletedProcess], with [text=True]. *)
Record completed := {
  returncode : Z;
  stdout : pystr;
  stderr : pystr
}.

(** What [run_command] raises: the [subprocess.CalledProcessError] it
    constructs, or whatever [subprocess.run] raised. *)
Inductive error :=
| CalledProcessError (returncode : Z) (command : list pystr)
| Other (e : exn).

Inductive outcome (A : Type) : Type :=
| Returned (a : A)
| Thrown (e : error).
Arguments Returned {A} a.
Arguments Thrown {A} e.

Inductive level := INFO | WARNING | ERROR.

(** The texts logged and printed; their formatting is not modelled. *)
Inductive text :=
| Running (command : list pystr)
| Stdout (out : pystr)
| Stderr (err : pystr)
| CommandFailed (returncode : Z) (command : list pystr) (err : option pystr)
| CommandFailedUnchecked (returncode : Z)
| Finished (returncode : Z) (command : list pystr)
| FailedToRun (command : list pystr)
| SettingUp
| RequirementsNotFound
| ReusingEnvironment
| CreatingEnvironment
| SetupComplete
| SetupFailed.

Inductive style := AsSection | AsStep | AsSuccess | AsWarning | AsError.

(** What the functions did, most recent first. A child process is recorded
    with its return code, or with [None] when [subprocess.run] raised. *)
Inductive event :=
| Ran (command : list pystr) (code : option Z)
| Logged (l : level) (m : text)
| Printed (s : style) (m : text)
| PrintedTraceback.

Definition history := list event.

Record Env := {
  subprocess_run : history -> list pystr -> result completed;
  (* [Path("requirements.txt").exists()] and [Path(".venv").exists()] *)
  requirements_exists : bool;
  venv_exists : bool;
  platform_system : pystr;
  sys_executable : pystr
}.

Definition B (A : Type) : Type := history -> outcome A * history.

Definition ret {A} (a : A) : B A := fun t => (Returned a, t).

Definition bind {A C} (m : B A) (k : A -> B C) : B C :=
  fun t =>
    match m t with
    | (Returned a, t') => k a t'
    | (Thrown e, t') => (Thrown e, t')
    end.

Definition throw {A} (e : error) : B A := fun t => (Thrown e, t).

Definition try_catch {A} (m : B A) (handler : error -> B A) : B A :=
  fun t =>
    match m t with
    | (Returned a, t') => (Returned a, t')
    | (Thrown e, t') => handler e t'
    end.

Declare Scope boot_scope.
Notation "x <- m ;; k" := (bind m (fun x => k))
  (at level 61, m at next level, right associativity) : boot_scope.
Notation "m ;; k" := (bind m (fun _ => k))
  (at level 61, right associativity) : boot_scope.
Local Open Scope boot_scope.

Definition emit (e : event) : B unit := fun t => (Returned tt, e :: t).

Definition log (l : level) (m : text) : B unit := emit (Logged l m).

Definition print (s : style) (m : text) : B unit := emit (Printed s m).

(** [subprocess.run(command, check=False, ...)] *)
Definition run (env : Env) (command : list pystr) : B completed :=
  fun t =>
    match subprocess_run env t command with
    | Ok result => (Returned result, Ran command (Some (returncode result)) :: t)
    | Raised e => (Thrown (Other e), Ran command None :: t)
    end.

Definition nonempty (s : pystr) : bool :=
  match s with [] => false | _ :: _ => true end.

Definition run_command (env : Env) (command : list pystr)
  (check capture_output : bool) : B completed :=
  try_catch
    (log INFO (Running command) ;;
     print AsStep (Running command) ;;
     result <- run env command ;;
     (if capture_output then
        (if nonempty (stdout result)
         then log INFO (Stdout (stdout result)) else ret tt) ;;
        (if nonempty (stderr result)
         then log (if negb (returncode result =? 0)%Z then ERROR else WARNING)
                (Stderr (stderr result))
         else ret tt)
      else ret tt) ;;
     (if check && negb (returncode result =? 0)%Z then
        let error_msg :=
          CommandFailed (returncode result) command
            (if capture_output && nonempty (stderr result)
             then Some (stderr result) else None) in
        log ERROR error_msg ;;
        print AsError error_msg ;;
        throw (CalledProcessError (returncode result) command)
      else ret tt) ;;
     log INFO (Finished (returncode result) command) ;;
     ret result)
    (fun e =>
       match e with
       | CalledProcessError code _ =>
           (if negb check
            then print AsError (CommandFailedUnchecked code) else ret tt) ;;
           throw e
       | Other _ =>
           log ERROR (FailedToRun command) ;;
           print AsError (FailedToRun command) ;;
           emit PrintedTraceback ;;
           throw e
       end).

Definition venv_command (env : Env) : list pystr :=
  [sys_executable env; py "-m"; py "venv"; py ".venv"].

(** [str(venv_dir / "Scripts" / "pip.exe")] on Windows,
    [str(venv_dir / "bin" / "pip")] elsewhere. *)
Definition pip_path (env : Env) : pystr :=
  if str_eqb (platform_system env) (py "Windows")
  then py ".venv\Scripts\pip.exe"
  else py ".venv/bin/pip".

Definition pip_command (env : Env) : list pystr :=
  [pip_path env; py "install"; py "-r"; py "requirements.txt"].

Definition setup_virtual_environment (env : Env) : B bool :=
  print AsSection SettingUp ;;
  if negb (requirements_exists env) then
    print AsWarning RequirementsNotFound ;;
    ret true
  else
    try_catch
      ((if venv_exists env then print AsStep ReusingEnvironment
        else print AsStep CreatingEnvironment ;;
             run_command env (venv_command env) true true ;;
             ret tt) ;;
       run_command env (pip_command env) true true ;;
       print AsSuccess SetupComplete ;;
       ret true)
      (fun e =>
         print AsError SetupFailed ;;
         ret false).

(** The child processes of a trace with their return codes, oldest first. *)
Definition processes (t : history) : list (list pystr * option Z) :=
  flat_map (fun e => match e with
                     | Ran command code => [(command, code)]
                     | _ => []
                     end) (rev t).

(** The commands the setup has to run. *)
Definition setup_commands (env : Env) : list (list pystr) :=
  (if venv_exists env then [] else [venv_command env]) ++ [pip_command env].

Definition is_failure_report (e : event) : bool :=
  match e with
  | Logged ERROR (CommandFailed _ _ _) => true
  | Logged ERROR (FailedToRun _) => true
  | _ => false
  end.

Definition is_unchecked_report (e : event) : bool :=
  match e with
  | Printed _ (CommandFailedUnchecked _) => true
  | _ => false
  end.

Definition is_thrown {A} (o : outcome A) : bool :=
  match o with Returned _ => false | Thrown _ => true end.

(** An environment in which every child process exits with [code]. *)
Definition exiting_with (code : Z) (requirements venv : bool) : Env :=
  {| subprocess_run := fun _ _ =>
       Ok {| returncode := code; stdout := py "ok"; stderr := [] |};
     requirements_exists := requirements;
     venv_exists := venv;
     platform_system := py "Linux";
     sys_executable := py "/usr/bin/python3" |}.

End Bootstrap.

(** * Properties *)

(** ** Generic facts about statements *)

Lemma try_except_returns {A} (m : M A) (handler : exn -> M A) :
  (forall e st, exists a st', handler e st = (Ok a, st')) ->
  forall st, exists a st', try_except m handler st = (Ok a, st').
Proof.
  intros Hh st. unfold try_except.
  destruct (m st) as [[a | e] st1].
  - exists a, st1. reflexivity.
  - apply Hh.
Qed.

Lemma machine_dir_with_trace (st : State) (t : history) (m : pystr) :
  machine_dir (with_trace st t) m = machine_dir st m.
Proof. reflexivity. Qed.

Lemma app_middle {A} (l : list A) (x : A) (r : list A) :
  l ++ x :: r = (l ++ [x]) ++ r.
Proof. rewrite <- app_assoc. reflexivity. Qed.

Ltac step_monad :=
  unfold bind, try_except, ret, raise, logging, record_event, external,
    time_sleep, with_trace, with_output_root, with_signal_file in *;
  simpl in *.

(** ** Statements that only add to the trace *)

Lemma preserves_ret {A} (a : A) : preserves (ret a).
Proof.
  intros st r st' H. inversion H; subst. repeat split. now exists [].
Qed.

Lemma preserves_raise {A} (e : exn) : preserves (@raise A e).
Proof.
  intros st r st' H. inversion H; subst. repeat split. now exists [].
Qed.

Lemma preserves_bind {A B} (m : M A) (k : A -> M B) :
  preserves m -> (forall a, preserves (k a)) -> preserves (bind m k).
Proof.
  intros Hm Hk st r st' H. unfold bind in H.
  destruct (m st) as [[a | e] st1] eqn:E.
  - destruct (Hm _ _ _ E) as (R1 & S1 & W1 & n1 & T1).
    destruct (Hk a _ _ _ H) as (R2 & S2 & W2 & n2 & T2).
    repeat split; try congruence.
    exists (n2 ++ n1). rewrite T2, T1. now rewrite app_assoc.
  - inversion H; subst. exact (Hm _ _ _ E).
Qed.

Lemma preserves_try_except {A} (m : M A) (handler : exn -> M A) :
  preserves m -> (forall e, preserves (handler e)) ->
  preserves (try_except m handler).
Proof.
  intros Hm Hh st r st' H. unfold try_except in H.
  destruct (m st) as [[a | e] st1] eqn:E.
  - inversion H; subst. exact (Hm _ _ _ E).
  - destruct (Hm _ _ _ E) as (R1 & S1 & W1 & n1 & T1).
    destruct (Hh e _ _ _ H) as (R2 & S2 & W2 & n2 & T2).
    repeat split; try congruence.
    exists (n2 ++ n1). rewrite T2, T1. now rewrite app_assoc.
Qed.

Lemma preserves_logging (level : log_level) (msg : log_msg) :
  preserves (logging level msg).
Proof.
  intros st r st' H. inversion H; subst. simpl. repeat split.
  now exists [Logged level msg].
Qed.

Lemma preserves_external {A} (c : call) (answer : World -> history -> result A) :
  preserves (external c answer).
Proof.
  intros st r st' H. inversion H; subst. simpl. repeat split.
  now eexists [_].
Qed.

Lemma preserves_if {A} (b : bool) (m1 m2 : M A) :
  preserves m1 -> preserves m2 -> preserves (if b then m1 else m2).
Proof. now destruct b. Qed.

Lemma preserves_read {A} (f : State -> A) :
  preserves (fun st => (Ok (f st), st)).
Proof.
  intros st r st' H. inversion H; subst. repeat split. now exists [].
Qed.

Lemma preserves_for_each {A S} (l : list A) (body : A -> S -> M S) :
  (forall x s, preserves (body x s)) -> forall s, preserves (for_each l body s).
Proof.
  intros Hb. induction l as [| x l IH]; intros s; simpl.
  - apply preserves_ret.
  - apply preserves_bind; [apply Hb | intros s'; apply IH].
Qed.

Ltac preserves_step :=
  first
    [ apply preserves_ret
    | apply preserves_raise
    | apply preserves_logging
    | apply preserves_external
    | apply preserves_read
    | apply preserves_bind; [| intros ?]
    | apply preserves_try_except; [| intros ?]
    | apply preserves_if
    | apply preserves_for_each; intros ? ? ].

Lemma preserves_upload_attempts (attempts : list Z)
  (minio_path file_path file : pystr) (n : Z) :
  preserves (upload_attempts attempts minio_path file_path file n).
Proof.
  induction attempts as [| attempt rest IH]; simpl.
  - apply preserves_ret.
  - apply preserves_bind.
    + unfold time_sleep. repeat preserves_step.
    + intros []; [apply preserves_ret | apply IH].
Qed.

Lemma preserves_upload_to_minio (machine_name base_output_dir_str : pystr) :
  preserves (upload_to_minio machine_name base_output_dir_str).
Proof.
  unfold upload_to_minio, upload_batch, get_minio_client, os_path_isdir_machine,
    ensure_bucket, os_walk_machine, final_report, upload_all.
  repeat preserves_step.
  destruct x as [[root dirs] files]. simpl.
  apply preserves_for_each. intros file c.
  unfold upload_file, range3. repeat preserves_step.
Qed.

Lemma preserves_check_firmware_update_status (machine_name base : pystr) :
  preserves (check_firmware_update_status machine_name base).
Proof.
  unfold check_firmware_update_status, os_path_isfile_in_machine.
  repeat preserves_step.
Qed.

(** ** The uploader and the counter update never raise *)

Lemma upload_to_minio_returns :
  forall (machine_name base_output_dir_str : pystr) (st : State),
    exists (b : bool) (st' : State),
      upload_to_minio machine_name base_output_dir_str st = (Ok b, st').
Proof.
  intros machine_name base st.
  unfold upload_to_minio.
  apply try_except_returns.
  intros e st0. exists false. eexists. reflexivity.
Qed.

(** ** The uploader without a local directory *)

(** C7: when [output_root/machine_name] is not a directory, [upload_to_minio]
    returns [False] at once. All it did is start, construct the client and
    report the missing directory (or report that the client could not be
    constructed): no bucket is looked up or made, no object is put, no
    counter is reported, and the file system is as before. *)
Theorem upload_without_output_directory :
  forall (machine_name base_output_dir_str : pystr) (st : State),
    machine_dir st machine_name = None ->
    exists (st' : State) (new : history),
      upload_to_minio machine_name base_output_dir_str st = (Ok false, st')
      /\ new_events st st' new
      /\ output_root st' = output_root st
      /\ signal_file st' = signal_file st
      /\ (new = [Logged Error
                   (MsgOutputDirNotFound
                      (os_path_join base_output_dir_str machine_name));
                 Logged Info MsgConnected;
                 Called Minio false;
                 Logged Info (MsgStartingUpload machine_name)]
          \/ new = [Logged Error (MsgUploadException machine_name);
                    Logged Error MsgClientInitFailed;
                    Called Minio true;
                    Logged Info (MsgStartingUpload machine_name)])
      /\ forallb (fun e => negb (is_store_call e) && negb (is_counter_record e)) new
         = true.
Proof.
  intros machine_name base st Hdir.
  unfold upload_to_minio, get_minio_client, os_path_isdir_machine, new_events.
  step_monad.
  destruct (minio (world st) _) as [[] | e] eqn:E; simpl.
  - unfold machine_dir in Hdir. simpl. unfold machine_dir. simpl.
    rewrite Hdir. simpl.
    do 2 eexists. split; [reflexivity |]. simpl.
    split; [instantiate (1 := [_; _; _; _]); reflexivity |].
    repeat split. left. reflexivity.
  - do 2 eexists. split; [reflexivity |]. simpl.
    split; [instantiate (1 := [_; _; _; _]); reflexivity |].
    repeat split. right. reflexivity.
Qed.

(** The same on a machine name the empty output root does not have. *)
Lemma upload_without_output_directory_witness :
  exists (st' : State) (new : history),
    upload_to_minio (py "m1") (py "output") (initial_state quiet_world (Some []))
    = (Ok false, st')
    /\ new_events (initial_state quiet_world (Some [])) st' new
    /\ output_root st' = Some []
    /\ signal_file st' = false
    /\ (new = [Logged Error
                  (MsgOutputDirNotFound (os_path_join (py "output") (py "m1")));
                Logged Info MsgConnected;
                Called Minio false;
                Logged Info (MsgStartingUpload (py "m1"))]
        \/ new = [Logged Error (MsgUploadException (py "m1"));
                  Logged Error MsgClientInitFailed;
                  Called Minio true;
                  Logged Info (MsgStartingUpload (py "m1"))])
    /\ forallb (fun e => negb (is_store_call e) && negb (is_counter_record e)) new
       = true.
Proof.
  apply (upload_without_output_directory (py "m1") (py "output")
           (initial_state quiet_world (Some []))).
  reflexivity.
Defined.

(** ** Bounded retry *)

(** The retry loop of one file, run from its start: either an attempt
    succeeds after [k <= 2] failed ones, each followed by a retry record and
    a one-second sleep, or three attempts fail, the first two followed by a
    retry record and a one-second sleep, and the third exception leaves the
    loop. *)
Lemma upload_attempts_range3 :
  forall (minio_path file_path file : pystr) (n : Z) (st : State),
    let put raised := Called (FputObject MINIO_BUCKET_NAME minio_path file_path) raised in
    let retry k := [Called (Sleep 1) false; Logged Warning (MsgRetry k file); put true] in
    exists (r : result Z) (st' : State) (new : history),
      upload_attempts range3 minio_path file_path file n st = (r, st')
      /\ new_events st st' new
      /\ output_root st' = output_root st
      /\ signal_file st' = signal_file st
      /\ world st' = world st
      /\ ((r = Ok (n + 1)%Z
           /\ (new = [put false]
               \/ new = put false :: retry 1%Z
               \/ new = put false :: retry 2%Z ++ retry 1%Z))
          \/ (exists e, r = Raised e
              /\ new = put true :: retry 2%Z ++ retry 1%Z)).
Proof.
  intros minio_path file_path file n st put retry.
  unfold range3, upload_attempts, new_events. step_monad.
  destruct (fput_object (world st) (trace st) _ _ _) as [[] | e0]; simpl.
  { do 3 eexists. split; [reflexivity |]. simpl.
    split; [instantiate (1 := [_]); reflexivity |].
    repeat split. left. split; [reflexivity |]. left. reflexivity. }
  destruct (fput_object (world st) _ _ _ _) as [[] | e1]; simpl.
  { do 3 eexists. split; [reflexivity |]. simpl.
    split; [instantiate (1 := [_; _; _; _]); reflexivity |].
    repeat split. left. split; [reflexivity |]. right. left. reflexivity. }
  destruct (fput_object (world st) _ _ _ _) as [[] | e2]; simpl.
  { do 3 eexists. split; [reflexivity |]. simpl.
    split; [instantiate (1 := [_; _; _; _; _; _; _]); reflexivity |].
    repeat split. left. split; [reflexivity |]. right. right. reflexivity. }
  do 3 eexists. split; [reflexivity |]. simpl.
  split; [instantiate (1 := [_; _; _; _; _; _; _]); reflexivity |].
  repeat split. right. eexists. split; reflexivity.
Qed.

Lemma insert_sorted_length (x : pystr) (l : list pystr) :
  List.length (insert_sorted x l) = S (List.length l).
Proof.
  induction l as [| y l IH]; simpl; [reflexivity |].
  destruct (str_leb x y); simpl; [reflexivity | now rewrite IH].
Qed.

Lemma sorted_length (l : list pystr) : List.length (sorted l) = List.length l.
Proof.
  induction l as [| x l IH]; simpl; [reflexivity |].
  now rewrite insert_sorted_length, IH.
Qed.

Lemma upload_file_attempts :
  forall (machine_prefix output_path : pystr) (total_files : Z)
         (root file : pystr) (c : counters) (st : State),
    exists (c' : counters) (st' : State) (new : history),
      upload_file machine_prefix output_path total_files root file c st
      = (Ok c', st')
      /\ new_events st st' new
      /\ output_root st' = output_root st
      /\ signal_file st' = signal_file st
      /\ world st' = world st
      /\ (1 <= count is_fput new <= 3)%nat
      /\ count is_sleep new = Nat.min (count is_failed_fput new) 2
      /\ count is_one_second_sleep new = count is_sleep new
      /\ count is_retry_record new = count is_sleep new
      /\ fput_paths (rev new)
         = repeat (os_path_join root file) (count is_fput new)
      /\ upload_count c' = (upload_count c + Z.of_nat (count is_ok_fput new))%Z
      /\ ((count is_failed_fput new < count is_fput new)%nat
          /\ file_uploaded c c'
          \/ (count is_failed_fput new = 3)%nat
             /\ file_failed c c'
             /\ hd_error new = Some (Logged Error (MsgFailedToUpload file))).
Proof.
  intros machine_prefix output_path total_files root file c st.
  unfold upload_file.
  set (mp := machine_prefix ++ [ch_slash] ++ _).
  set (fp := os_path_join root file).
  set (progress := (_ || _ || _)%bool).
  unfold try_except at 1. unfold bind at 1.
  destruct progress.
  - unfold logging, record_event at 1.
    destruct (upload_attempts_range3 mp fp file (upload_count c)
                (with_trace st
                   (Logged Info (MsgProgress (file_count c + 1) total_files file)
                      :: trace st)))
      as (r & st1 & new1 & Hrun & Hnew & Hroot & Hsig & Hw & Hcases).
    unfold new_events in *. cbn [trace with_trace output_root signal_file world] in *.
    unfold bind at 1. rewrite Hrun.
    destruct Hcases as [[-> Hshape] | [e [-> Hshape]]].
    + unfold ret. do 3 eexists. split; [reflexivity |].
      split; [rewrite Hnew; apply app_middle |].
      do 3 (split; [assumption |]).
      unfold count, file_uploaded, file_failed, fput_paths.
      destruct Hshape as [-> | [-> | ->]]; simpl;
        (repeat split; try lia); left; repeat split; lia.
    + step_monad. do 3 eexists. split; [reflexivity |]. simpl.
      split; [rewrite Hnew; rewrite app_comm_cons; apply app_middle |].
      do 3 (split; [assumption |]).
      unfold count, file_uploaded, file_failed, fput_paths.
      rewrite Hshape; simpl;
        (repeat split; try lia); right; repeat split; lia.
  - unfold ret at 1.
    destruct (upload_attempts_range3 mp fp file (upload_count c) st)
      as (r & st1 & new1 & Hrun & Hnew & Hroot & Hsig & Hw & Hcases).
    unfold new_events in *.
    unfold bind at 1. rewrite Hrun.
    destruct Hcases as [[-> Hshape] | [e [-> Hshape]]].
    + unfold ret. do 3 eexists. split; [reflexivity |].
      split; [eassumption |].
      do 3 (split; [assumption |]).
      unfold count, file_uploaded, file_failed, fput_paths.
      destruct Hshape as [-> | [-> | ->]]; simpl;
        (repeat split; try lia); left; repeat split; lia.
    + step_monad. do 3 eexists. split; [reflexivity |]. simpl.
      split; [rewrite Hnew; rewrite app_comm_cons; reflexivity |].
      do 3 (split; [assumption |]).
      unfold count, file_uploaded, file_failed, fput_paths.
      rewrite Hshape; simpl;
        (repeat split; try lia); right; repeat split; lia.
Qed.

(** ** The batch as a whole *)

Lemma count_app (p : event -> bool) (a b : history) :
  count p (a ++ b) = (count p a + count p b)%nat.
Proof. unfold count. now rewrite filter_app, length_app. Qed.

Lemma fput_paths_app (a b : history) :
  fput_paths (a ++ b) = fput_paths a ++ fput_paths b.
Proof. unfold fput_paths. apply flat_map_app. Qed.

Lemma repeat_each_app (ps1 ps2 : list pystr) (ns1 ns2 : list nat) :
  List.length ps1 = List.length ns1 ->
  repeat_each (ps1 ++ ps2) (ns1 ++ ns2)
  = repeat_each ps1 ns1 ++ repeat_each ps2 ns2.
Proof.
  unfold repeat_each. revert ns1.
  induction ps1 as [| p ps1 IH]; intros [| n ns1] Hlen; simpl in *;
    try discriminate; [reflexivity |].
  rewrite IH by lia. now rewrite app_assoc.
Qed.

Lemma uploads_nil (c : counters) (st : State) : uploads [] c c st st.
Proof.
  exists [], []. unfold new_events, count, repeat_each. simpl.
  repeat split; try lia. constructor.
Qed.

Lemma uploads_app (p1 p2 : list pystr) (c c1 c2 : counters) (st st1 st2 : State) :
  uploads p1 c c1 st st1 -> uploads p2 c1 c2 st1 st2 ->
  uploads (p1 ++ p2) c c2 st st2.
Proof.
  intros (n1 & k1 & T1 & R1 & S1 & W1 & L1 & F1 & P1 & U1 & A1 & C1 & E1 & Z1 & B1)
         (n2 & k2 & T2 & R2 & S2 & W2 & L2 & F2 & P2 & U2 & A2 & C2 & E2 & Z2 & B2).
  exists (n2 ++ n1), (k1 ++ k2). unfold new_events in *.
  rewrite !count_app, !length_app, rev_app_distr, fput_paths_app.
  repeat split; try congruence; try lia.
  - rewrite T2, T1. now rewrite app_assoc.
  - apply Forall_app. now split.
  - rewrite P1, P2. symmetry. now apply repeat_each_app.
Qed.

Lemma upload_file_uploads :
  forall (machine_prefix output_path : pystr) (total_files : Z)
         (root file : pystr) (c : counters) (st : State),
    exists (c' : counters) (st' : State),
      upload_file machine_prefix output_path total_files root file c st
      = (Ok c', st')
      /\ uploads [os_path_join root file] c c' st st'.
Proof.
  intros machine_prefix output_path total_files root file c st.
  destruct (upload_file_attempts machine_prefix output_path total_files
              root file c st)
    as (c' & st' & new & Hrun & Hnew & Hroot & Hsig & Hw & Hn & Hsl & H1s & Hretry
        & Hpaths & Hup & Hcases).
  exists c', st'. split; [assumption |].
  exists new, [count is_fput new].
  unfold repeat_each. simpl. rewrite app_nil_r.
  repeat split; try assumption; try lia.
  - constructor; [lia | constructor].
  - destruct Hcases as [[_ (? & ? & ?)] | [_ [(? & ? & ?) _]]]; lia.
  - destruct Hcases as [[_ (? & ? & ?)] | [_ [(? & ? & ?) _]]]; lia.
  - destruct Hcases as [[_ (? & ? & ?)] | [_ [(? & ? & ?) _]]]; lia.
Qed.

Lemma upload_directory_uploads :
  forall (machine_prefix output_path : pystr) (total_files : Z) (root : pystr)
         (files : list pystr) (c : counters) (st : State),
    exists (c' : counters) (st' : State),
      for_each files (upload_file machine_prefix output_path total_files root) c st
      = (Ok c', st')
      /\ uploads (map (os_path_join root) files) c c' st st'.
Proof.
  intros machine_prefix output_path total_files root files.
  induction files as [| file files IH]; intros c st; simpl.
  - exists c, st. split; [reflexivity | apply uploads_nil].
  - destruct (upload_file_uploads machine_prefix output_path total_files
                root file c st) as (c1 & st1 & Hrun1 & Hup1).
    destruct (IH c1 st1) as (c2 & st2 & Hrun2 & Hup2).
    exists c2, st2. unfold bind. rewrite Hrun1. split; [assumption |].
    change (os_path_join root file :: map (os_path_join root) files)
      with ([os_path_join root file] ++ map (os_path_join root) files).
    eapply uploads_app; eassumption.
Qed.

(** The whole batch never raises and takes the files in [attempt_order]. *)
Lemma upload_all_uploads :
  forall (machine_prefix output_path : pystr) (total_files : Z)
         (w : list (pystr * list pystr * list pystr)) (c : counters) (st : State),
    exists (c' : counters) (st' : State),
      upload_all machine_prefix output_path total_files w c st = (Ok c', st')
      /\ uploads (attempt_order w) c c' st st'.
Proof.
  intros machine_prefix output_path total_files w. unfold upload_all.
  induction w as [| [[root dirs] files] w IH]; intros c st; simpl.
  - exists c, st. split; [reflexivity | apply uploads_nil].
  - destruct (upload_directory_uploads machine_prefix output_path total_files
                root (sorted files) c st) as (c1 & st1 & Hrun1 & Hup1).
    destruct (IH c1 st1) as (c2 & st2 & Hrun2 & Hup2).
    exists c2, st2. unfold bind at 1. rewrite Hrun1. split; [assumption |].
    eapply uploads_app; eassumption.
Qed.

Lemma attempt_order_length (w : list (pystr * list pystr * list pystr)) :
  Z.of_nat (List.length (attempt_order w)) = count_files w.
Proof.
  induction w as [| [[root dirs] files] w IH]; simpl; [reflexivity |].
  rewrite length_app, length_map, sorted_length. lia.
Qed.

(** C9: for every pair of counts and every behaviour of the counter store,
    [update_machine_status_counts] returns normally. It touches neither the
    output root nor the signal file; its last action is the success record,
    or, when a call to the store raised, the error record that follows the
    failed call. *)
Theorem update_machine_status_counts_best_effort :
  forall (success_count failure_count : Z) (st : State),
    exists (st' : State) (new : history),
      update_machine_status_counts success_count failure_count st = (Ok tt, st')
      /\ trace st' = new ++ trace st
      /\ output_root st' = output_root st
      /\ signal_file st' = signal_file st
      /\ world st' = world st
      /\ ((exists rest,
             new = Logged Info (MsgMongoUpdated success_count failure_count) :: rest
             /\ forall c, ~ In (Called c true) rest)
          \/ (exists c rest,
                new = Logged Error MsgMongoFailed :: Called c true :: rest)).
Proof.
  intros s f st.
  unfold update_machine_status_counts. step_monad.
  destruct (int_mongo_port (world st) (trace st)) as [[] | e1] eqn:E1; simpl.
  2:{ do 2 eexists. split; [reflexivity |]. simpl.
      split; [instantiate (1 := [_; _]); reflexivity |].
      repeat split. right. do 2 eexists. reflexivity. }
  destruct (mongo_client (world st) _) as [[] | e2] eqn:E2; simpl.
  2:{ do 2 eexists. split; [reflexivity |]. simpl.
      split; [instantiate (1 := [_; _; _]); reflexivity |].
      repeat split. right. do 2 eexists. reflexivity. }
  destruct (mongo_database (world st) _) as [[] | e3] eqn:E3; simpl.
  2:{ do 2 eexists. split; [reflexivity |]. simpl.
      split; [instantiate (1 := [_; _; _; _]); reflexivity |].
      repeat split. right. do 2 eexists. reflexivity. }
  destruct (find_one (world st) _) as [found | e4] eqn:E4; simpl.
  2:{ do 2 eexists. split; [reflexivity |]. simpl.
      split; [instantiate (1 := [_; _; _; _; _]); reflexivity |].
      repeat split. right. do 2 eexists. reflexivity. }
  destruct found; simpl.
  - destruct (update_one (world st) _ s f) as [[] | e5] eqn:E5; simpl.
    + do 2 eexists. split; [reflexivity |]. simpl.
      split; [instantiate (1 := [_; _; _; _; _; _]); reflexivity |].
      repeat split. left. eexists. split; [reflexivity |].
      intros c Hc. simpl in Hc. intuition discriminate.
    + do 2 eexists. split; [reflexivity |]. simpl.
      split; [instantiate (1 := [_; _; _; _; _; _]); reflexivity |].
      repeat split. right. do 2 eexists. reflexivity.
  - destruct (insert_one (world st) _ s f) as [[] | e5] eqn:E5; simpl.
    + do 2 eexists. split; [reflexivity |]. simpl.
      split; [instantiate (1 := [_; _; _; _; _; _]); reflexivity |].
      repeat split. left. eexists. split; [reflexivity |].
      intros c Hc. simpl in Hc. intuition discriminate.
    + do 2 eexists. split; [reflexivity |]. simpl.
      split; [instantiate (1 := [_; _; _; _; _; _]); reflexivity |].
      repeat split. right. do 2 eexists. reflexivity.
Qed.

(** The events of one file, in full: the progress record when there is
    one, the attempts as [retried] has them, and the failure record after a
    third failed attempt. *)
Lemma upload_file_trace :
  forall (machine_prefix output_path : pystr) (total_files : Z)
         (root file : pystr) (c : counters) (st : State),
    let file_path := os_path_join root file in
    let minio_path :=
      machine_prefix ++ [ch_slash]
      ++ replace_char ch_backslash ch_slash (os_path_relpath file_path output_path) in
    let put raised :=
      Called (FputObject MINIO_BUCKET_NAME minio_path file_path) raised in
    exists (c' : counters) (st' : State) (new progress : history),
      upload_file machine_prefix output_path total_files root file c st
      = (Ok c', st')
      /\ new_events st st' new
      /\ (progress = []
          \/ progress
             = [Logged Info (MsgProgress (file_count c + 1) total_files file)])
      /\ ((exists failed : nat,
             (failed <= 2)%nat
             /\ new = put false :: retried minio_path file_path file failed
                      ++ progress)
          \/ new = Logged Error (MsgFailedToUpload file) :: put true
                   :: retried minio_path file_path file 2 ++ progress).
Proof.
  intros machine_prefix output_path total_files root file c st fp mp put.
  unfold upload_file. fold fp. fold mp.
  set (progress := (_ || _ || _)%bool).
  unfold try_except at 1. unfold bind at 1.
  destruct progress.
  - unfold logging, record_event at 1.
    destruct (upload_attempts_range3 mp fp file (upload_count c)
                (with_trace st
                   (Logged Info (MsgProgress (file_count c + 1) total_files file)
                      :: trace st)))
      as (r & st1 & new1 & Hrun & Hnew & _ & _ & _ & Hcases).
    unfold new_events in *. cbn [trace with_trace] in *.
    unfold bind at 1. rewrite Hrun.
    destruct Hcases as [[-> Hshape] | [e [-> Hshape]]].
    + unfold ret. do 2 eexists.
      exists (new1 ++ [Logged Info (MsgProgress (file_count c + 1) total_files file)]),
        [Logged Info (MsgProgress (file_count c + 1) total_files file)].
      split; [reflexivity |].
      split; [rewrite Hnew; apply app_middle |].
      split; [right; reflexivity |]. left.
      destruct Hshape as [-> | [-> | ->]];
        [exists 0%nat | exists 1%nat | exists 2%nat]; (split; [lia | reflexivity]).
    + step_monad. do 2 eexists.
      exists (Logged Error (MsgFailedToUpload file) :: new1
              ++ [Logged Info (MsgProgress (file_count c + 1) total_files file)]),
        [Logged Info (MsgProgress (file_count c + 1) total_files file)].
      split; [reflexivity |]. simpl.
      split; [rewrite Hnew; f_equal; apply app_middle |].
      split; [right; reflexivity |]. right. rewrite Hshape. reflexivity.
  - unfold ret at 1.
    destruct (upload_attempts_range3 mp fp file (upload_count c) st)
      as (r & st1 & new1 & Hrun & Hnew & _ & _ & _ & Hcases).
    unfold new_events in *.
    unfold bind at 1. rewrite Hrun.
    destruct Hcases as [[-> Hshape] | [e [-> Hshape]]].
    + unfold ret. do 2 eexists. exists new1, [].
      split; [reflexivity |]. split; [exact Hnew |].
      split; [left; reflexivity |]. left.
      destruct Hshape as [-> | [-> | ->]];
        [exists 0%nat | exists 1%nat | exists 2%nat];
        (split; [lia | rewrite app_nil_r; reflexivity]).
    + step_monad. do 2 eexists.
      exists (Logged Error (MsgFailedToUpload file) :: new1), [].
      split; [reflexivity |]. simpl.
      split; [rewrite Hnew; reflexivity |].
      split; [left; reflexivity |]. right. rewrite Hshape. reflexivity.
Qed.

(** C6: every file of a batch is given to [fput_object] at least once and at
    most three times. The events of one file are, in this order: the
    progress record when one is due; the attempts, where each failed attempt
    but the third is followed by its retry record and by one sleep of one
    second before the next attempt is made, and where the first attempt that
    succeeds is the last; and, after a third failed attempt, the failure
    record. A file whose three attempts fail adds one to [error_count] and
    the loop goes on: [upload_file] and the whole batch always return, and
    the batch takes every path of [attempt_order], one after the other. *)
Theorem bounded_retry_per_file :
  forall (machine_prefix output_path : pystr) (total_files : Z),
    (forall (root file : pystr) (c : counters) (st : State),
        let file_path := os_path_join root file in
        let minio_path :=
          machine_prefix ++ [ch_slash]
          ++ replace_char ch_backslash ch_slash
               (os_path_relpath file_path output_path) in
        let put raised :=
          Called (FputObject MINIO_BUCKET_NAME minio_path file_path) raised in
        exists (c' : counters) (st' : State) (new progress : history),
          upload_file machine_prefix output_path total_files root file c st
          = (Ok c', st')
          /\ new_events st st' new
          /\ (1 <= count is_fput new <= 3)%nat
          /\ count is_sleep new = Nat.min (count is_failed_fput new) 2
          /\ count is_one_second_sleep new = count is_sleep new
          /\ count is_retry_record new = count is_sleep new
          /\ (progress = []
              \/ progress
                 = [Logged Info (MsgProgress (file_count c + 1) total_files file)])
          /\ ((exists failed : nat,
                 (failed <= 2)%nat
                 /\ new = put false :: retried minio_path file_path file failed
                          ++ progress
                 /\ count is_failed_fput new = failed
                 /\ file_uploaded c c')
              \/ (new = Logged Error (MsgFailedToUpload file) :: put true
                        :: retried minio_path file_path file 2 ++ progress
                  /\ count is_failed_fput new = 3%nat
                  /\ file_failed c c')))
    /\ (forall (w : list (pystr * list pystr * list pystr))
               (c : counters) (st : State),
           exists (c' : counters) (st' : State),
             upload_all machine_prefix output_path total_files w c st = (Ok c', st')
             /\ uploads (attempt_order w) c c' st st').
Proof.
  intros machine_prefix output_path total_files. split.
  - intros root file c st file_path minio_path put.
    destruct (upload_file_attempts machine_prefix output_path total_files
                root file c st)
      as (c' & st' & new & Hrun & Hnew & _ & _ & _ & Hn & Hsl & H1s & Hretry
          & _ & _ & Hcases).
    destruct (upload_file_trace machine_prefix output_path total_files
                root file c st)
      as (c2 & st2 & new2 & progress & Hrun2 & Hnew2 & Hprogress & Hshape).
    rewrite Hrun in Hrun2. inversion Hrun2; subst c2 st2. clear Hrun2.
    unfold new_events in Hnew, Hnew2. rewrite Hnew in Hnew2.
    apply app_inv_tail in Hnew2. subst new2.
    fold file_path in Hshape. fold minio_path in Hshape. fold put in Hshape.
    exists c', st', new, progress.
    do 6 (split; [assumption |]). split; [exact Hprogress |].
    assert (Hfailed : forall k,
               count is_failed_fput
                 (retried minio_path file_path file k ++ progress) = k).
    { intros k. rewrite count_app.
      replace (count is_failed_fput progress) with 0%nat
        by (destruct Hprogress as [-> | ->]; reflexivity).
      rewrite Nat.add_0_r. induction k as [| k IH]; [reflexivity |].
      cbn [retried]. unfold count in *. cbn [filter is_failed_fput List.length].
      now rewrite IH. }
    destruct Hshape as [(failed & Hle & Hshape) | Hshape].
    + left. exists failed. split; [exact Hle |]. split; [exact Hshape |].
      assert (Hcount : count is_failed_fput new = failed).
      { rewrite Hshape. unfold count. cbn [filter is_failed_fput put].
        apply Hfailed. }
      split; [exact Hcount |].
      destruct Hcases as [[_ Hup] | [H3 _]]; [exact Hup | lia].
    + right. split; [exact Hshape |].
      assert (Hcount : count is_failed_fput new = 3%nat).
      { rewrite Hshape. unfold count.
        cbn [filter is_failed_fput put List.length]. f_equal. apply (Hfailed 2%nat). }
      split; [exact Hcount |].
      destruct Hcases as [[Hlt _] | [_ [Hf _]]]; [| exact Hf].
      rewrite Hcount in Hlt. lia.
  - apply upload_all_uploads.
Qed.

(** ** The downstream trigger *)

Lemma write_master_signal_spec :
  forall (should_run_master : bool) (st : State),
    exists (done : bool) (st' : State),
      write_master_signal should_run_master st = (Ok done, st')
      /\ output_root st' = output_root st
      /\ world st' = world st
      /\ (signal_file_writable st ->
          done = true /\ signal_file st' = should_run_master)
      /\ (done = false -> signal_file st' = signal_file st).
Proof.
  intros should_run st. unfold write_master_signal, signal_file_writable.
  unfold signal_file_exists, set_signal_file. step_monad.
  destruct should_run; simpl.
  - destruct (touch (world st) (trace st) MASTER_SIGNAL_FILE) as [[] | e] eqn:E;
      simpl; do 2 eexists; (split; [reflexivity |]); simpl;
      repeat split; try tauto; try discriminate;
      try (match goal with H : _ /\ _ |- _ => destruct H; congruence end).
  - destruct (signal_file st) eqn:S; simpl.
    + destruct (unlink (world st) (trace st) MASTER_SIGNAL_FILE) as [[] | e] eqn:E;
        simpl; do 2 eexists; (split; [reflexivity |]); simpl;
        repeat split; try tauto; try discriminate;
        try (match goal with H : _ /\ _ |- _ => destruct H; congruence end).
    + do 2 eexists. split; [reflexivity |]. simpl.
      repeat split; try tauto; congruence.
Qed.

(** The decision at the end of [main]: with the output root listed, the
    signal file ends up as [trigger_required] says. *)
Lemma decide_master_signal_spec :
  forall (failure_count : Z) (st : State) (children : list entry),
    output_root st = Some children ->
    exists st' : State,
      decide_master_signal failure_count st = (Ok tt, st')
      /\ output_root st' = output_root st
      /\ (signal_file_writable st ->
          signal_file st' = trigger_required children failure_count).
Proof.
  intros fc st children Hroot.
  unfold decide_master_signal, list_output_dirs, trigger_required.
  unfold bind at 1. rewrite Hroot.
  destruct (List.length (filter is_dir_entry children) =? 0)%nat.
  - destruct (write_master_signal_spec false st)
      as (done & st' & Hrun & Hr & _ & Hok & _).
    exists st'. unfold bind, ret. rewrite Hrun.
    repeat split; [congruence |]. intros Hw. now apply Hok.
  - destruct (0 <? fc)%Z.
    + destruct (write_master_signal_spec true st)
        as (done & st' & Hrun & Hr & _ & Hok & _).
      exists st'. unfold bind, ret. rewrite Hrun.
      repeat split; [congruence |]. intros Hw. now apply Hok.
    + destruct (write_master_signal_spec false st)
        as (done & st' & Hrun & Hr & _ & Hok & _).
      exists st'. unfold bind, ret. rewrite Hrun.
      repeat split; [congruence |]. intros Hw. now apply Hok.
Qed.

Lemma preserves_update_machine_status_counts (success_count failure_count : Z) :
  preserves (update_machine_status_counts success_count failure_count).
Proof.
  unfold update_machine_status_counts. repeat preserves_step.
Qed.

Lemma update_machine_status_counts_returns :
  forall (success_count failure_count : Z) (st : State),
    exists st' : State,
      update_machine_status_counts success_count failure_count st = (Ok tt, st').
Proof.
  intros s f st.
  destruct (try_except_returns
              (external IntMongoPort int_mongo_port ;;
               external MongoClient mongo_client ;;
               external MongoDatabase mongo_database ;;
               status_doc_found <- external FindOne find_one ;;
               (if negb status_doc_found
                then external (InsertOne s f) (fun w h => insert_one w h s f)
                else external (UpdateOneInc s f) (fun w h => update_one w h s f)) ;;
               logging Info (MsgMongoUpdated s f))
              (fun _ => logging Error MsgMongoFailed)) with (st := st)
    as ([] & st' & Hrun).
  - intros e st0. exists tt. eexists. reflexivity.
  - exists st'. exact Hrun.
Qed.

Lemma record_statistics_spec :
  forall (r : run_state) (st : State),
    exists st' : State,
      record_statistics r st = (Ok tt, st')
      /\ output_root st' = output_root st
      /\ signal_file st' = signal_file st
      /\ world st' = world st.
Proof.
  intros r st. unfold record_statistics.
  destruct ((0 <? success_count r)%Z || (0 <? failure_count r)%Z).
  - destruct (update_machine_status_counts_returns (success_count r)
                (failure_count r) st) as (st' & Hrun).
    destruct (preserves_update_machine_status_counts (success_count r)
                (failure_count r) st (Ok tt) st' Hrun) as (Hr & Hs & Hw & _).
    exists st'. repeat split; assumption.
  - exists st. repeat split.
Qed.

(** ** The machine pipeline *)

Lemma str_eqb_refl (s : pystr) : str_eqb s s = true.
Proof.
  induction s as [| c s IH]; simpl; [reflexivity |].
  now rewrite N.eqb_refl, IH.
Qed.

Lemma lookup_remove_entry (name : pystr) (children : list entry) :
  lookup_entry name (remove_entry name children) = None.
Proof.
  induction children as [| e rest IH]; simpl; [reflexivity |].
  destruct (str_eqb (entry_name e) name) eqn:E; simpl; [exact IH |].
  now rewrite E.
Qed.

Lemma lookup_write_dir (name : pystr) (content children : list entry) :
  lookup_entry name (write_dir name content children) = Some (Dir name content).
Proof.
  induction children as [| e rest IH]; simpl.
  - now rewrite str_eqb_refl.
  - destruct (str_eqb (entry_name e) name) eqn:E; simpl.
    + now rewrite str_eqb_refl.
    + now rewrite E.
Qed.


(** A prepared and extracted machine goes on to classification. *)
Lemma process_machine_classifies :
  forall (base_source_dir base_output_dir machine_name : pystr) (r : run_state)
         (st : State) (written : option (list entry)),
    prepared_and_extracted st base_source_dir machine_name written ->
    process_machine base_source_dir base_output_dir machine_name r st
    = (is_update_success <-
         check_firmware_update_status machine_name base_output_dir ;;
       after_classification machine_name base_output_dir is_update_success r)
        (extracted st base_source_dir machine_name written).
Proof.
  intros src out m r st written [Hprep Hext].
  unfold process_machine. unfold bind at 1. unfold external at 1.
  rewrite Hprep. simpl.
  unfold bind at 1. unfold run_log_extraction. simpl.
  rewrite Hext. reflexivity.
Qed.

(** The classification: it returns, changes nothing but the trace, and
    answers [True] only with both logs in place. *)
Lemma check_firmware_update_status_spec :
  forall (machine_name base_output_dir : pystr) (st : State),
    exists (is_update_success : bool) (st' : State),
      check_firmware_update_status machine_name base_output_dir st
      = (Ok is_update_success, st')
      /\ output_root st' = output_root st
      /\ signal_file st' = signal_file st
      /\ world st' = world st
      /\ (is_update_success = true ->
          has_file st machine_name installSetLogs_log = true
          /\ has_file st machine_name ciDebug_log = true)
      /\ (has_file st machine_name installSetLogs_log = false
          \/ has_file st machine_name ciDebug_log = false ->
          is_update_success = false
          /\ exists log_name,
               st' = with_trace st
                       (Logged Warning (MsgLogMissing log_name machine_name)
                          :: trace st)).
Proof.
  intros m out st.
  destruct (check_firmware_update_status m out st) as [r st'] eqn:Hrun.
  destruct (preserves_check_firmware_update_status m out st r st' Hrun)
    as (HR & HS & HW & _).
  revert Hrun. unfold check_firmware_update_status, os_path_isfile_in_machine.
  step_monad.
  destruct (has_file st m installSetLogs_log) eqn:H1; simpl.
  2:{ intros Hrun. inversion Hrun; subst. do 2 eexists.
      split; [reflexivity |]. repeat split; try assumption; try discriminate.
      eexists. reflexivity. }
  destruct (has_file st m ciDebug_log) eqn:H2; simpl.
  2:{ intros Hrun. inversion Hrun; subst. do 2 eexists.
      split; [reflexivity |]. repeat split; try assumption; try discriminate.
      eexists. reflexivity. }
  destruct (determine_update_type_and_check (world st) (trace st) _ _)
    as [verdict | e]; simpl.
  - destruct (str_contains check_mark verdict); simpl;
      intros Hrun; inversion Hrun; subst; do 2 eexists;
      (split; [reflexivity |]); repeat split; try assumption;
      try discriminate;
      try (match goal with H : _ \/ _ |- _ => destruct H; discriminate end).
  - intros Hrun; inversion Hrun; subst; do 2 eexists;
      (split; [reflexivity |]); repeat split; try assumption;
      try discriminate;
      try (match goal with H : _ \/ _ |- _ => destruct H; discriminate end).
Qed.

(** The removal of a successful machine's directory, when the directory is
    there: it returns in both cases; the directory is gone when
    [shutil.rmtree] succeeds and stays with what was not deleted when it
    raises. *)
Lemma remove_machine_output_spec :
  forall (machine_name base_output_dir : pystr) (st : State),
    has_entry st machine_name = true ->
    exists st' : State,
      remove_machine_output machine_name base_output_dir st = (Ok tt, st')
      /\ world st' = world st
      /\ signal_file st' = signal_file st
      /\ match rmtree (world st) (trace st)
                 (os_path_join base_output_dir machine_name) with
         | Removed => has_entry st' machine_name = false
         | RemoveFailed _ _ => has_entry st' machine_name = true
         end.
Proof.
  intros m out st Hentry.
  unfold remove_machine_output, os_path_exists_machine, shutil_rmtree_machine.
  step_monad. rewrite Hentry. simpl.
  destruct (rmtree (world st) (trace st) (os_path_join out m)) as [| e left_over];
    simpl; eexists; (split; [reflexivity |]); simpl; repeat split;
    unfold has_entry; simpl.
  - now rewrite lookup_remove_entry.
  - now rewrite lookup_write_dir.
Qed.

(** C10: for every machine name, output root and state of the world,
    [upload_to_minio] returns a boolean and leaves the file system as it is;
    no exception reaches the caller. When the construction of the client,
    the lookup of the bucket or its creation raises, the value is [False]. *)
Theorem upload_to_minio_total :
  forall (machine_name base_output_dir_str : pystr) (st : State),
    exists (b : bool) (st' : State),
      upload_to_minio machine_name base_output_dir_str st = (Ok b, st')
      /\ output_root st' = output_root st
      /\ (is_raised
            (minio (world st)
               (Logged Info (MsgStartingUpload machine_name) :: trace st))
          = true -> b = false)
      /\ (store_ready machine_name st \/
          machine_dir st machine_name = None \/
          b = false).
Proof.
  intros m base st.
  destruct (upload_to_minio_returns m base st) as (b & st' & Hrun).
  destruct (preserves_upload_to_minio m base st (Ok b) st' Hrun)
    as (Hroot & _ & _ & _).
  exists b, st'. split; [exact Hrun |]. split; [exact Hroot |].
  revert Hrun.
  unfold upload_to_minio, get_minio_client, os_path_isdir_machine, ensure_bucket,
    store_ready.
  unfold try_except at 1. unfold bind at 1. unfold logging at 1, record_event at 1.
  unfold bind at 1. unfold try_except at 1. unfold bind at 1.
  unfold external at 1. cbn [world trace with_trace].
  destruct (minio (world st) (Logged Info (MsgStartingUpload m) :: trace st))
    as [[] | e] eqn:Hminio; cbn [is_raised].
  2:{ unfold bind, logging, record_event, raise, ret. intros Hrun.
      inversion Hrun; subst. split; [reflexivity | right; right; reflexivity]. }
  unfold logging at 1, record_event at 1. cbn [world trace with_trace].
  unfold bind at 1. rewrite !machine_dir_with_trace.
  destruct (machine_dir st m) as [children |] eqn:Hdir; cbn [negb].
  2:{ intros _. split; [discriminate | right; left; reflexivity]. }
  unfold bind at 1. unfold logging at 1, record_event at 1.
  cbn [world trace with_trace].
  unfold bind at 1. unfold try_except at 1. unfold bind at 1.
  unfold external at 1. cbn [world trace with_trace].
  destruct (bucket_exists (world st) _ MINIO_BUCKET_NAME) as [[|] | e] eqn:Hbucket;
    cbn [is_raised negb].
  - intros _. split; [discriminate | left; split; [reflexivity | left; reflexivity]].
  - unfold bind at 1. unfold external at 1. cbn [world trace with_trace].
    destruct (make_bucket (world st) _ MINIO_BUCKET_NAME) as [[] | e] eqn:Hmake;
      cbn [is_raised].
    + intros _. split; [discriminate |].
      left; split; [reflexivity | right; split; reflexivity].
    + unfold bind, logging, record_event, ret. cbn [negb]. intros Hrun.
      inversion Hrun; subst. split; [discriminate | right; right; reflexivity].
  - unfold bind, logging, record_event, ret. cbn [negb]. intros Hrun.
    inversion Hrun; subst. split; [discriminate | right; right; reflexivity].
Qed.

(** C1, as the code has it: for a machine that passed preparation and
    extraction and lacks [installSetLogs.log] or [ciDebug.log], the
    classification answers [False] after a warning, the failure counter goes
    up by one and the success counter stays, and [upload_to_minio] is run
    for that machine, as for every other failed update: the machine's step
    ends in the state the upload leaves. *)
Theorem missing_logs_count_as_failure_then_upload :
  forall (base_source_dir base_output_dir machine_name : pystr) (r : run_state)
         (st : State) (written : option (list entry)),
    prepared_and_extracted st base_source_dir machine_name written ->
    (has_file (extracted st base_source_dir machine_name written)
       machine_name installSetLogs_log = false
     \/ has_file (extracted st base_source_dir machine_name written)
          machine_name ciDebug_log = false) ->
    exists (log_name : pystr) (upload_success : bool) (r' : run_state)
           (st_c st' : State),
      st_c = with_trace (extracted st base_source_dir machine_name written)
               (Logged Warning (MsgLogMissing log_name machine_name)
                  :: trace (extracted st base_source_dir machine_name written))
      /\ check_firmware_update_status machine_name base_output_dir
           (extracted st base_source_dir machine_name written)
         = (Ok false, st_c)
      /\ upload_to_minio machine_name base_output_dir st_c
         = (Ok upload_success, st')
      /\ process_machine base_source_dir base_output_dir machine_name r st
         = (Ok r', st')
      /\ failure_count r' = (failure_count r + 1)%Z
      /\ success_count r' = success_count r.
Proof.
  intros src out m r st written Hpe Hmissing.
  rewrite (process_machine_classifies src out m r st written Hpe).
  destruct (check_firmware_update_status_spec m out (extracted st src m written))
    as (b & st_c & Hcheck & _ & _ & _ & _ & Hfalse).
  destruct (Hfalse Hmissing) as [-> [log_name ->]].
  set (st_c := with_trace _ _) in *.
  destruct (upload_to_minio_returns m out st_c) as (up & st' & Hup).
  exists log_name, up.
  exists (if up then add_failure_count r
          else add_failure (add_failure_count r) (m ++ py " (upload)")).
  exists st_c, st'.
  split; [reflexivity |]. split; [exact Hcheck |]. split; [exact Hup |].
  split.
  - unfold bind at 1. rewrite Hcheck. unfold after_classification.
    unfold bind. rewrite Hup. destruct up; reflexivity.
  - destruct up; split; reflexivity.
Qed.

(** The same on a machine whose extraction wrote one artifact and no log. *)
Lemma missing_logs_count_as_failure_then_upload_witness :
  let st := initial_state
              (demo_world [py "m1"] [File (py "trace.txt")] [] Removed []) None in
  let st_e := extracted st (py "machines") (py "m1")
                (Some [File (py "trace.txt")]) in
  exists (log_name : pystr) (upload_success : bool) (r' : run_state)
         (st_c st' : State),
    st_c = with_trace st_e
             (Logged Warning (MsgLogMissing log_name (py "m1")) :: trace st_e)
    /\ check_firmware_update_status (py "m1") (py "output") st_e = (Ok false, st_c)
    /\ upload_to_minio (py "m1") (py "output") st_c = (Ok upload_success, st')
    /\ process_machine (py "machines") (py "output") (py "m1")
         initial_run_state st
       = (Ok r', st')
    /\ failure_count r' = (failure_count initial_run_state + 1)%Z
    /\ success_count r' = success_count initial_run_state.
Proof.
  intros st st_e.
  apply (missing_logs_count_as_failure_then_upload
           (py "machines") (py "output") (py "m1") initial_run_state st
           (Some [File (py "trace.txt")])).
  - split; reflexivity.
  - left. reflexivity.
Defined.

(** C1 as stated fails: a machine passes preparation and extraction, its
    output directory has no [installSetLogs.log], and the artifact it does
    have is put into the object store. *)
Lemma missing_logs_upload_attempted :
  let st := initial_state
              (demo_world [py "m1"] [File (py "trace.txt")] [] Removed []) None in
  let st_e := extracted st (py "machines") (py "m1")
                (Some [File (py "trace.txt")]) in
  let run := process_machine (py "machines") (py "output") (py "m1")
               initial_run_state st in
  prepared_and_extracted st (py "machines") (py "m1")
    (Some [File (py "trace.txt")])
  /\ has_file st_e (py "m1") installSetLogs_log = false
  /\ fst run = Ok {| success_count := 0; failure_count := 1;
                     prep_extract_failures := [] |}
  /\ In (Called (FputObject MINIO_BUCKET_NAME (py "m1z/trace.txt")
                   (py "output/m1/trace.txt")) false)
        (trace (snd run)).
Proof.
  intros st st_e run.
  split; [split; reflexivity |].
  split; [reflexivity |].
  split; [reflexivity |].
  vm_compute. tauto.
Qed.


(** ** The order of a batch *)

Lemma entry_induction (P : entry -> Prop) :
  (forall name, P (File name)) ->
  (forall name children, Forall P children -> P (Dir name children)) ->
  forall e, P e.
Proof.
  intros Hfile Hdir.
  fix IH 1. intros [name | name children].
  - apply Hfile.
  - apply Hdir. induction children as [| e rest IHrest]; constructor.
    + apply IH.
    + apply IHrest.
Qed.

Lemma str_leb_total (a b : pystr) : str_leb a b = false -> str_leb b a = true.
Proof.
  revert b. induction a as [| x a IH]; intros [| y b]; simpl; try discriminate;
    try reflexivity.
  destruct (N.ltb x y) eqn:Lxy; [discriminate |].
  destruct (N.eqb x y) eqn:Exy.
  - apply N.eqb_eq in Exy. subst y. rewrite Lxy, N.eqb_refl. apply IH.
  - intros _. apply N.ltb_ge in Lxy. apply N.eqb_neq in Exy.
    assert (Hlt : (y < x)%N) by lia.
    apply N.ltb_lt in Hlt. now rewrite Hlt.
Qed.

Lemma insert_sorted_perm (x : pystr) (l : list pystr) :
  Permutation (insert_sorted x l) (x :: l).
Proof.
  induction l as [| y l IH]; simpl; [reflexivity |].
  destruct (str_leb x y); [reflexivity |].
  rewrite IH. apply perm_swap.
Qed.

Lemma sorted_perm (l : list pystr) : Permutation (sorted l) l.
Proof.
  induction l as [| x l IH]; simpl; [reflexivity |].
  rewrite insert_sorted_perm. now apply perm_skip.
Qed.

Lemma insert_sorted_is_sorted (x : pystr) (l : list pystr) :
  is_sorted l = true -> is_sorted (insert_sorted x l) = true.
Proof.
  induction l as [| y l IH]; intros Hl; [reflexivity |].
  cbn [insert_sorted]. destruct (str_leb x y) eqn:E.
  - cbn [is_sorted]. cbn [is_sorted] in Hl. now rewrite E.
  - assert (Hyx : str_leb y x = true) by now apply str_leb_total.
    assert (Htail : is_sorted l = true).
    { cbn [is_sorted] in Hl. destruct l; [reflexivity |].
      now apply andb_true_iff in Hl. }
    specialize (IH Htail).
    destruct l as [| z l].
    + cbn. now rewrite Hyx.
    + cbn [insert_sorted] in *. cbn [is_sorted] in Hl.
      apply andb_true_iff in Hl. destruct Hl as [Hyz _].
      destruct (str_leb x z).
      * cbn [is_sorted] in *. now rewrite Hyx, IH.
      * cbn [is_sorted] in *. now rewrite Hyz, IH.
Qed.

Lemma sorted_is_sorted (l : list pystr) : is_sorted (sorted l) = true.
Proof.
  induction l as [| x l IH]; [reflexivity |].
  simpl. now apply insert_sorted_is_sorted.
Qed.

Lemma attempt_order_app (a b : list (pystr * list pystr * list pystr)) :
  attempt_order (a ++ b) = attempt_order a ++ attempt_order b.
Proof. unfold attempt_order. apply flat_map_app. Qed.

Lemma attempt_order_flat_map {A} (f : A -> list (pystr * list pystr * list pystr))
  (l : list A) :
  attempt_order (flat_map f l) = flat_map (fun x => attempt_order (f x)) l.
Proof.
  induction l as [| x l IH]; simpl; [reflexivity |].
  now rewrite attempt_order_app, IH.
Qed.

(** The files of a directory come first, by sorted name; its subdirectories
    follow in listing order. *)
Lemma attempt_order_os_walk (top : pystr) (children : list entry) :
  attempt_order (os_walk top children)
  = map (os_path_join top) (sorted (file_names children))
    ++ flat_map (fun e => attempt_order (walk_entry top e)) children.
Proof.
  unfold os_walk. cbn [attempt_order flat_map].
  fold (attempt_order (flat_map (walk_entry top) children)).
  now rewrite attempt_order_flat_map.
Qed.

Lemma attempt_order_walk_entry_dir (parent name : pystr) (children : list entry) :
  attempt_order (walk_entry parent (Dir name children))
  = attempt_order (os_walk (os_path_join parent name) children).
Proof. reflexivity. Qed.

Lemma files_under_split (top : pystr) (children : list entry) :
  Permutation
    (map (os_path_join top) (file_names children)
     ++ flat_map (files_in_subdirs top) children)
    (files_under top children).
Proof.
  unfold files_under, file_names.
  induction children as [| [name | name c] rest IH]; simpl; [reflexivity | |].
  - now apply perm_skip.
  - rewrite Permutation_app_swap_app. now apply Permutation_app_head.
Qed.

Lemma walk_entry_files (e : entry) :
  forall parent,
    Permutation (attempt_order (walk_entry parent e)) (files_in_subdirs parent e).
Proof.
  induction e as [name | name children IH] using entry_induction; intros parent.
  - reflexivity.
  - rewrite attempt_order_walk_entry_dir, attempt_order_os_walk.
    cbn [files_in_subdirs files_of].
    set (root := os_path_join parent name).
    rewrite <- (files_under_split root children).
    apply Permutation_app.
    + apply Permutation_map, sorted_perm.
    + clear -IH. induction children as [| e rest IHrest]; simpl; [reflexivity |].
      inversion IH; subst. apply Permutation_app; [auto | auto].
Qed.

Lemma attempt_order_files (top : pystr) (children : list entry) :
  Permutation (attempt_order (os_walk top children)) (files_under top children).
Proof.
  rewrite attempt_order_os_walk, <- files_under_split.
  apply Permutation_app.
  - apply Permutation_map, sorted_perm.
  - induction children as [| e rest IH]; simpl; [reflexivity |].
    apply Permutation_app; [apply walk_entry_files | exact IH].
Qed.

(** C8, as the code has it: a batch takes files only, and every file of the
    tree once; the files of one directory are taken by sorted name, before
    the files of its subdirectories, which are walked one after the other in
    the order the directory lists them; the uploads follow that sequence.
    The sequence as a whole need not be sorted, and it depends on the order
    in which a directory lists its subdirectories: there is a tree whose
    sequence is not sorted, and there are two listings of the same entries
    with different sequences. *)
Theorem batch_order_by_directory :
  (forall (top : pystr) (children : list entry),
      Permutation (attempt_order (os_walk top children)) (files_under top children)
      /\ attempt_order (os_walk top children)
         = map (os_path_join top) (sorted (file_names children))
           ++ flat_map (fun e => attempt_order (walk_entry top e)) children
      /\ is_sorted (sorted (file_names children)) = true
      /\ Permutation (sorted (file_names children)) (file_names children)
      /\ (forall name sub,
            attempt_order (walk_entry top (Dir name sub))
            = attempt_order (os_walk (os_path_join top name) sub))
      /\ (forall name, attempt_order (walk_entry top (File name)) = [])
      /\ (forall (machine_prefix output_path : pystr) (total_files : Z)
                 (c : counters) (st : State),
            exists (c' : counters) (st' : State),
              upload_all machine_prefix output_path total_files
                (os_walk top children) c st
              = (Ok c', st')
              /\ uploads (attempt_order (os_walk top children)) c c' st st'))
  /\ (exists (top : pystr) (children : list entry),
         is_sorted (relative_paths_attempted top children) = false)
  /\ (exists (top : pystr) (listing listing' : list entry),
         Permutation listing listing'
         /\ relative_paths_attempted top listing
            <> relative_paths_attempted top listing').
Proof.
  split; [| split].
  - intros top children.
    split; [apply attempt_order_files |].
    split; [apply attempt_order_os_walk |].
    split; [apply sorted_is_sorted |].
    split; [apply sorted_perm |].
    split; [intros; apply attempt_order_walk_entry_dir |].
    split; [reflexivity |].
    intros. apply upload_all_uploads.
  - exists (py "output/m1"),
      [File (py "z.log"); Dir (py "a") [File (py "b.log")]].
    reflexivity.
  - exists (py "output/m1"),
      [Dir (py "b") [File (py "x")]; Dir (py "a") [File (py "y")]],
      [Dir (py "a") [File (py "y")]; Dir (py "b") [File (py "x")]].
    split; [apply perm_swap |]. vm_compute. discriminate.
Qed.

(** C8 as stated fails: the sequence of relative paths of a batch is not
    sorted when a directory has a file and a subdirectory whose name comes
    before the file's, and the same entries listed in another order give
    another sequence. *)
Lemma batch_order_not_sorted :
  let top := py "output/m1" in
  let tree := [File (py "z.log"); Dir (py "a") [File (py "b.log")]] in
  let listing1 := [Dir (py "b") [File (py "x")]; Dir (py "a") [File (py "y")]] in
  let listing2 := [Dir (py "a") [File (py "y")]; Dir (py "b") [File (py "x")]] in
  relative_paths_attempted top tree = [py "z.log"; py "a/b.log"]
  /\ is_sorted (relative_paths_attempted top tree) = false
  /\ Permutation listing1 listing2
  /\ relative_paths_attempted top listing1 = [py "b/x"; py "a/y"]
  /\ relative_paths_attempted top listing2 = [py "a/y"; py "b/x"].
Proof.
  intros top tree listing1 listing2.
  split; [reflexivity |]. split; [reflexivity |].
  split; [apply perm_swap |]. split; reflexivity.
Qed.

(** ** The name sanitizer *)

Module SanitizerFacts.
Import Sanitizer.

Lemma sanitize_name_finish (name : pystr) :
  sanitize_name name = finish (cleaned name).
Proof. reflexivity. Qed.

(** *** [collapse] *)

Lemma starts_with_collapse (c d : codepoint) (s : pystr) :
  starts_with c (collapse d s) = starts_with c s.
Proof.
  induction s as [| x t IH]; [reflexivity |].
  cbn [collapse]. destruct (N.eqb x d && starts_with d t) eqn:E; [| reflexivity].
  apply andb_true_iff in E. destruct E as [Exd Et].
  apply N.eqb_eq in Exd. subst x. rewrite IH.
  destruct t as [| y t']; [discriminate |].
  cbn [starts_with] in *. apply N.eqb_eq in Et. now subst y.
Qed.

Lemma no_run_collapse_same (c : codepoint) (s : pystr) :
  no_run c (collapse c s) = true.
Proof.
  induction s as [| x t IH]; [reflexivity |].
  cbn [collapse]. destruct (N.eqb x c && starts_with c t) eqn:E; [exact IH |].
  cbn [no_run]. rewrite starts_with_collapse, E, IH. reflexivity.
Qed.

Lemma no_run_collapse_other (c d : codepoint) (s : pystr) :
  no_run c s = true -> no_run c (collapse d s) = true.
Proof.
  induction s as [| x t IH]; [reflexivity |].
  cbn [no_run collapse]. intros H. apply andb_true_iff in H. destruct H as [H1 H2].
  destruct (N.eqb x d && starts_with d t); [now apply IH |].
  cbn [no_run]. rewrite starts_with_collapse, H1. now apply IH.
Qed.

Lemma Forall_collapse (P : codepoint -> Prop) (c : codepoint) (s : pystr) :
  Forall P s -> Forall P (collapse c s).
Proof.
  induction 1 as [| x t Hx Ht IH]; [constructor |].
  cbn [collapse]. destruct (N.eqb x c && starts_with c t); [exact IH |].
  now constructor.
Qed.

Lemma collapse_no_run (c : codepoint) (s : pystr) :
  no_run c s = true -> collapse c s = s.
Proof.
  induction s as [| x t IH]; [reflexivity |].
  cbn [no_run collapse]. intros H. apply andb_true_iff in H. destruct H as [H1 H2].
  apply negb_true_iff in H1. rewrite H1. now rewrite IH.
Qed.

(** *** [strip] *)

Lemma lstrip_suffix (p : codepoint -> bool) (s : pystr) :
  exists d, s = d ++ lstrip p s.
Proof.
  induction s as [| x t [d IH]]; [now exists [] |].
  cbn [lstrip]. destruct (p x).
  - exists (x :: d). simpl. now f_equal.
  - now exists [].
Qed.

Lemma rstrip_prefix (p : codepoint -> bool) (s : pystr) :
  exists d, s = rstrip p s ++ d.
Proof.
  unfold rstrip. destruct (lstrip_suffix p (rev s)) as [d Hd].
  exists (rev d). rewrite <- rev_app_distr, <- Hd. now rewrite rev_involutive.
Qed.

Lemma head_kept_lstrip (s : pystr) : head_kept (lstrip dot_or_hyphen s) = true.
Proof.
  induction s as [| x t IH]; [reflexivity |].
  cbn [lstrip]. destruct (dot_or_hyphen x) eqn:E; [exact IH |].
  cbn [head_kept]. now rewrite E.
Qed.

Lemma lstrip_head_kept (s : pystr) :
  head_kept s = true -> lstrip dot_or_hyphen s = s.
Proof.
  destruct s as [| x t]; [reflexivity |].
  cbn [head_kept lstrip]. intros H. apply negb_true_iff in H. now rewrite H.
Qed.

Lemma no_run_app (c : codepoint) (a b : pystr) :
  no_run c (a ++ b) = true -> no_run c a = true /\ no_run c b = true.
Proof.
  induction a as [| x t IH]; [now split |].
  cbn [app no_run]. intros H. apply andb_true_iff in H. destruct H as [H1 H2].
  destruct (IH H2) as [Ha Hb]. split; [| exact Hb].
  rewrite Ha, andb_true_r.
  destruct (N.eqb x c); [| reflexivity]. cbn [andb] in *.
  destruct t as [| y t']; [reflexivity |]. exact H1.
Qed.

Lemma head_kept_prefix (a b : pystr) :
  head_kept (a ++ b) = true -> a <> [] -> head_kept a = true.
Proof. destruct a; [congruence | auto]. Qed.

Lemma clean_cleaned (name : pystr) : clean (cleaned name).
Proof.
  unfold cleaned.
  set (s0 := filter is_allowed _).
  assert (F0 : Forall (fun c => is_allowed c = true) s0).
  { apply Forall_forall. intros c Hc. apply filter_In in Hc. tauto. }
  set (s2 := collapse ch_dot (collapse ch_hyphen s0)).
  assert (F2 : Forall (fun c => is_allowed c = true) s2)
    by (unfold s2; now repeat apply Forall_collapse).
  assert (H2 : no_run ch_hyphen s2 = true)
    by (unfold s2; apply no_run_collapse_other, no_run_collapse_same).
  assert (D2 : no_run ch_dot s2 = true) by apply no_run_collapse_same.
  clearbody s2. clear s0 F0.
  unfold strip.
  destruct (lstrip_suffix dot_or_hyphen s2) as [d1 E1].
  set (s3 := lstrip dot_or_hyphen s2) in *.
  assert (K3 : head_kept s3 = true) by apply head_kept_lstrip.
  destruct (rstrip_prefix dot_or_hyphen s3) as [d2 E2].
  set (s4 := rstrip dot_or_hyphen s3) in *.
  assert (F3 : Forall (fun c => is_allowed c = true) s3).
  { rewrite E1 in F2. apply Forall_app in F2. tauto. }
  assert (H3 : no_run ch_hyphen s3 = true).
  { rewrite E1 in H2. apply no_run_app in H2. tauto. }
  assert (D3 : no_run ch_dot s3 = true).
  { rewrite E1 in D2. apply no_run_app in D2. tauto. }
  repeat split.
  - rewrite E2 in F3. apply Forall_app in F3. tauto.
  - rewrite E2 in H3. apply no_run_app in H3. tauto.
  - rewrite E2 in D3. apply no_run_app in D3. tauto.
  - destruct s4 as [| x t] eqn:E4; [reflexivity |].
    rewrite E2 in K3. exact K3.
  - unfold s4, rstrip. rewrite rev_involutive. apply head_kept_lstrip.
Qed.

(** *** A clean name is left as it is by the cleaning steps *)

Lemma allowed_not_special (c : codepoint) :
  is_allowed c = true ->
  lower_char c = [c]
  /\ N.eqb c ch_underscore = false
  /\ N.eqb c ch_space = false
  /\ N.eqb c ch_newline = false.
Proof.
  unfold is_allowed, is_alnum, is_lower, is_digit, lower_char, is_upper,
    ch_dot, ch_hyphen, ch_underscore, ch_space, ch_newline.
  intros H.
  repeat rewrite orb_true_iff in H. repeat rewrite andb_true_iff in H.
  repeat rewrite N.leb_le in H. repeat rewrite N.eqb_eq in H.
  assert (Hc : (c = 45 \/ c = 46 \/ 48 <= c <= 57 \/ 97 <= c <= 122)%N) by lia.
  clear H.
  assert (U : (65 <=? c)%N && (c <=? 90)%N = false).
  { apply andb_false_iff.
    destruct (N.leb_spec 65 c); [right; apply N.leb_gt; lia | left; reflexivity]. }
  rewrite U.
  replace (N.eqb c 8490) with false by (symmetry; apply N.eqb_neq; lia).
  replace (N.eqb c 304) with false by (symmetry; apply N.eqb_neq; lia).
  repeat split; try reflexivity; apply N.eqb_neq; lia.
Qed.

Lemma cleaned_clean (s : pystr) : clean s -> cleaned s = s.
Proof.
  intros (F & H & D & K & Kr). unfold cleaned.
  assert (E1 : lower s = s).
  { clear H D K Kr. unfold lower. induction F as [| x t Hx Ht IH]; [reflexivity |].
    cbn [flat_map]. destruct (allowed_not_special x Hx) as (-> & _).
    simpl. now rewrite IH. }
  assert (E2 : forall old, (forall c, is_allowed c = true -> N.eqb c old = false) ->
                           replace_char old ch_hyphen s = s).
  { clear H D K Kr E1. intros old Hold. unfold replace_char.
    induction F as [| x t Hx Ht IH]; [reflexivity |].
    cbn [map]. rewrite (Hold x Hx). now rewrite IH. }
  assert (E3 : filter is_allowed s = s).
  { clear H D K Kr E1 E2. induction F as [| x t Hx Ht IH]; [reflexivity |].
    cbn [filter]. rewrite Hx. now rewrite IH. }
  rewrite E1.
  rewrite (E2 ch_underscore) by (intros c Hc; apply allowed_not_special, Hc).
  rewrite (E2 ch_space) by (intros c Hc; apply allowed_not_special, Hc).
  rewrite E3, (collapse_no_run _ _ H), (collapse_no_run _ _ D).
  unfold strip, rstrip. rewrite (lstrip_head_kept s K).
  rewrite (lstrip_head_kept (rev s) Kr). apply rev_involutive.
Qed.

(** *** The closing tests on a clean name *)

Lemma finish_clean (s : pystr) :
  clean s ->
  finish s = if (List.length s <=? 1)%nat then s else s ++ [ch_z].
Proof.
  intros (F & _ & _ & K & _). unfold finish.
  destruct s as [| x t]; [reflexivity |].
  inversion F as [| ? ? Hx Ht]; subst.
  assert (Hal : is_alnum x = true).
  { cbn [head_kept] in K. apply negb_true_iff in K.
    unfold is_allowed in Hx. unfold dot_or_hyphen in K.
    apply orb_false_iff in K. destruct K as [K1 K2].
    rewrite K1, K2 in Hx. now rewrite !orb_false_r in Hx. }
  cbn [List.length Nat.ltb Nat.leb match_leading_alnum]. rewrite Hal.
  cbn [negb andb].
  destruct t as [| y t']; cbn [match_alnum_then_end List.length Nat.leb].
  - rewrite Hal. reflexivity.
  - destruct t' as [| w t'']; [| reflexivity].
    inversion Ht as [| ? ? Hy _]; subst.
    destruct (allowed_not_special y Hy) as (_ & _ & _ & ->).
    rewrite andb_false_r. reflexivity.
Qed.

Lemma no_run_snoc (c x : codepoint) (s : pystr) :
  no_run c s = true -> N.eqb x c = false -> no_run c (s ++ [x]) = true.
Proof.
  intros H Hx. induction s as [| y t IH]; cbn [app no_run].
  - cbn [starts_with]. now rewrite andb_false_r.
  - cbn [no_run] in H. apply andb_true_iff in H. destruct H as [H1 H2].
    rewrite (IH H2), andb_true_r.
    destruct t as [| w t']; cbn [app starts_with] in *.
    + rewrite Hx. now rewrite andb_false_r.
    + exact H1.
Qed.

Lemma clean_append_z (s : pystr) :
  clean s -> s <> [] -> clean (s ++ [ch_z]).
Proof.
  intros (F & H & D & K & Kr) Hne. repeat split.
  - apply Forall_app. split; [exact F |]. constructor; [reflexivity | constructor].
  - now apply no_run_snoc.
  - now apply no_run_snoc.
  - destruct s; [congruence | exact K].
  - rewrite rev_app_distr. reflexivity.
Qed.

(** What sanitizing a sanitized name gives. *)
Lemma sanitize_name_twice (name : pystr) :
  sanitize_name (sanitize_name name)
  = if (List.length (sanitize_name name) <=? 1)%nat
    then sanitize_name name
    else sanitize_name name ++ [ch_z].
Proof.
  rewrite (sanitize_name_finish name).
  pose proof (clean_cleaned name) as Hc. set (c := cleaned name) in *.
  rewrite (finish_clean c Hc).
  destruct (Nat.leb_spec (List.length c) 1) as [Hshort | Hlong].
  - rewrite sanitize_name_finish, (cleaned_clean c Hc), (finish_clean c Hc).
    replace (List.length c <=? 1)%nat with true
      by (symmetry; apply Nat.leb_le; exact Hshort).
    reflexivity.
  - assert (Hne : c <> []) by (destruct c; [simpl in Hlong; lia | discriminate]).
    pose proof (clean_append_z c Hc Hne) as Hcz.
    rewrite sanitize_name_finish, (cleaned_clean _ Hcz), (finish_clean _ Hcz).
    rewrite length_app. cbn [List.length].
    replace (List.length c + 1 <=? 1)%nat with false
      by (symmetry; apply Nat.leb_gt; lia).
    reflexivity.
Qed.

Lemma sanitize_name_idempotent_iff (name : pystr) :
  sanitize_name (sanitize_name name) = sanitize_name name
  <-> (List.length (sanitize_name name) <= 1)%nat.
Proof.
  rewrite sanitize_name_twice.
  destruct (Nat.leb_spec (List.length (sanitize_name name)) 1) as [H | H].
  - split; [intros _; exact H | reflexivity].
  - split; [| lia].
    intros E. apply (f_equal (@List.length codepoint)) in E.
    rewrite length_app in E. cbn [List.length] in E. lia.
Qed.

End SanitizerFacts.


(** C3: the sanitizer is total and maps the empty name to the empty name,
    but it is not idempotent. The test [re.match(r"[a-z0-9]$", name)] is
    anchored at the start of [name], so every cleaned name of two or more
    characters gets a ["z"] appended: sanitizing twice gives the same as
    sanitizing once exactly for the names that sanitize to at most one
    character. ["ab"] becomes ["abz"], and ["abz"] becomes ["abzz"]. *)
Theorem sanitize_name_appends_z :
  (forall name : pystr,
      Sanitizer.sanitize_name (Sanitizer.sanitize_name name)
      = Sanitizer.sanitize_name name
      <-> (List.length (Sanitizer.sanitize_name name) <= 1)%nat)
  /\ Sanitizer.sanitize_name (py "ab") = py "abz"
  /\ Sanitizer.sanitize_name (Sanitizer.sanitize_name (py "ab")) = py "abzz"
  /\ Sanitizer.sanitize_name (Sanitizer.sanitize_name (py "ab"))
     <> Sanitizer.sanitize_name (py "ab")
  /\ Sanitizer.sanitize_name (py "My_Machine 01") = py "my-machine-01z"
  /\ Sanitizer.sanitize_name [] = [].
Proof.
  split; [exact SanitizerFacts.sanitize_name_idempotent_iff |].
  repeat split; try reflexivity. vm_compute. discriminate.
Qed.

(** ** Binary64: the success rate against 80 *)

Module RoundingFacts.

Import Rounding.
Local Open Scope Z_scope.

Ltac decide_tests :=
  repeat match goal with
    | |- context [?a =? ?b] =>
        first [ replace (a =? b) with true by (symmetry; apply Z.eqb_eq; lia)
              | replace (a =? b) with false by (symmetry; apply Z.eqb_neq; lia) ]
    | |- context [?a ?= ?b] =>
        first [ replace (a ?= b) with Eq by (symmetry; apply Z.compare_eq_iff; lia)
              | replace (a ?= b) with Lt by (symmetry; apply Z.compare_lt_iff; lia)
              | replace (a ?= b) with Gt by (symmetry; apply Z.compare_gt_iff; lia) ]
    end.

Lemma div_mod_intro (N D q rho : Z) :
  0 < D -> 0 <= rho < D -> N = D * q + rho -> N / D = q /\ N mod D = rho.
Proof.
  intros HD Hr HN. split.
  - symmetry. apply (Z.div_unique N D q rho); lia.
  - symmetry. apply (Z.mod_unique N D q rho); lia.
Qed.

Lemma located_intro (N D q rho : Z) (mrs : shr_record) :
  0 < D -> 0 <= rho < D -> N = D * q + rho -> 0 <= q ->
  shr_m mrs = q ->
  loc_of_shr_record mrs
  = (if rho =? 0 then loc_Exact else loc_Inexact (2 * rho ?= D)) ->
  located N D mrs.
Proof.
  intros HD Hr HN Hq Hm Hl.
  destruct (div_mod_intro N D q rho HD Hr HN) as [Hdiv Hmod].
  unfold located, loc_of. rewrite Hdiv, Hmod. repeat split; try assumption; nia.
Qed.

Lemma located_elim (N D : Z) (mrs : shr_record) :
  located N D mrs ->
  exists rho, 0 < D /\ 0 <= rho < D /\ N = D * shr_m mrs + rho /\ 0 <= shr_m mrs
    /\ loc_of_shr_record mrs
       = (if rho =? 0 then loc_Exact else loc_Inexact (2 * rho ?= D)).
Proof.
  intros (HD & HN & Hm & Hl). exists (N mod D).
  pose proof (Z.mod_pos_bound N D HD). pose proof (Z.div_mod N D ltac:(lia)).
  split; [assumption |]. split; [assumption |].
  split; [rewrite Hm; assumption |].
  split; [rewrite Hm; apply Z.div_pos; lia | exact Hl].
Qed.

Lemma loc_cases (rho D : Z) (r s : bool) :
  loc_of_shr_record {| shr_m := 0; shr_r := r; shr_s := s |}
  = (if rho =? 0 then loc_Exact else loc_Inexact (2 * rho ?= D)) ->
  (r = false /\ s = false /\ rho = 0)
  \/ (r = false /\ s = true /\ rho <> 0 /\ 2 * rho < D)
  \/ (r = true /\ s = false /\ rho <> 0 /\ 2 * rho = D)
  \/ (r = true /\ s = true /\ rho <> 0 /\ D < 2 * rho).
Proof.
  destruct (Z.eqb_spec rho 0) as [E | E];
    [| destruct (Z.compare_spec (2 * rho) D)];
    destruct r, s; simpl; intros Hl; try discriminate; tauto.
Qed.

Lemma shr_1_located (N D : Z) (mrs : shr_record) :
  located N D mrs -> located N (2 * D) (shr_1 mrs).
Proof.
  intros H. destruct (located_elim N D mrs H) as (rho & HD & Hr & HN & Hm & Hl).
  destruct mrs as [m r s]. cbn [shr_m] in *.
  assert (Hc := loc_cases rho D r s Hl). clear Hl.
  destruct m as [| [p | p |] | p]; try lia; cbn [shr_1].
  - apply (located_intro N (2 * D) 0 rho); try lia; try reflexivity.
    destruct Hc as [(-> & -> & ?) | [(-> & -> & ? & ?) | [(-> & -> & ? & ?) | (-> & -> & ? & ?)]]];
      cbn [loc_of_shr_record orb]; decide_tests; reflexivity.
  - apply (located_intro N (2 * D) (Zpos p) (D + rho)); try lia; try reflexivity.
    destruct Hc as [(-> & -> & ?) | [(-> & -> & ? & ?) | [(-> & -> & ? & ?) | (-> & -> & ? & ?)]]];
      cbn [loc_of_shr_record orb]; decide_tests; reflexivity.
  - apply (located_intro N (2 * D) (Zpos p) rho); try lia; try reflexivity.
    destruct Hc as [(-> & -> & ?) | [(-> & -> & ? & ?) | [(-> & -> & ? & ?) | (-> & -> & ? & ?)]]];
      cbn [loc_of_shr_record orb]; decide_tests; reflexivity.
  - apply (located_intro N (2 * D) 0 (D + rho)); try lia; try reflexivity.
    destruct Hc as [(-> & -> & ?) | [(-> & -> & ? & ?) | [(-> & -> & ? & ?) | (-> & -> & ? & ?)]]];
      cbn [loc_of_shr_record orb]; decide_tests; reflexivity.
Qed.

Lemma pow2_xO (p : positive) : 2 ^ Zpos p~0 = 2 ^ Zpos p * 2 ^ Zpos p.
Proof.
  replace (Zpos p~0) with (Zpos p + Zpos p) by lia.
  apply Z.pow_add_r; lia.
Qed.

Lemma pow2_xI (p : positive) : 2 ^ Zpos p~1 = 2 * (2 ^ Zpos p * 2 ^ Zpos p).
Proof.
  replace (Zpos p~1) with (Z.succ (Zpos p~0)) by lia.
  rewrite Z.pow_succ_r by lia. now rewrite pow2_xO.
Qed.

Lemma iter_pos_shr_1_located (p : positive) :
  forall (N D : Z) (mrs : shr_record),
    located N D mrs -> located N (D * 2 ^ Zpos p) (iter_pos shr_1 p mrs).
Proof.
  induction p as [p IH | p IH |]; intros N D mrs H; cbn [iter_pos].
  - replace (D * 2 ^ Zpos p~1) with (2 * D * 2 ^ Zpos p * 2 ^ Zpos p)
      by (rewrite pow2_xI; ring).
    apply IH, IH, shr_1_located, H.
  - replace (D * 2 ^ Zpos p~0) with (D * 2 ^ Zpos p * 2 ^ Zpos p)
      by (rewrite pow2_xO; ring).
    apply IH, IH, H.
  - replace (D * 2 ^ 1) with (2 * D) by (rewrite Z.pow_1_r; ring).
    apply shr_1_located, H.
Qed.

Lemma shr_located (N D : Z) (mrs : shr_record) (e k : Z) :
  located N D mrs -> 0 <= k ->
  located N (D * 2 ^ k) (fst (shr mrs e k)) /\ snd (shr mrs e k) = e + k.
Proof.
  intros H Hk. destruct k as [| p | p]; try lia; cbn [shr fst snd].
  - rewrite Z.pow_0_r, Z.mul_1_r, Z.add_0_r. split; [exact H | reflexivity].
  - split; [apply iter_pos_shr_1_located, H | reflexivity].
Qed.

Lemma digits2_pos_size (p : positive) : digits2_pos p = Pos.size p.
Proof. induction p; simpl; congruence. Qed.

Lemma Zdigits2_bounds (m : Z) :
  0 < m -> 2 ^ (Zdigits2 m - 1) <= m < 2 ^ Zdigits2 m.
Proof.
  destruct m as [| p | p]; try lia. intros _. cbn [Zdigits2].
  rewrite digits2_pos_size.
  pose proof (Pos.size_gt p) as Hgt. pose proof (Pos.size_le p) as Hle.
  apply Pos2Z.pos_lt_pos in Hgt. apply Pos2Z.pos_le_pos in Hle.
  rewrite Pos2Z.inj_pow in Hgt, Hle.
  assert (Hs : 2 ^ Zpos (Pos.size p) = 2 * 2 ^ (Zpos (Pos.size p) - 1)).
  { rewrite <- Z.pow_succ_r by lia. f_equal. lia. }
  lia.
Qed.

Lemma Zdigits2_unique (m n : Z) :
  2 ^ (n - 1) <= m < 2 ^ n -> 1 <= n -> Zdigits2 m = n.
Proof.
  intros Hb Hn.
  assert (Hm : 0 < m) by (pose proof (Z.pow_pos_nonneg 2 (n - 1)); lia).
  pose proof (Zdigits2_bounds m Hm) as Hd.
  assert (Hd1 : 1 <= Zdigits2 m).
  { destruct m; try lia. simpl. lia. }
  destruct (Z.lt_trichotomy (Zdigits2 m) n) as [Hlt | [Heq | Hgt]]; [| exact Heq |].
  - assert (2 ^ Zdigits2 m <= 2 ^ (n - 1)) by (apply Z.pow_le_mono_r; lia). lia.
  - assert (2 ^ n <= 2 ^ (Zdigits2 m - 1)) by (apply Z.pow_le_mono_r; lia). lia.
Qed.

Lemma loc_of_record_of_loc (m : Z) (l : location) :
  loc_of_shr_record (shr_record_of_loc m l) = l.
Proof. destruct l as [| []]; reflexivity. Qed.

Lemma shr_m_record_of_loc (m : Z) (l : location) :
  shr_m (shr_record_of_loc m l) = m.
Proof. destruct l as [| []]; reflexivity. Qed.

Lemma located_exact (m : Z) : 0 <= m -> located m 1 (shr_record_of_loc m loc_Exact).
Proof.
  intros Hm. apply (located_intro m 1 m 0); try lia; reflexivity.
Qed.

Lemma rne_bounds (N D : Z) :
  0 < D -> 0 <= N -> N / D <= rne N D <= N / D + 1.
Proof.
  intros HD HN. unfold rne, round_nearest_even, loc_of.
  destruct (N mod D =? 0); [lia |].
  destruct (2 * (N mod D) ?= D); try lia.
  destruct (Z.even (N / D)); lia.
Qed.

Lemma fexp_normal (x : Z) : -1021 <= x -> fexp 53 1024 x = x - 53.
Proof. unfold fexp, emin. lia. Qed.

Lemma pack_finite (r e : Z) :
  2 ^ 52 <= r <= 2 ^ 53 -> -1074 <= e -> e < 971 ->
  (let '(mrs, e') := shr_fexp 53 1024 r e loc_Exact in
   match shr_m mrs with
   | Z0 => S754_zero false
   | Zpos m => if e' <=? 1024 - 53 then S754_finite false m e'
               else S754_infinity false
   | Zneg _ => S754_nan
   end) = pack r e.
Proof.
  intros Hr He1 He2. unfold pack.
  destruct (Z.ltb_spec r (2 ^ 53)) as [Hlt | Hge].
  - unfold shr_fexp.
    rewrite (Zdigits2_unique r 53) by (change (2 ^ (53 - 1)) with (2 ^ 52); lia).
    rewrite fexp_normal by lia.
    replace (53 + e - 53 - e) with 0 by lia. cbn [shr shr_record_of_loc shr_m].
    destruct r as [| p | p]; try lia.
    replace (e <=? 1024 - 53) with true by (symmetry; apply Z.leb_le; lia).
    reflexivity.
  - assert (r = 2 ^ 53) by lia. subst r.
    unfold shr_fexp.
    rewrite (Zdigits2_unique (2 ^ 53) 54) by (simpl; lia).
    rewrite fexp_normal by lia.
    replace (54 + e - 53 - e) with 1 by lia.
    cbn [shr]. change (2 ^ 53) with 9007199254740992.
    cbn [shr_record_of_loc iter_pos shr_1 shr_m orb].
    replace (e + 1 <=? 1024 - 53) with true by (symmetry; apply Z.leb_le; lia).
    reflexivity.
Qed.

Lemma binary_round_aux_located (m e : Z) (l : location) (N D k : Z) :
  located N D (shr_record_of_loc m l) ->
  0 <= k -> 2 ^ 52 * 2 ^ k <= m < 2 ^ 53 * 2 ^ k ->
  -1074 <= e + k -> e + k < 971 ->
  binary_round_aux 53 1024 false m e l = pack (rne N (D * 2 ^ k)) (e + k).
Proof.
  intros Hloc Hk Hm He1 He2.
  assert (Hpk : 0 < 2 ^ k) by (apply Z.pow_pos_nonneg; lia).
  assert (Hd : Zdigits2 m = 53 + k).
  { apply Zdigits2_unique; [| lia].
    replace (53 + k - 1) with (52 + k) by lia.
    rewrite !Z.pow_add_r by lia. exact Hm. }
  unfold binary_round_aux. unfold shr_fexp at 1.
  rewrite Hd, fexp_normal by lia.
  replace (53 + k + e - 53 - e) with k by lia.
  destruct (shr_located N D (shr_record_of_loc m l) e k Hloc Hk) as [Hloc' He'].
  destruct (shr (shr_record_of_loc m l) e k) as [mrs' e'].
  cbn [fst snd] in Hloc', He'. subst e'.
  assert (Hm1 : shr_m mrs' = m / 2 ^ k).
  { destruct Hloc as (HD & HN & Hq & _). destruct Hloc' as (_ & _ & Hq' & _).
    rewrite shr_m_record_of_loc in Hq.
    rewrite Hq', Hq. symmetry. apply Z.div_div; lia. }
  assert (Hb1 : 2 ^ 52 <= m / 2 ^ k < 2 ^ 53).
  { split.
    - apply Z.div_le_lower_bound; lia.
    - apply Z.div_lt_upper_bound; lia. }
  destruct Hloc' as (HD' & HN & Hq' & Hl').
  rewrite Hl', Hq'. fold (rne N (D * 2 ^ k)).
  pose proof (rne_bounds N (D * 2 ^ k) HD' HN) as Hr.
  rewrite <- Hq', Hm1 in Hr.
  apply pack_finite; lia.
Qed.

Lemma rne_exact (n : Z) : rne n 1 = n.
Proof.
  unfold rne, loc_of. rewrite Z.mod_1_r, Z.div_1_r. reflexivity.
Qed.

Lemma rne_scale (a N D : Z) :
  0 < a -> 0 < D -> rne (a * N) (a * D) = rne N D.
Proof.
  intros Ha HD. unfold rne, loc_of.
  rewrite Z.div_mul_cancel_l by lia.
  rewrite Z.mul_mod_distr_l by lia.
  assert (Hz : (a * (N mod D) =? 0) = (N mod D =? 0)).
  { destruct (Z.eqb_spec (N mod D) 0) as [E | E].
    - rewrite E. rewrite Z.mul_0_r. reflexivity.
    - apply Z.eqb_neq. nia. }
  rewrite Hz.
  destruct (Z.compare_spec (2 * (N mod D)) D) as [E | E | E];
    [ replace (2 * (a * (N mod D)) ?= a * D) with Eq
        by (symmetry; apply Z.compare_eq_iff; nia)
    | replace (2 * (a * (N mod D)) ?= a * D) with Lt
        by (symmetry; apply Z.compare_lt_iff; nia)
    | replace (2 * (a * (N mod D)) ?= a * D) with Gt
        by (symmetry; apply Z.compare_gt_iff; nia) ]; reflexivity.
Qed.

Lemma rne_ge (N D c : Z) :
  0 < D -> 0 <= N -> (2 * c - 1) * D < 2 * N -> c <= rne N D.
Proof.
  intros HD HN H. unfold rne, round_nearest_even, loc_of.
  pose proof (Z.div_mod N D ltac:(lia)) as E.
  pose proof (Z.mod_pos_bound N D HD) as B.
  destruct (Z.eqb_spec (N mod D) 0); [nia |].
  destruct (Z.compare_spec (2 * (N mod D)) D); [| nia | nia].
  destruct (Z.even (N / D)); nia.
Qed.

Lemma rne_le (N D c : Z) :
  0 < D -> 0 <= N -> 2 * N < (2 * c + 1) * D -> rne N D <= c.
Proof.
  intros HD HN H. unfold rne, round_nearest_even, loc_of.
  pose proof (Z.div_mod N D ltac:(lia)) as E.
  pose proof (Z.mod_pos_bound N D HD) as B.
  destruct (Z.eqb_spec (N mod D) 0); [nia |].
  destruct (Z.compare_spec (2 * (N mod D)) D); [| nia | nia].
  destruct (Z.even (N / D)); nia.
Qed.

(** Ties go to the even neighbour: at an even [c], [c - 1/2] rounds to [c]. *)
Lemma rne_ge_even (N D c : Z) :
  0 < D -> 0 <= N -> Z.even c = true -> (2 * c - 1) * D <= 2 * N -> c <= rne N D.
Proof.
  intros HD HN Hc H. unfold rne, round_nearest_even, loc_of.
  pose proof (Z.div_mod N D ltac:(lia)) as E.
  pose proof (Z.mod_pos_bound N D HD) as B.
  destruct (Z.eqb_spec (N mod D) 0); [nia |].
  destruct (Z.compare_spec (2 * (N mod D)) D); [| nia | nia].
  destruct (Z.even (N / D)) eqn:Ev; [| nia].
  assert (N / D <> c - 1).
  { intros Heq. rewrite Heq in Ev.
    replace (c - 1) with (Z.pred c) in Ev by lia.
    rewrite Z.even_pred in Ev. rewrite <- Z.negb_even in Ev.
    rewrite Hc in Ev. discriminate. }
  nia.
Qed.

Lemma new_location_loc_of (N D : Z) :
  0 < D -> new_location D (N mod D) = loc_of N D.
Proof.
  intros HD. pose proof (Z.mod_pos_bound N D HD) as B.
  unfold new_location, new_location_even, new_location_odd, loc_of.
  destruct (Z.even D) eqn:Ev; [reflexivity |].
  destruct (N mod D =? 0); [reflexivity |].
  f_equal.
  assert (Hodd : 2 * (N mod D) <> D).
  { intros Heq. rewrite <- Heq in Ev. rewrite Z.even_mul in Ev. discriminate. }
  destruct (Z.compare_spec (2 * (N mod D) + 1) D);
    destruct (Z.compare_spec (2 * (N mod D)) D); try reflexivity; lia.
Qed.

Lemma Pos_iter_xO (p k : positive) :
  Zpos (Pos.iter xO p k) = Zpos p * 2 ^ Zpos k.
Proof.
  induction k as [| k IH] using Pos.peano_ind.
  - simpl. lia.
  - rewrite Pos.iter_succ, Pos2Z.inj_xO, IH, Pos2Z.inj_succ.
    rewrite Z.pow_succ_r by lia. ring.
Qed.

Lemma pow2_split (a b : Z) : 0 <= a -> 0 <= b -> 2 ^ (a + b) = 2 ^ a * 2 ^ b.
Proof. intros. apply Z.pow_add_r; lia. Qed.

Lemma normal_mantissa (n d : Z) :
  1 <= d <= 53 -> 2 ^ (d - 1) <= n < 2 ^ d ->
  2 ^ 52 <= n * 2 ^ (53 - d) < 2 ^ 53.
Proof.
  intros Hd Hn.
  assert (Hp : 0 < 2 ^ (53 - d)) by (apply Z.pow_pos_nonneg; lia).
  assert (E1 : 2 ^ 52 = 2 ^ (d - 1) * 2 ^ (53 - d)).
  { rewrite <- pow2_split by lia. f_equal. lia. }
  assert (E2 : 2 ^ 53 = 2 ^ d * 2 ^ (53 - d)).
  { rewrite <- pow2_split by lia. f_equal. lia. }
  rewrite E1, E2. nia.
Qed.

Lemma round_exact (m e : Z) :
  2 ^ 52 <= m < 2 ^ 53 -> -1074 <= e -> e < 971 ->
  binary_round_aux 53 1024 false m e loc_Exact = S754_finite false (Z.to_pos m) e.
Proof.
  intros Hm He1 He2.
  rewrite (binary_round_aux_located m e loc_Exact m 1 0); try lia.
  - rewrite Z.pow_0_r, Z.mul_1_r, Z.add_0_r, rne_exact. unfold pack.
    replace (m <? 2 ^ 53) with true by (symmetry; apply Z.ltb_lt; lia).
    reflexivity.
  - apply located_exact. lia.
Qed.

Lemma of_int_spec (n d : Z) :
  1 <= d <= 53 -> 2 ^ (d - 1) <= n < 2 ^ d ->
  binary_normalize 53 1024 n 0 false
  = S754_finite false (Z.to_pos (n * 2 ^ (53 - d))) (d - 53).
Proof.
  intros Hd Hn.
  pose proof (normal_mantissa n d Hd Hn) as Hm.
  assert (Hdig : Zdigits2 n = d) by (apply Zdigits2_unique; lia).
  destruct n as [| p | p]; try (pose proof (Z.pow_pos_nonneg 2 (d - 1)); lia).
  cbn [binary_normalize]. unfold binary_round.
  cbn [Zdigits2] in Hdig. rewrite Z.add_0_r, Hdig, fexp_normal by lia.
  unfold shl_align. rewrite Z.sub_0_r.
  destruct (d - 53) as [| k | k] eqn:Ek; try lia.
  - replace (53 - d) with 0 in * by lia. rewrite Z.pow_0_r, Z.mul_1_r in *.
    apply round_exact; lia.
  - replace (53 - d) with (Zpos k) in * by lia.
    rewrite <- Pos_iter_xO in *. apply round_exact; lia.
Qed.

Lemma SFdiv_normal (mu mt eu et : Z) :
  2 ^ 52 <= mu < 2 ^ 53 -> 2 ^ 52 <= mt < 2 ^ 53 ->
  -500 <= eu <= 0 -> -500 <= et <= 0 ->
  SFdiv 53 1024 (S754_finite false (Z.to_pos mu) eu)
    (S754_finite false (Z.to_pos mt) et)
  = let k := if mu <? mt then 0 else 1 in
    pack (rne (mu * 2 ^ 53) (mt * 2 ^ k)) (eu - et - 53 + k).
Proof.
  intros Hmu Hmt Heu Het.
  destruct mu as [| pu | pu]; try lia. destruct mt as [| pt | pt]; try lia.
  cbn [Z.to_pos SFdiv xorb]. unfold SFdiv_core_binary.
  rewrite (Zdigits2_unique (Zpos pu) 53), (Zdigits2_unique (Zpos pt) 53)
    by (change (2 ^ (53 - 1)) with (2 ^ 52); lia).
  replace (53 + eu - (53 + et)) with (eu - et) by lia.
  rewrite fexp_normal by lia.
  replace (Z.min (eu - et - 53) (eu - et)) with (eu - et - 53) by lia.
  replace (eu - et - (eu - et - 53)) with 53 by lia.
  rewrite Z.shiftl_mul_pow2 by lia.
  pose proof (Z.div_mod (Zpos pu * 2 ^ 53) (Zpos pt) ltac:(lia)) as Edm.
  pose proof (Z.mod_pos_bound (Zpos pu * 2 ^ 53) (Zpos pt) ltac:(lia)) as Bm.
  unfold Z.div, Z.modulo in Edm, Bm |- *.
  destruct (Z.div_eucl (Zpos pu * 2 ^ 53) (Zpos pt)) as [q r] eqn:Ediv.
  assert (Hq : q = (Zpos pu * 2 ^ 53) / Zpos pt)
    by (unfold Z.div; now rewrite Ediv).
  assert (Hr : r = (Zpos pu * 2 ^ 53) mod Zpos pt)
    by (unfold Z.modulo; now rewrite Ediv).
  assert (Hloc : located (Zpos pu * 2 ^ 53) (Zpos pt)
                   (shr_record_of_loc q (new_location (Zpos pt) r))).
  { unfold located. rewrite shr_m_record_of_loc, loc_of_record_of_loc.
    rewrite Hr at 1. rewrite new_location_loc_of by lia.
    repeat split; lia. }
  cbv zeta.
  change (2 ^ 53) with (2 * 2 ^ 52) in Hmu, Hmt.
  destruct (Z.ltb_spec (Zpos pu) (Zpos pt)) as [Hlt | Hge].
  - rewrite (binary_round_aux_located q (eu - et - 53) _ _ _ 0 Hloc);
      [reflexivity | lia | | lia | lia].
    rewrite Z.pow_0_r, !Z.mul_1_r. subst q. split.
    + apply Z.div_le_lower_bound; [lia |].
      change (2 ^ 53) with (2 * 2 ^ 52). nia.
    + apply Z.div_lt_upper_bound; [lia |]. nia.
  - rewrite (binary_round_aux_located q (eu - et - 53) _ _ _ 1 Hloc);
      [reflexivity | lia | | lia | lia].
    rewrite Z.pow_1_r. subst q. split.
    + apply Z.div_le_lower_bound; [lia |].
      change (2 ^ 53) with (2 * 2 ^ 52). nia.
    + apply Z.div_lt_upper_bound; [lia |].
      change (2 ^ 53) with (2 * 2 ^ 52). nia.
Qed.

Lemma digits_range (n : Z) :
  0 < n < 2 ^ 53 -> 1 <= Zdigits2 n <= 53.
Proof.
  intros Hn. pose proof (Zdigits2_bounds n ltac:(lia)) as Hb.
  assert (1 <= Zdigits2 n) by (destruct n; try lia; simpl; lia).
  split; [assumption |].
  destruct (Z.le_gt_cases (Zdigits2 n) 53) as [H1 | H1]; [assumption |].
  assert (2 ^ 53 <= 2 ^ (Zdigits2 n - 1)) by (apply Z.pow_le_mono_r; lia). lia.
Qed.

Lemma truediv_spec (u t : Z) :
  0 < u < 2 ^ 53 -> 0 < t < 2 ^ 53 ->
  exists j,
    0 <= j <= 105
    /\ 2 ^ 52 * t <= u * 2 ^ j < 2 ^ 53 * t
    /\ SFdiv 53 1024 (binary_normalize 53 1024 u 0 false)
         (binary_normalize 53 1024 t 0 false)
       = pack (rne (u * 2 ^ j) t) (- j).
Proof.
  intros Hu Ht.
  pose proof (digits_range u Hu) as Hdu. pose proof (digits_range t Ht) as Hdt.
  pose proof (Zdigits2_bounds u ltac:(lia)) as Hbu.
  pose proof (Zdigits2_bounds t ltac:(lia)) as Hbt.
  set (du := Zdigits2 u) in *. set (dt := Zdigits2 t) in *.
  rewrite (of_int_spec u du Hdu Hbu), (of_int_spec t dt Hdt Hbt).
  pose proof (normal_mantissa u du Hdu Hbu) as Hmu.
  pose proof (normal_mantissa t dt Hdt Hbt) as Hmt.
  rewrite SFdiv_normal by lia. cbv zeta.
  set (k := if u * 2 ^ (53 - du) <? t * 2 ^ (53 - dt) then 0 else 1).
  assert (Hk : k = 0 /\ u * 2 ^ (53 - du) < t * 2 ^ (53 - dt)
               \/ k = 1 /\ t * 2 ^ (53 - dt) <= u * 2 ^ (53 - du)).
  { unfold k. destruct (Z.ltb_spec (u * 2 ^ (53 - du)) (t * 2 ^ (53 - dt))); lia. }
  clearbody k.
  exists (53 - k + dt - du).
  assert (Hj : 0 <= 53 - k + dt - du <= 105) by lia.
  split; [exact Hj |].
  set (j := 53 - k + dt - du) in *.
  assert (HA : 0 < 2 ^ (53 - du)) by (apply Z.pow_pos_nonneg; lia).
  assert (HB : 0 < 2 ^ (53 - dt)) by (apply Z.pow_pos_nonneg; lia).
  assert (HK : 0 < 2 ^ k) by (apply Z.pow_pos_nonneg; lia).
  assert (HJ : 0 < 2 ^ j) by (apply Z.pow_pos_nonneg; lia).
  assert (Hid : 2 ^ (53 - dt) * 2 ^ k * 2 ^ j = 2 ^ (53 - du) * 2 ^ 53).
  { rewrite <- !pow2_split by lia. f_equal. unfold j. lia. }
  assert (Hk2 : k = 0 /\ 2 ^ k = 1 \/ k = 1 /\ 2 ^ k = 2).
  { destruct Hk as [[-> _] | [-> _]]; [left | right]; split; reflexivity. }
  set (A := 2 ^ (53 - du)) in *. set (B := 2 ^ (53 - dt)) in *.
  set (K := 2 ^ k) in *. set (J := 2 ^ j) in *.
  assert (Ha : 0 < B * K) by nia.
  assert (E1 : B * K * (u * J) = u * A * 2 ^ 53)
    by (replace (u * A * 2 ^ 53) with (u * (A * 2 ^ 53)) by ring;
        rewrite <- Hid; ring).
  assert (E2 : B * K * t = t * B * K) by ring.
  assert (P53 : 2 ^ 53 = 2 * 2 ^ 52) by reflexivity.
  assert (P52 : 0 < 2 ^ 52) by reflexivity.
  split.
  - split.
    + apply (Z.mul_le_mono_pos_l _ _ (B * K) Ha).
      replace (B * K * (2 ^ 52 * t)) with (2 ^ 52 * (t * B * K)) by ring.
      rewrite E1. destruct Hk2 as [[-> ->] | [-> ->]]; nia.
    + apply (Z.mul_lt_mono_pos_l (B * K) _ _ Ha).
      replace (B * K * (2 ^ 53 * t)) with (2 ^ 53 * (t * B * K)) by ring.
      rewrite E1. destruct Hk2 as [[-> ->] | [-> ->]]; nia.
  - rewrite <- (rne_scale (B * K) (u * J) t) by lia.
    rewrite E1, E2. f_equal. unfold j. lia.
Qed.

Lemma of_int_100 : binary_normalize 53 1024 100 0 false = float_100.
Proof. vm_compute. reflexivity. Qed.

Lemma of_int_80 : binary_normalize 53 1024 80 0 false = float_80.
Proof. vm_compute. reflexivity. Qed.

Lemma rne_range (N D : Z) :
  0 < D -> 2 ^ 52 * D <= N < 2 ^ 53 * D -> 2 ^ 52 <= rne N D <= 2 ^ 53.
Proof.
  intros HD HN.
  assert (P52 : 0 < 2 ^ 52) by reflexivity.
  pose proof (rne_bounds N D HD ltac:(nia)) as Hb.
  assert (2 ^ 52 <= N / D) by (apply Z.div_le_lower_bound; lia).
  assert (N / D < 2 ^ 53) by (apply Z.div_lt_upper_bound; lia).
  lia.
Qed.

Lemma mul_100_spec (mx ex : Z) :
  2 ^ 52 <= mx < 2 ^ 53 -> -1000 <= ex <= 0 ->
  SFmul 53 1024 (S754_finite false (Z.to_pos mx) ex) float_100
  = let k := if 25 * mx <? 2 ^ 57 then 4 else 5 in
    pack (rne (25 * mx) (2 ^ k)) (ex + 2 + k).
Proof.
  intros Hmx Hex. destruct mx as [| p | p]; try lia.
  unfold float_100. cbn [SFmul Z.to_pos xorb].
  rewrite Pos2Z.inj_mul.
  change (Zpos 7036874417766400) with (2 ^ 48 * 25).
  cbv zeta.
  destruct (Z.ltb_spec (25 * Zpos p) (2 ^ 57)) as [Hlt | Hge].
  - rewrite (binary_round_aux_located _ _ _ (Zpos p * (2 ^ 48 * 25)) 1 52);
      [| apply located_exact; lia | lia | | lia | lia].
    + replace (Zpos p * (2 ^ 48 * 25)) with (2 ^ 48 * (25 * Zpos p)) by ring.
      change (1 * 2 ^ 52) with (2 ^ 48 * 2 ^ 4).
      rewrite rne_scale by reflexivity. f_equal. lia.
    + change (2 ^ 52 * 2 ^ 52) with (2 ^ 48 * 2 ^ 56).
      change (2 ^ 53 * 2 ^ 52) with (2 ^ 48 * 2 ^ 57).
      change (2 ^ 52) with 4503599627370496 in Hmx.
      change (2 ^ 56) with 72057594037927936.
      lia.
  - rewrite (binary_round_aux_located _ _ _ (Zpos p * (2 ^ 48 * 25)) 1 53);
      [| apply located_exact; lia | lia | | lia | lia].
    + replace (Zpos p * (2 ^ 48 * 25)) with (2 ^ 48 * (25 * Zpos p)) by ring.
      change (1 * 2 ^ 53) with (2 ^ 48 * 2 ^ 5).
      rewrite rne_scale by reflexivity. f_equal. lia.
    + change (2 ^ 52 * 2 ^ 53) with (2 ^ 48 * 2 ^ 57).
      change (2 ^ 53 * 2 ^ 53) with (2 ^ 48 * 2 ^ 58).
      change (2 ^ 53) with 9007199254740992 in Hmx.
      change (2 ^ 58) with 288230376151711744.
      lia.
Qed.

Lemma leb_80 (m e : Z) :
  0 < m ->
  SFleb float_80 (S754_finite false (Z.to_pos m) e)
  = if e <? -46 then false
    else if -46 <? e then true
    else 5629499534213120 <=? m.
Proof.
  intros Hm. destruct m as [| p | p]; try lia.
  unfold SFleb, float_80. cbn [SFcompare Z.to_pos].
  destruct (Z.compare_spec (-46) e) as [E | E | E].
  - replace (e <? -46) with false by (symmetry; apply Z.ltb_ge; lia).
    replace (-46 <? e) with false by (symmetry; apply Z.ltb_ge; lia).
    change (Pos.compare_cont Eq 5629499534213120 p)
      with (Z.compare 5629499534213120 (Zpos p)).
    unfold Z.leb. destruct (5629499534213120 ?= Zpos p); reflexivity.
  - replace (e <? -46) with false by (symmetry; apply Z.ltb_ge; lia).
    replace (-46 <? e) with true by (symmetry; apply Z.ltb_lt; lia).
    reflexivity.
  - replace (e <? -46) with true by (symmetry; apply Z.ltb_lt; lia).
    reflexivity.
Qed.

Lemma ge_80_mul_100 (mx ex : Z) :
  2 ^ 52 <= mx < 2 ^ 53 -> -1000 <= ex <= -52 ->
  SFleb float_80 (SFmul 53 1024 (S754_finite false (Z.to_pos mx) ex) float_100)
  = (ex =? -52) || ((ex =? -53) && (mantissa_below_0_8 <=? mx)).
Proof.
  intros Hmx Hex. rewrite mul_100_spec by lia. cbv zeta.
  unfold mantissa_below_0_8.
  change (2 ^ 52) with 4503599627370496 in Hmx.
  change (2 ^ 53) with 9007199254740992 in Hmx.
  destruct (Z.ltb_spec (25 * mx) (2 ^ 57)) as [Hk | Hk];
    change (2 ^ 57) with 144115188075855872 in Hk.
  - (* the product has 105 bits *)
    pose proof (rne_range (25 * mx) (2 ^ 4) ltac:(reflexivity)) as Hr.
    change (2 ^ 52 * 2 ^ 4) with 72057594037927936 in Hr.
    change (2 ^ 53 * 2 ^ 4) with 144115188075855872 in Hr.
    specialize (Hr ltac:(lia)).
    change (2 ^ 52) with 4503599627370496 in Hr.
    change (2 ^ 53) with 9007199254740992 in Hr.
    assert (Hlow : 7036874417766400 <= rne (25 * mx) (2 ^ 4)).
    { apply rne_ge; [reflexivity | lia |]. change (2 ^ 4) with 16. lia. }
    unfold pack. change (2 ^ 53) with 9007199254740992.
    change (2 ^ 52) with 4503599627370496.
    destruct (Z.ltb_spec (rne (25 * mx) (2 ^ 4)) 9007199254740992).
    + rewrite leb_80 by lia.
      destruct (Z.eqb_spec ex (-52)), (Z.eqb_spec ex (-53)),
        (Z.leb_spec 7205759403792793 mx),
        (Z.ltb_spec (ex + 2 + 4) (-46)), (Z.ltb_spec (-46) (ex + 2 + 4)),
        (Z.leb_spec 5629499534213120 (rne (25 * mx) (2 ^ 4)));
        simpl; try reflexivity; lia.
    + change (Z.to_pos 4503599627370496) with (Z.to_pos (Zpos 4503599627370496)).
      rewrite leb_80 by lia.
      destruct (Z.eqb_spec ex (-52)), (Z.eqb_spec ex (-53)),
        (Z.leb_spec 7205759403792793 mx),
        (Z.ltb_spec (ex + 2 + 4 + 1) (-46)), (Z.ltb_spec (-46) (ex + 2 + 4 + 1));
        simpl; try reflexivity; lia.
  - (* the product has 106 bits *)
    pose proof (rne_range (25 * mx) (2 ^ 5) ltac:(reflexivity)) as Hr.
    change (2 ^ 52 * 2 ^ 5) with 144115188075855872 in Hr.
    change (2 ^ 53 * 2 ^ 5) with 288230376151711744 in Hr.
    specialize (Hr ltac:(lia)).
    change (2 ^ 52) with 4503599627370496 in Hr.
    change (2 ^ 53) with 9007199254740992 in Hr.
    assert (Hup : rne (25 * mx) (2 ^ 5) <= 9007199254740991).
    { apply rne_le; [reflexivity | lia |]. change (2 ^ 5) with 32. lia. }
    assert (Hge : 7205759403792793 <= mx ->
                  5629499534213120 <= rne (25 * mx) (2 ^ 5)).
    { intros H. apply rne_ge_even; [reflexivity | lia | reflexivity |].
      change (2 ^ 5) with 32. lia. }
    assert (Hlt : mx < 7205759403792793 ->
                  rne (25 * mx) (2 ^ 5) <= 5629499534213119).
    { intros H. apply rne_le; [reflexivity | lia |].
      change (2 ^ 5) with 32. lia. }
    unfold pack. change (2 ^ 53) with 9007199254740992.
    replace (rne (25 * mx) (2 ^ 5) <? 9007199254740992) with true
      by (symmetry; apply Z.ltb_lt; lia).
    rewrite leb_80 by lia.
    destruct (Z.eqb_spec ex (-52)), (Z.eqb_spec ex (-53)),
      (Z.leb_spec 7205759403792793 mx),
      (Z.ltb_spec (ex + 2 + 5) (-46)), (Z.ltb_spec (-46) (ex + 2 + 5)),
      (Z.leb_spec 5629499534213120 (rne (25 * mx) (2 ^ 5)));
      simpl; try reflexivity; lia.
Qed.

Lemma pack_normal (r e : Z) :
  2 ^ 52 <= r < 2 ^ 53 -> pack r e = S754_finite false (Z.to_pos r) e.
Proof.
  intros Hr. unfold pack.
  replace (r <? 2 ^ 53) with true by (symmetry; apply Z.ltb_lt; lia).
  reflexivity.
Qed.

Lemma pack_carry (e : Z) :
  pack (2 ^ 53) e = S754_finite false (Z.to_pos (2 ^ 52)) (e + 1).
Proof. reflexivity. Qed.

Lemma rate_threshold (u t : Z) :
  0 < u -> u <= t -> t < 2 ^ 50 ->
  SFleb float_80
    (SFmul 53 1024
       (SFdiv 53 1024 (binary_normalize 53 1024 u 0 false)
          (binary_normalize 53 1024 t 0 false))
       float_100)
  = (80 * t <=? 100 * u).
Proof.
  intros Hu Hut Ht.
  assert (P50 : 2 ^ 50 = 1125899906842624) by reflexivity.
  assert (P52 : 2 ^ 52 = 4503599627370496) by reflexivity.
  assert (P53 : 2 ^ 53 = 9007199254740992) by reflexivity.
  destruct (truediv_spec u t ltac:(lia) ltac:(lia)) as (j & Hj & Hb & ->).
  pose proof (rne_range (u * 2 ^ j) t ltac:(lia) Hb) as Hr.
  assert (Hj52 : 52 <= j).
  { destruct (Z.le_gt_cases 52 j) as [H | H]; [assumption |].
    assert (2 ^ j <= 2 ^ 51) by (apply Z.pow_le_mono_r; lia).
    change (2 ^ 51) with 2251799813685248 in *. nia. }
  destruct (Z.eq_dec j 52) as [-> | Hn52].
  { (* the quotient is 1 *)
    assert (u = t) by lia. subst u.
    assert (E : rne (t * 2 ^ 52) t = 2 ^ 52).
    { replace t with (t * 1) at 2 by ring.
      rewrite rne_scale by lia. apply rne_exact. }
    rewrite E, pack_normal by lia.
    rewrite ge_80_mul_100 by lia.
    replace (80 * t <=? 100 * t) with true by (symmetry; apply Z.leb_le; lia).
    reflexivity. }
  destruct (Z.eq_dec j 53) as [-> | Hn53].
  { (* the quotient is in [1/2, 1) *)
    assert (Hlt : u < t) by lia.
    assert (Hr53 : rne (u * 2 ^ 53) t <= 2 ^ 53 - 1).
    { apply rne_le; [lia | lia |]. rewrite P53. lia. }
    rewrite pack_normal by lia.
    rewrite ge_80_mul_100 by lia. unfold mantissa_below_0_8.
    change (-53 =? -52) with false. change (-53 =? -53) with true.
    cbn [orb andb].
    destruct (Z.leb_spec (80 * t) (100 * u)) as [Hge | Hlow].
    - apply Z.leb_le.
      assert (7205759403792794 <= rne (u * 2 ^ 53) t); [| lia].
      apply rne_ge; [lia | lia |]. rewrite P53. lia.
    - apply Z.leb_gt.
      assert (rne (u * 2 ^ 53) t <= 7205759403792792); [| lia].
      apply rne_le; [lia | lia |]. rewrite P53. lia. }
  (* the quotient is below 1/2 *)
  assert (Hj54 : 54 <= j) by lia.
  assert (H54 : 2 ^ 54 <= 2 ^ j) by (apply Z.pow_le_mono_r; lia).
  change (2 ^ 54) with 18014398509481984 in H54.
  replace (80 * t <=? 100 * u) with false by (symmetry; apply Z.leb_gt; nia).
  destruct (Z.eq_dec (rne (u * 2 ^ j) t) (2 ^ 53)) as [E | E].
  - rewrite E, pack_carry. rewrite ge_80_mul_100 by lia.
    unfold mantissa_below_0_8. rewrite P52.
    destruct (Z.eqb_spec (- j + 1) (-52)), (Z.eqb_spec (- j + 1) (-53));
      cbn [orb andb]; try reflexivity; lia.
  - rewrite pack_normal by lia. rewrite ge_80_mul_100 by lia.
    destruct (Z.eqb_spec (- j) (-52)), (Z.eqb_spec (- j) (-53));
      cbn [orb andb]; try reflexivity; lia.
Qed.

End RoundingFacts.

Example rate_8_of_10 : Float64.ge_int (success_rate 8 10) 80 = true.
Proof. vm_compute. reflexivity. Qed.

Example rate_7_of_10 : Float64.ge_int (success_rate 7 10) 80 = false.
Proof. vm_compute. reflexivity. Qed.

(** The success rate reaches 80 exactly when [upload_count / total_files] is
    at least 0.8, for every batch of fewer than [2^50] files. *)
Lemma success_rate_threshold (upload_count total_files : Z) :
  (0 < upload_count)%Z -> (upload_count <= total_files)%Z ->
  (total_files < 2 ^ 50)%Z ->
  Float64.ge_int (success_rate upload_count total_files) 80
  = (80 * total_files <=? 100 * upload_count)%Z.
Proof.
  intros Hu Hut Ht. unfold success_rate, Float64.ge_int, Float64.mul,
    Float64.truediv, Float64.div, Float64.of_int, Float64.prec, Float64.emax.
  replace (0 <? total_files)%Z with true by (symmetry; apply Z.ltb_lt; lia).
  rewrite RoundingFacts.of_int_100, RoundingFacts.of_int_80.
  now apply RoundingFacts.rate_threshold.
Qed.

Lemma final_report_spec :
  forall (machine_name : pystr) (total_files : Z) (c : counters) (st : State),
    (0 < total_files < 2 ^ 50)%Z ->
    (0 <= upload_count c <= total_files)%Z ->
    exists (st' : State) (new : history),
      final_report machine_name total_files c st
      = (Ok (80 * total_files <=? 100 * upload_count c)%Z, st')
      /\ new_events st st' new
      /\ count is_ok_fput new = 0%nat.
Proof.
  intros m total c st Ht Hu. unfold final_report, new_events.
  destruct (Z.ltb_spec 0 (upload_count c)) as [Hpos | Hzero].
  - rewrite success_rate_threshold by lia.
    destruct (80 * total <=? 100 * upload_count c)%Z;
      unfold bind, ret, logging, record_event;
      do 2 eexists; (split; [reflexivity |]); cbn [trace with_trace].
    + split; [instantiate (1 := [_]); reflexivity | reflexivity].
    + split; [instantiate (1 := [_; _]); reflexivity | reflexivity].
  - replace (0 <? total)%Z with true by (symmetry; apply Z.ltb_lt; lia).
    replace (80 * total <=? 100 * upload_count c)%Z with false
      by (symmetry; apply Z.leb_gt; lia).
    unfold bind, ret, logging, record_event.
    do 2 eexists. split; [reflexivity |]. cbn [trace with_trace].
    split; [instantiate (1 := [_]); reflexivity | reflexivity].
Qed.

(** The bound is not an artefact of the proof: with more than [2^50] files
    the rounding of the quotient and of the product can lift a ratio just
    below 0.8 to a rate of 80. *)
Remark success_rate_rounding_beyond_bound :
  (2 ^ 50 < 1637672591771094)%Z
  /\ Float64.ge_int (success_rate 1310138073416875 1637672591771094) 80 = true
  /\ (80 * 1637672591771094 <=? 100 * 1310138073416875)%Z = false.
Proof. vm_compute. repeat split; reflexivity. Qed.

Lemma count_ok_fput_single (e : event) :
  is_ok_fput e = false -> count is_ok_fput [e] = 0%nat.
Proof. unfold count. simpl. now intros ->. Qed.

(** The batch: its result against the number of files put. *)
Lemma upload_batch_spec :
  forall (machine_name machine_prefix output_path : pystr) (st : State)
         (children : list entry),
    machine_dir st machine_name = Some children ->
    (count_files (os_walk output_path children) < 2 ^ 50)%Z ->
    exists (b : bool) (st' : State) (new : history),
      upload_batch machine_name machine_prefix output_path st = (Ok b, st')
      /\ new_events st st' new
      /\ (0 <= Z.of_nat (count is_ok_fput new)
          <= count_files (os_walk output_path children))%Z
      /\ b = ((count_files (os_walk output_path children) =? 0)%Z
              || (80 * count_files (os_walk output_path children)
                  <=? 100 * Z.of_nat (count is_ok_fput new))%Z).
Proof.
  intros m prefix out st children Hdir Hbound.
  set (w := os_walk out children) in *.
  set (total := count_files w) in *.
  unfold upload_batch, os_walk_machine.
  unfold bind at 1. rewrite Hdir. fold w. fold total.
  destruct (Z.eqb_spec total 0) as [Hzero | Hpos].
  - unfold bind, logging, record_event, ret.
    exists true, (with_trace st (Logged Warning (MsgNoFiles m) :: trace st)),
      [Logged Warning (MsgNoFiles m)].
    split; [reflexivity |]. split; [reflexivity |].
    rewrite Hzero. split; [unfold count; simpl; lia | reflexivity].
  - unfold bind at 1. unfold logging at 1, record_event at 1.
    unfold bind at 1. rewrite machine_dir_with_trace, Hdir. fold w.
    set (st1 := with_trace st (Logged Info (MsgFoundFiles total) :: trace st)).
    destruct (upload_all_uploads prefix out total w
                {| upload_count := 0; file_count := 0; error_count := 0 |} st1)
      as (c & st2 & Hrun & new2 & ns & Hnew2 & _ & _ & _ & _ & _ & _ & Hup
          & Hsum & _ & Herr & _).
    cbn [upload_count error_count] in Hup, Hsum, Herr.
    rewrite attempt_order_length in Hsum. fold total in Hsum.
    assert (Htot : (0 <= total)%Z).
    { unfold total. rewrite <- attempt_order_length. lia. }
    unfold bind at 1. rewrite Hrun.
    destruct (final_report_spec m total c st2 ltac:(lia) ltac:(lia))
      as (st3 & new3 & Hfin & Hnew3 & Hc3).
    exists (80 * total <=? 100 * upload_count c)%Z, st3,
      (new3 ++ new2 ++ [Logged Info (MsgFoundFiles total)]).
    split; [exact Hfin |].
    assert (Hcount : Z.of_nat
                       (count is_ok_fput
                          (new3 ++ new2 ++ [Logged Info (MsgFoundFiles total)]))
                     = upload_count c).
    { rewrite !count_app, Hc3, count_ok_fput_single by reflexivity. lia. }
    split.
    + unfold new_events in *. rewrite Hnew3, Hnew2. unfold st1.
      cbn [trace with_trace]. now rewrite <- !app_assoc.
    + rewrite Hcount. split; [lia |].
      replace (total =? 0)%Z with false by (symmetry; apply Z.eqb_neq; lia).
      reflexivity.
Qed.

(** C2: for every batch whose local directory exists and whose bucket is
    found or made, [upload_to_minio] returns, and it returns [True] exactly
    when there are no files or [uploaded / total >= 0.80], where [uploaded]
    is the number of files put into the store and [total] the number of
    files of the directory (fewer than [2^50]; the rate is a binary64
    number). *)
Theorem upload_succeeds_iff_rate_at_least_80 :
  forall (machine_name base_output_dir_str : pystr) (st : State)
         (children : list entry),
    machine_dir st machine_name = Some children ->
    store_ready machine_name st ->
    (count_files (os_walk (os_path_join base_output_dir_str machine_name) children)
     < 2 ^ 50)%Z ->
    exists (b : bool) (st' : State) (new : history),
      upload_to_minio machine_name base_output_dir_str st = (Ok b, st')
      /\ new_events st st' new
      /\ (0 <= Z.of_nat (count is_ok_fput new)
          <= count_files
               (os_walk (os_path_join base_output_dir_str machine_name) children))%Z
      /\ b = ((count_files
                 (os_walk (os_path_join base_output_dir_str machine_name) children)
               =? 0)%Z
              || (80 * count_files
                         (os_walk (os_path_join base_output_dir_str machine_name)
                            children)
                  <=? 100 * Z.of_nat (count is_ok_fput new))%Z).
Proof.
  intros m base st children Hdir (Hminio & Hbucket) Hbound.
  set (out := os_path_join base m) in *.
  set (prefix := Sanitizer.sanitize_name m) in *.
  set (total := count_files (os_walk out children)) in *.
  unfold upload_to_minio, get_minio_client, os_path_isdir_machine, ensure_bucket.
  fold out. fold prefix.
  unfold try_except at 1. unfold bind at 1. unfold logging at 1, record_event at 1.
  unfold bind at 1. unfold try_except at 1. unfold bind at 1.
  unfold external at 1. cbn [world trace with_trace]. rewrite Hminio.
  cbn [is_raised]. unfold logging at 1, record_event at 1.
  cbn [world trace with_trace].
  unfold bind at 1. rewrite !machine_dir_with_trace, Hdir. cbn [negb].
  unfold bind at 1. unfold logging at 1, record_event at 1.
  cbn [world trace with_trace].
  unfold bind at 1. unfold try_except at 1. unfold bind at 1.
  unfold external at 1. cbn [world trace with_trace].
  destruct Hbucket as [Hexists | [Hexists Hmake]]; rewrite Hexists;
    cbn [is_raised negb].
  - unfold bind at 1. unfold logging at 1, record_event at 1. unfold ret at 1.
    cbn [world trace with_trace negb].
    match goal with
    | |- context [upload_batch m prefix out ?s] =>
        destruct (upload_batch_spec m prefix out s children)
          as (b & st' & new & Hrun & Hnew & Hcount & Hb)
    end; [rewrite machine_dir_with_trace; exact Hdir | exact Hbound |].
    rewrite Hrun.
    exists b, st', (new ++ [Logged Info MsgUsingExistingBucket;
                            Called (BucketExists MINIO_BUCKET_NAME) false;
                            Logged Info (MsgUsingPrefix prefix m);
                            Logged Info MsgConnected;
                            Called Minio false;
                            Logged Info (MsgStartingUpload m)]).
    split; [reflexivity |]. split.
    + unfold new_events in *. rewrite Hnew. cbn [trace with_trace].
      now rewrite <- app_assoc.
    + rewrite count_app. replace (count is_ok_fput [_; _; _; _; _; _]) with 0%nat
        by reflexivity.
      rewrite Nat.add_0_r. split; assumption.
  - unfold bind at 1. unfold external at 1. cbn [world trace with_trace].
    rewrite Hmake. cbn [is_raised].
    unfold bind at 1. unfold logging at 1, record_event at 1. unfold ret at 1.
    cbn [world trace with_trace negb].
    match goal with
    | |- context [upload_batch m prefix out ?s] =>
        destruct (upload_batch_spec m prefix out s children)
          as (b & st' & new & Hrun & Hnew & Hcount & Hb)
    end; [rewrite machine_dir_with_trace; exact Hdir | exact Hbound |].
    rewrite Hrun.
    exists b, st', (new ++ [Logged Info MsgCreatedBucket;
                            Called (MakeBucket MINIO_BUCKET_NAME) false;
                            Called (BucketExists MINIO_BUCKET_NAME) false;
                            Logged Info (MsgUsingPrefix prefix m);
                            Logged Info MsgConnected;
                            Called Minio false;
                            Logged Info (MsgStartingUpload m)]).
    split; [reflexivity |]. split.
    + unfold new_events in *. rewrite Hnew. cbn [trace with_trace].
      now rewrite <- app_assoc.
    + rewrite count_app. replace (count is_ok_fput [_; _; _; _; _; _; _]) with 0%nat
        by reflexivity.
      rewrite Nat.add_0_r. split; assumption.
Qed.

(** The same on ten files of which two are refused by the store. *)
Lemma upload_succeeds_iff_rate_at_least_80_witness :
  let st := ten_files_state [py "output/m1/log8"; py "output/m1/log9"] in
  let total := count_files (os_walk (os_path_join (py "output") (py "m1")) ten_files) in
  exists (b : bool) (st' : State) (new : history),
    upload_to_minio (py "m1") (py "output") st = (Ok b, st')
    /\ new_events st st' new
    /\ (0 <= Z.of_nat (count is_ok_fput new) <= total)%Z
    /\ b = ((total =? 0)%Z
            || (80 * total <=? 100 * Z.of_nat (count is_ok_fput new))%Z).
Proof.
  intros st total.
  apply (upload_succeeds_iff_rate_at_least_80 (py "m1") (py "output") st ten_files).
  - reflexivity.
  - split; [reflexivity | left; reflexivity].
  - reflexivity.
Defined.

(** Eight of ten files uploaded: success. Seven of ten: failure. *)
Example eight_of_ten_succeeds :
  let run := upload_to_minio (py "m1") (py "output")
               (ten_files_state [py "output/m1/log8"; py "output/m1/log9"]) in
  fst run = Ok true /\ count is_ok_fput (trace (snd run)) = 8%nat.
Proof. vm_compute. split; reflexivity. Qed.

Example seven_of_ten_fails :
  let run := upload_to_minio (py "m1") (py "output")
               (ten_files_state
                  [py "output/m1/log7"; py "output/m1/log8"; py "output/m1/log9"]) in
  fst run = Ok false /\ count is_ok_fput (trace (snd run)) = 7%nat.
Proof. vm_compute. split; reflexivity. Qed.

(** * Further properties *)

(** ** The shape of a sanitized name *)

Module SanitizerShape.
Import Sanitizer.

Lemma sanitize_name_folded (name : pystr) :
  sanitize_name name
  = finish (strip dot_or_hyphen (collapse ch_dot (collapse ch_hyphen (folded name)))).
Proof. reflexivity. Qed.

Lemma allowed_ends (s : pystr) :
  Forall (fun c => is_allowed c = true) s -> head_kept s = true -> s <> [] ->
  match_leading_alnum s = true.
Proof.
  intros F K Hne. destruct s as [| x t]; [congruence |].
  inversion F as [| ? ? Hx _]; subst.
  cbn [head_kept match_leading_alnum] in *.
  apply negb_true_iff in K. unfold is_allowed in Hx. unfold dot_or_hyphen in K.
  apply orb_false_iff in K. destruct K as [K1 K2].
  rewrite K1, K2 in Hx. now rewrite !orb_false_r in Hx.
Qed.

Lemma clean_sanitize_name (name : pystr) : clean (sanitize_name name).
Proof.
  rewrite SanitizerFacts.sanitize_name_finish.
  pose proof (SanitizerFacts.clean_cleaned name) as Hc.
  rewrite (SanitizerFacts.finish_clean _ Hc).
  destruct (Nat.leb_spec (List.length (cleaned name)) 1) as [H | H]; [exact Hc |].
  apply SanitizerFacts.clean_append_z; [exact Hc |].
  destruct (cleaned name); [simpl in H; lia | discriminate].
Qed.

Lemma lower_char_twice (c : codepoint) :
  flat_map lower_char (lower_char c) = lower_char c.
Proof.
  unfold lower_char at 2 3.
  destruct (is_upper c) eqn:U.
  - unfold is_upper in U. apply andb_true_iff in U. destruct U as [U1 U2].
    apply N.leb_le in U1. apply N.leb_le in U2.
    cbn [flat_map]. rewrite app_nil_r. unfold lower_char, is_upper.
    replace (65 <=? c + 32)%N with true by (symmetry; apply N.leb_le; lia).
    replace (c + 32 <=? 90)%N with false by (symmetry; apply N.leb_gt; lia).
    replace (N.eqb (c + 32) 8490) with false by (symmetry; apply N.eqb_neq; lia).
    replace (N.eqb (c + 32) 304) with false by (symmetry; apply N.eqb_neq; lia).
    reflexivity.
  - destruct (N.eqb c 8490) eqn:K; [reflexivity |].
    destruct (N.eqb c 304) eqn:I; [reflexivity |].
    cbn [flat_map]. rewrite app_nil_r. unfold lower_char. now rewrite U, K, I.
Qed.

Lemma lower_app (a b : pystr) : lower (a ++ b) = lower a ++ lower b.
Proof. apply flat_map_app. Qed.

Lemma lower_twice (name : pystr) : lower (lower name) = lower name.
Proof.
  induction name as [| c t IH]; [reflexivity |].
  change (lower (c :: t)) with (lower_char c ++ lower t).
  rewrite lower_app, IH. f_equal. apply lower_char_twice.
Qed.

Lemma hyphenated_flat_map (name : pystr) :
  replace_char ch_space ch_hyphen
    (replace_char ch_underscore ch_hyphen (lower name))
  = flat_map hyphenated name.
Proof.
  induction name as [| c t IH]; [reflexivity |].
  change (lower (c :: t)) with (lower_char c ++ lower t).
  cbn [flat_map]. rewrite <- IH. unfold hyphenated, replace_char.
  now rewrite !map_app.
Qed.

Lemma hyphenated_separator (old : codepoint) (name : pystr) :
  hyphenated old = [ch_hyphen] ->
  flat_map hyphenated (replace_char old ch_hyphen name) = flat_map hyphenated name.
Proof.
  intros Hold. induction name as [| c t IH]; [reflexivity |].
  cbn [replace_char map flat_map]. fold (replace_char old ch_hyphen t).
  rewrite IH. f_equal.
  destruct (N.eqb_spec c old) as [-> | _]; [| reflexivity].
  now rewrite Hold.
Qed.

Lemma folded_separator (old : codepoint) (name : pystr) :
  hyphenated old = [ch_hyphen] ->
  folded (replace_char old ch_hyphen name) = folded name.
Proof.
  intros Hold. unfold folded.
  now rewrite !hyphenated_flat_map, hyphenated_separator.
Qed.

End SanitizerShape.

(** X1: [sanitize_name] returns a well-formed name for every input: only
    characters of [[a-z0-9.-]], no two hyphens and no two dots in a row,
    and, unless it is empty, a letter or a digit as first and as last
    character. The test that would prepend ["a"] never holds; the result is
    the cleaned name, with ["z"] appended when it has two or more
    characters. *)
Theorem sanitize_name_well_formed :
  forall name : pystr,
    let s := Sanitizer.sanitize_name name in
    Forall (fun c => Sanitizer.is_allowed c = true) s
    /\ Sanitizer.no_run Sanitizer.ch_hyphen s = true
    /\ Sanitizer.no_run Sanitizer.ch_dot s = true
    /\ (s <> [] ->
        Sanitizer.match_leading_alnum s = true
        /\ Sanitizer.match_leading_alnum (rev s) = true)
    /\ ((0 <? List.length (Sanitizer.cleaned name))%nat
        && negb (Sanitizer.match_leading_alnum (Sanitizer.cleaned name)) = false)
    /\ s = (if (List.length (Sanitizer.cleaned name) <=? 1)%nat
            then Sanitizer.cleaned name
            else Sanitizer.cleaned name ++ [Sanitizer.ch_z]).
Proof.
  intros name s.
  destruct (SanitizerShape.clean_sanitize_name name) as (F & H & D & K & Kr).
  fold s in F, H, D, K, Kr.
  split; [exact F |]. split; [exact H |]. split; [exact D |].
  split; [| split].
  - intros Hne. split.
    + now apply SanitizerShape.allowed_ends.
    + apply SanitizerShape.allowed_ends; [now apply Forall_rev | exact Kr |].
      intros E. apply Hne. apply (f_equal (@rev codepoint)) in E.
      now rewrite rev_involutive in E.
  - destruct (SanitizerFacts.clean_cleaned name) as (F' & _ & _ & K' & _).
    destruct (Sanitizer.cleaned name) as [| x t] eqn:E; [reflexivity |].
    rewrite (SanitizerShape.allowed_ends (x :: t) F' K'); [reflexivity | discriminate].
  - unfold s. rewrite SanitizerFacts.sanitize_name_finish.
    apply SanitizerFacts.finish_clean, SanitizerFacts.clean_cleaned.
Qed.

(** X2: [sanitize_name] does not tell apart names that differ in the case
    of their letters or in the choice between underscore, space and hyphen:
    lowering a name first, or writing a hyphen for its underscores or for
    its spaces, gives the same sanitized name. Such machines share one
    prefix in the bucket. *)
Theorem sanitize_name_collisions :
  forall name : pystr,
    Sanitizer.sanitize_name (Sanitizer.lower name) = Sanitizer.sanitize_name name
    /\ Sanitizer.sanitize_name
         (replace_char Sanitizer.ch_underscore Sanitizer.ch_hyphen name)
       = Sanitizer.sanitize_name name
    /\ Sanitizer.sanitize_name
         (replace_char Sanitizer.ch_space Sanitizer.ch_hyphen name)
       = Sanitizer.sanitize_name name.
Proof.
  intros name. split; [| split].
  - unfold Sanitizer.sanitize_name. now rewrite SanitizerShape.lower_twice.
  - rewrite !SanitizerShape.sanitize_name_folded.
    now rewrite SanitizerShape.folded_separator.
  - rewrite !SanitizerShape.sanitize_name_folded.
    now rewrite SanitizerShape.folded_separator.
Qed.

(** ** Relations kept by statements *)

Section Respects.

Variable R : State -> State -> Prop.
Hypothesis R_refl : forall st, R st st.
Hypothesis R_trans : forall a b c, R a b -> R b c -> R a c.

Lemma respects_ret {A} (a : A) : respects R (ret a).
Proof. intros st r st' H. inversion H; subst. apply R_refl. Qed.

Lemma respects_raise {A} (e : exn) : respects R (@raise A e).
Proof. intros st r st' H. inversion H; subst. apply R_refl. Qed.

Lemma respects_read {A} (f : State -> A) : respects R (fun st => (Ok (f st), st)).
Proof. intros st r st' H. inversion H; subst. apply R_refl. Qed.

Lemma respects_bind {A B} (m : M A) (k : A -> M B) :
  respects R m -> (forall a, respects R (k a)) -> respects R (bind m k).
Proof.
  intros Hm Hk st r st' H. unfold bind in H.
  destruct (m st) as [[a | e] st1] eqn:E.
  - eapply R_trans; [exact (Hm _ _ _ E) | exact (Hk a _ _ _ H)].
  - inversion H; subst. exact (Hm _ _ _ E).
Qed.

Lemma respects_try_except {A} (m : M A) (handler : exn -> M A) :
  respects R m -> (forall e, respects R (handler e)) ->
  respects R (try_except m handler).
Proof.
  intros Hm Hh st r st' H. unfold try_except in H.
  destruct (m st) as [[a | e] st1] eqn:E.
  - inversion H; subst. exact (Hm _ _ _ E).
  - eapply R_trans; [exact (Hm _ _ _ E) | exact (Hh e _ _ _ H)].
Qed.

Lemma respects_if {A} (b : bool) (m1 m2 : M A) :
  respects R m1 -> respects R m2 -> respects R (if b then m1 else m2).
Proof. now destruct b. Qed.

Lemma respects_for_each {A S} (l : list A) (body : A -> S -> M S) :
  (forall x s, respects R (body x s)) -> forall s, respects R (for_each l body s).
Proof.
  intros Hb. induction l as [| x l IH]; intros s; simpl.
  - apply respects_ret.
  - apply respects_bind; [apply Hb | intros s'; apply IH].
Qed.

End Respects.

Lemma emits_refl (W : World -> Prop) (P : event -> bool) (st : State) :
  emits W P st st.
Proof. split; [reflexivity |]. intros _. now exists []. Qed.

Lemma emits_trans (W : World -> Prop) (P : event -> bool) (a b c : State) :
  emits W P a b -> emits W P b c -> emits W P a c.
Proof.
  intros [W1 H1] [W2 H2]. split; [congruence |].
  intros HW. destruct (H1 HW) as (n1 & T1 & F1).
  rewrite <- W1 in HW. destruct (H2 HW) as (n2 & T2 & F2).
  exists (n2 ++ n1). split.
  - rewrite T2, T1. now rewrite app_assoc.
  - rewrite forallb_app. now rewrite F1, F2.
Qed.

Lemma emits_logging (W : World -> Prop) (P : event -> bool)
  (level : log_level) (msg : log_msg) :
  P (Logged level msg) = true -> respects (emits W P) (logging level msg).
Proof.
  intros HP st r st' H. inversion H; subst. split; [reflexivity |].
  intros _. exists [Logged level msg]. simpl. now rewrite HP.
Qed.

Lemma emits_external {A} (W : World -> Prop) (P : event -> bool)
  (c : call) (answer : World -> history -> result A) :
  (forall w h, W w -> P (Called c (is_raised (answer w h))) = true) ->
  respects (emits W P) (external c answer).
Proof.
  intros HP st r st' H. inversion H; subst. split; [reflexivity |].
  intros HW. eexists [_]. simpl. split; [reflexivity |].
  now rewrite (HP _ _ HW).
Qed.

Ltac emits_step :=
  first
    [ apply respects_ret; apply emits_refl
    | apply respects_raise; apply emits_refl
    | apply respects_read; apply emits_refl
    | apply emits_logging; reflexivity
    | apply respects_bind; [apply emits_trans | | intros ?]
    | apply respects_try_except; [apply emits_trans | | intros ?]
    | apply respects_if
    | apply respects_for_each; [apply emits_refl | apply emits_trans | intros ? ?] ].

(** *** The events of an upload *)

Lemma is_prefix_app (p s : pystr) : is_prefix p (p ++ s) = true.
Proof.
  induction p as [| x p IH]; [reflexivity |].
  simpl. now rewrite N.eqb_refl, IH.
Qed.

Lemma allowed_no_backslash (s : pystr) :
  Forall (fun c => Sanitizer.is_allowed c = true) s ->
  existsb (N.eqb ch_backslash) s = false.
Proof.
  induction 1 as [| x t Hx _ IH]; [reflexivity |].
  cbn [existsb]. rewrite IH, orb_false_r.
  destruct (N.eqb_spec ch_backslash x) as [<- | _]; [discriminate | reflexivity].
Qed.

Lemma replaced_no_backslash (s : pystr) :
  existsb (N.eqb ch_backslash) (replace_char ch_backslash ch_slash s) = false.
Proof.
  induction s as [| x t IH]; [reflexivity |].
  cbn [replace_char map existsb]. fold (replace_char ch_backslash ch_slash t).
  rewrite IH, orb_false_r.
  destruct (N.eqb_spec x ch_backslash) as [-> | Hne]; [reflexivity |].
  apply N.eqb_neq. congruence.
Qed.

Lemma emits_upload_attempts (W : World -> Prop) (P : event -> bool)
  (attempts : list Z) (minio_path file_path file : pystr) (n : Z) :
  (forall w h, W w ->
     P (Called (FputObject MINIO_BUCKET_NAME minio_path file_path)
          (is_raised (fput_object w h MINIO_BUCKET_NAME minio_path file_path)))
     = true) ->
  (forall k, P (Logged Warning (MsgRetry k file)) = true) ->
  P (Called (Sleep 1) false) = true ->
  respects (emits W P) (upload_attempts attempts minio_path file_path file n).
Proof.
  intros Hput Hretry Hsleep.
  induction attempts as [| attempt rest IH]; simpl.
  - emits_step.
  - apply respects_bind; [apply emits_trans | |].
    + apply respects_try_except; [apply emits_trans | |].
      * apply respects_bind; [apply emits_trans | |].
        -- apply emits_external. exact Hput.
        -- intros _. emits_step.
      * intros e. apply respects_if; [| emits_step].
        apply respects_bind; [apply emits_trans | |].
        -- apply emits_logging, Hretry.
        -- intros _. apply respects_bind; [apply emits_trans | |].
           ++ unfold time_sleep. apply emits_external. intros; exact Hsleep.
           ++ intros _. emits_step.
    + intros []; [emits_step | apply IH].
Qed.

Lemma upload_to_minio_emits (machine_name base_output_dir_str : pystr) :
  respects (emits any_world (is_upload_event machine_name))
    (upload_to_minio machine_name base_output_dir_str).
Proof.
  unfold upload_to_minio, get_minio_client, os_path_isdir_machine, ensure_bucket,
    upload_batch, os_walk_machine, final_report, upload_all.
  repeat first
    [ emits_step
    | apply emits_external; intros; reflexivity ].
  destruct x as [[root dirs] files].
  apply respects_for_each; [apply emits_refl | apply emits_trans |].
  intros file c. unfold upload_file.
  apply respects_try_except; [apply emits_trans | |];
    [| intros e; repeat emits_step].
  apply respects_bind; [apply emits_trans | |];
    [repeat emits_step |].
  intros _. apply respects_bind; [apply emits_trans | |];
    [| intros n; emits_step].
  apply emits_upload_attempts; try reflexivity.
  intros w h _. cbn [is_upload_event].
  rewrite str_eqb_refl, (app_assoc _ [ch_slash]), is_prefix_app.
  rewrite !existsb_app, replaced_no_backslash, allowed_no_backslash.
  - reflexivity.
  - destruct (SanitizerFacts.clean_cleaned machine_name) as (F & _).
    rewrite SanitizerFacts.sanitize_name_finish.
    rewrite (SanitizerFacts.finish_clean _ (SanitizerFacts.clean_cleaned machine_name)).
    destruct (_ <=? 1)%nat; [exact F |].
    apply Forall_app. split; [exact F |]. constructor; [reflexivity | constructor].
Qed.

(** X3: whatever the world answers, [upload_to_minio] returns, and all it
    does besides logging is construct the client, look up or make the bucket
    [hpe-log-analysis], put objects into that bucket and sleep one second.
    Every object key starts with the sanitized machine name and a slash and
    holds no backslash. It removes no file, and it calls neither the counter
    store nor the classifier. *)
Theorem upload_to_minio_calls :
  forall (machine_name base_output_dir_str : pystr) (st : State),
    exists (b : bool) (st' : State) (new : history),
      upload_to_minio machine_name base_output_dir_str st = (Ok b, st')
      /\ new_events st st' new
      /\ forallb (is_upload_event machine_name) new = true.
Proof.
  intros m base st.
  destruct (upload_to_minio_returns m base st) as (b & st' & Hrun).
  destruct (upload_to_minio_emits m base st (Ok b) st' Hrun) as [_ Hnew].
  destruct (Hnew I) as (new & Htrace & Hall).
  now exists b, st', new.
Qed.

(** ** The counters of a batch *)

(** X4: the number of files counted before a batch is the number of files
    in the tree of the machine's output directory, and the batch accounts
    for each of them: started from zero, [file_count] ends at that number
    and [upload_count + error_count] equals it, whatever the store answers. *)
Theorem batch_counters_account_for_every_file :
  forall (machine_prefix output_path top : pystr) (total_files : Z)
         (children : list entry) (st : State),
    exists (c' : counters) (st' : State),
      upload_all machine_prefix output_path total_files (os_walk top children)
        {| upload_count := 0; file_count := 0; error_count := 0 |} st
      = (Ok c', st')
      /\ count_files (os_walk top children)
         = Z.of_nat (List.length (files_under top children))
      /\ file_count c' = count_files (os_walk top children)
      /\ (upload_count c' + error_count c' = count_files (os_walk top children))%Z
      /\ (0 <= upload_count c')%Z
      /\ (0 <= error_count c')%Z.
Proof.
  intros prefix out top total children st.
  destruct (upload_all_uploads prefix out total (os_walk top children)
              {| upload_count := 0; file_count := 0; error_count := 0 |} st)
    as (c' & st' & Hrun & new & ns & _ & _ & _ & _ & _ & _ & _ & Hup & Hsum
        & Hfiles & Herr & _).
  cbn [upload_count error_count file_count] in Hup, Hsum, Hfiles, Herr.
  rewrite attempt_order_length in Hsum, Hfiles.
  exists c', st'. split; [exact Hrun |]. split.
  - rewrite <- attempt_order_length.
    now rewrite (Permutation_length (attempt_order_files top children)).
  - repeat split; lia.
Qed.

(** *** The order of the names *)

Lemma str_leb_antisym (a b : pystr) :
  str_leb a b = true -> str_leb b a = true -> a = b.
Proof.
  revert b. induction a as [| x a IH]; intros [| y b]; simpl; try discriminate;
    try reflexivity.
  destruct (N.ltb_spec x y) as [Lxy | Lxy].
  - replace (N.ltb y x) with false by (symmetry; apply N.ltb_ge; lia).
    replace (N.eqb y x) with false by (symmetry; apply N.eqb_neq; lia).
    discriminate.
  - destruct (N.eqb_spec x y) as [-> | Nxy]; [| discriminate].
    rewrite N.ltb_irrefl, N.eqb_refl. intros H1 H2. f_equal. now apply IH.
Qed.

Lemma str_leb_trans (a b c : pystr) :
  str_leb a b = true -> str_leb b c = true -> str_leb a c = true.
Proof.
  revert b c. induction a as [| x a IH]; intros [| y b] [| z c]; simpl;
    try discriminate; try reflexivity.
  destruct (N.ltb_spec x y) as [Lxy | Lxy].
  - intros _. destruct (N.ltb_spec y z) as [Lyz | Lyz].
    + intros _. replace (N.ltb x z) with true by (symmetry; apply N.ltb_lt; lia).
      reflexivity.
    + destruct (N.eqb_spec y z) as [-> | _]; [| discriminate].
      intros _. replace (N.ltb x z) with true by (symmetry; apply N.ltb_lt; lia).
      reflexivity.
  - destruct (N.eqb_spec x y) as [-> | _]; [| discriminate].
    intros Hab. destruct (N.ltb y z); [reflexivity |].
    destruct (N.eqb y z); [| discriminate].
    intros Hbc. now apply (IH b c).
Qed.

Lemma insert_sorted_comm (x y : pystr) (l : list pystr) :
  insert_sorted x (insert_sorted y l) = insert_sorted y (insert_sorted x l).
Proof.
  induction l as [| z l IH].
  - cbn. destruct (str_leb x y) eqn:Exy, (str_leb y x) eqn:Eyx; try reflexivity.
    + now rewrite (str_leb_antisym x y Exy Eyx).
    + apply str_leb_total in Exy. congruence.
  - cbn [insert_sorted].
    destruct (str_leb y z) eqn:Eyz, (str_leb x z) eqn:Exz; cbn [insert_sorted].
    + destruct (str_leb x y) eqn:Exy, (str_leb y x) eqn:Eyx.
      * now rewrite (str_leb_antisym x y Exy Eyx).
      * now rewrite Eyz.
      * now rewrite Exz.
      * apply str_leb_total in Exy. congruence.
    + rewrite Eyz.
      destruct (str_leb x y) eqn:Exy.
      * rewrite (str_leb_trans x y z Exy Eyz) in Exz. discriminate.
      * cbn [insert_sorted]. now rewrite Exz.
    + rewrite Exz.
      destruct (str_leb y x) eqn:Eyx.
      * rewrite (str_leb_trans y x z Eyx Exz) in Eyz. discriminate.
      * cbn [insert_sorted]. now rewrite Eyz.
    + rewrite Exz, Eyz. now rewrite IH.
Qed.

Lemma sorted_permutation (l l' : list pystr) :
  Permutation l l' -> sorted l = sorted l'.
Proof.
  induction 1 as [| x l l' _ IH | x y l | l l' l'' _ IH1 _ IH2]; cbn [sorted].
  - reflexivity.
  - now rewrite IH.
  - apply insert_sorted_comm.
  - congruence.
Qed.

Lemma permutation_filter {A} (p : A -> bool) (l l' : list A) :
  Permutation l l' -> Permutation (filter p l) (filter p l').
Proof.
  induction 1 as [| x l l' _ IH | x y l | l l' l'' _ IH1 _ IH2]; cbn [filter].
  - reflexivity.
  - destruct (p x); [now apply perm_skip | exact IH].
  - destruct (p x), (p y); try reflexivity. apply perm_swap.
  - now transitivity (filter p l').
Qed.

Lemma walk_of_files (top : pystr) (children : list entry) :
  forallb (fun e => negb (is_dir_entry e)) children = true ->
  flat_map (walk_entry top) children = [].
Proof.
  induction children as [| [name | name sub] rest IH]; cbn; try discriminate;
    [reflexivity | exact IH].
Qed.

Lemma permutation_forallb {A} (p : A -> bool) (l l' : list A) :
  Permutation l l' -> forallb p l = true -> forallb p l' = true.
Proof.
  intros HP H. apply forallb_forall. intros x Hx.
  rewrite forallb_forall in H. apply H.
  now apply (Permutation_in x (Permutation_sym HP)).
Qed.

(** X5: the files of one directory are uploaded in an order that depends
    on their names only: two listings of the same entries give the same
    sorted sequence of file names, and for a directory without
    subdirectories the same sequence of uploads. *)
Theorem upload_order_independent_of_listing :
  forall (top : pystr) (children children' : list entry),
    Permutation children children' ->
    sorted (file_names children) = sorted (file_names children')
    /\ (forallb (fun e => negb (is_dir_entry e)) children = true ->
        attempt_order (os_walk top children) = attempt_order (os_walk top children')).
Proof.
  intros top children children' HP.
  assert (Hfiles : sorted (file_names children) = sorted (file_names children')).
  { apply sorted_permutation. unfold file_names.
    now apply Permutation_map, permutation_filter. }
  split; [exact Hfiles |].
  intros Hflat. rewrite !attempt_order_os_walk, Hfiles. f_equal.
  rewrite <- !attempt_order_flat_map.
  rewrite (walk_of_files top children Hflat).
  now rewrite (walk_of_files top children' (permutation_forallb _ _ _ HP Hflat)).
Qed.

(** The same on two files listed in both orders. *)
Lemma upload_order_independent_of_listing_witness :
  let listing := [File (py "b.log"); File (py "a.log")] in
  let listing' := [File (py "a.log"); File (py "b.log")] in
  sorted (file_names listing) = sorted (file_names listing')
  /\ (forallb (fun e => negb (is_dir_entry e)) listing = true ->
      attempt_order (os_walk (py "output/m1") listing)
      = attempt_order (os_walk (py "output/m1") listing')).
Proof.
  intros listing listing'.
  apply (upload_order_independent_of_listing (py "output/m1") listing listing').
  apply perm_swap.
Defined.

(** ** A store that answers every put the same way *)

Lemma upload_attempts_refused :
  forall (minio_path file_path file : pystr) (n : Z) (st : State),
    puts_answer true (world st) ->
    let put := Called (FputObject MINIO_BUCKET_NAME minio_path file_path) true in
    let retry k := [Called (Sleep 1) false; Logged Warning (MsgRetry k file); put] in
    exists e : exn,
      upload_attempts range3 minio_path file_path file n st
      = (Raised e, with_trace st (put :: retry 2%Z ++ retry 1%Z ++ trace st)).
Proof.
  intros mp fp file n st Hw put retry.
  unfold range3, upload_attempts. step_monad.
  pose proof (Hw (trace st) MINIO_BUCKET_NAME mp fp) as H1.
  destruct (fput_object (world st) (trace st) _ _ _) as [[] | e0];
    [discriminate |]. simpl.
  match goal with
  | |- context [fput_object (world st) ?h _ _ _] =>
      pose proof (Hw h MINIO_BUCKET_NAME mp fp) as H2;
      destruct (fput_object (world st) h MINIO_BUCKET_NAME mp fp) as [[] | e1];
      [discriminate |]
  end. simpl.
  match goal with
  | |- context [fput_object (world st) ?h _ _ _] =>
      pose proof (Hw h MINIO_BUCKET_NAME mp fp) as H3;
      destruct (fput_object (world st) h MINIO_BUCKET_NAME mp fp) as [[] | e2];
      [discriminate |]
  end. simpl.
  exists e2. reflexivity.
Qed.

Lemma upload_attempts_accepted :
  forall (minio_path file_path file : pystr) (n : Z) (st : State),
    puts_answer false (world st) ->
    upload_attempts range3 minio_path file_path file n st
    = (Ok (n + 1)%Z,
       with_trace st
         (Called (FputObject MINIO_BUCKET_NAME minio_path file_path) false
            :: trace st)).
Proof.
  intros mp fp file n st Hw.
  unfold range3, upload_attempts. step_monad.
  pose proof (Hw (trace st) MINIO_BUCKET_NAME mp fp) as H1.
  destruct (fput_object (world st) (trace st) _ _ _) as [[] | e0];
    [| discriminate]. reflexivity.
Qed.

Lemma uniform_batch_nil (raised : bool) (c : counters) (st : State) :
  uniform_batch raised 0 c c st st.
Proof.
  exists []. unfold new_events, count. simpl.
  destruct raised; repeat split; lia.
Qed.

Lemma uniform_batch_app (raised : bool) (n1 n2 : nat) (c c1 c2 : counters)
  (st st1 st2 : State) :
  uniform_batch raised n1 c c1 st st1 -> uniform_batch raised n2 c1 c2 st1 st2 ->
  uniform_batch raised (n1 + n2) c c2 st st2.
Proof.
  intros (new1 & T1 & W1 & P1 & O1 & S1 & R1 & F1 & U1 & E1)
         (new2 & T2 & W2 & P2 & O2 & S2 & R2 & F2 & U2 & E2).
  exists (new2 ++ new1). unfold new_events in *. rewrite !count_app.
  split; [rewrite T2, T1; now rewrite app_assoc |].
  split; [congruence |].
  destruct raised; repeat split; lia.
Qed.

Lemma upload_file_uniform :
  forall (raised : bool) (machine_prefix output_path : pystr) (total_files : Z)
         (root file : pystr) (c : counters) (st : State),
    puts_answer raised (world st) ->
    exists (c' : counters) (st' : State),
      upload_file machine_prefix output_path total_files root file c st
      = (Ok c', st')
      /\ uniform_batch raised 1 c c' st st'.
Proof.
  intros raised prefix out total root file c st Hw.
  unfold upload_file.
  set (mp := prefix ++ [ch_slash] ++ _).
  set (fp := os_path_join root file).
  set (progress := (_ || _ || _)%bool).
  unfold try_except at 1. unfold bind at 1.
  destruct raised.
  - destruct progress.
    + unfold logging, record_event at 1.
      destruct (upload_attempts_refused mp fp file (upload_count c)
                  (with_trace st
                     (Logged Info (MsgProgress (file_count c + 1) total file)
                        :: trace st)) Hw) as [e Hrun].
      unfold bind at 1. rewrite Hrun. step_monad.
      do 2 eexists. split; [reflexivity |].
      eexists [_; _; _; _; _; _; _; _; _]. unfold new_events, count. simpl.
      repeat split; lia.
    + unfold ret at 1.
      destruct (upload_attempts_refused mp fp file (upload_count c) st Hw)
        as [e Hrun].
      unfold bind at 1. rewrite Hrun. step_monad.
      do 2 eexists. split; [reflexivity |].
      eexists [_; _; _; _; _; _; _; _]. unfold new_events, count. simpl.
      repeat split; lia.
  - destruct progress.
    + unfold logging, record_event at 1.
      unfold bind at 1.
      rewrite (upload_attempts_accepted mp fp file (upload_count c)
                 (with_trace st
                    (Logged Info (MsgProgress (file_count c + 1) total file)
                       :: trace st)) Hw).
      step_monad. do 2 eexists. split; [reflexivity |].
      eexists [_; _]. unfold new_events, count. simpl.
      repeat split; lia.
    + unfold ret at 1.
      unfold bind at 1. rewrite upload_attempts_accepted by exact Hw.
      step_monad. do 2 eexists. split; [reflexivity |].
      eexists [_]. unfold new_events, count. simpl.
      repeat split; lia.
Qed.

Lemma upload_directory_uniform :
  forall (raised : bool) (machine_prefix output_path : pystr) (total_files : Z)
         (root : pystr) (files : list pystr) (c : counters) (st : State),
    puts_answer raised (world st) ->
    exists (c' : counters) (st' : State),
      for_each files (upload_file machine_prefix output_path total_files root) c st
      = (Ok c', st')
      /\ uniform_batch raised (List.length files) c c' st st'.
Proof.
  intros raised prefix out total root files.
  induction files as [| file files IH]; intros c st Hw; simpl.
  - exists c, st. split; [reflexivity | apply uniform_batch_nil].
  - destruct (upload_file_uniform raised prefix out total root file c st Hw)
      as (c1 & st1 & Hrun1 & Hb1).
    assert (Hw1 : puts_answer raised (world st1)).
    { destruct Hb1 as (new & _ & -> & _). exact Hw. }
    destruct (IH c1 st1 Hw1) as (c2 & st2 & Hrun2 & Hb2).
    exists c2, st2. unfold bind. rewrite Hrun1. split; [assumption |].
    change (S (List.length files)) with (1 + List.length files)%nat.
    eapply uniform_batch_app; eassumption.
Qed.

Lemma upload_all_uniform :
  forall (raised : bool) (machine_prefix output_path : pystr) (total_files : Z)
         (w : list (pystr * list pystr * list pystr)) (c : counters) (st : State),
    puts_answer raised (world st) ->
    exists (c' : counters) (st' : State),
      upload_all machine_prefix output_path total_files w c st = (Ok c', st')
      /\ uniform_batch raised (List.length (attempt_order w)) c c' st st'.
Proof.
  intros raised prefix out total w. unfold upload_all.
  induction w as [| [[root dirs] files] w IH]; intros c st Hw; simpl.
  - exists c, st. split; [reflexivity | apply uniform_batch_nil].
  - destruct (upload_directory_uniform raised prefix out total root
                (sorted files) c st Hw) as (c1 & st1 & Hrun1 & Hb1).
    assert (Hw1 : puts_answer raised (world st1)).
    { destruct Hb1 as (new & _ & -> & _). exact Hw. }
    destruct (IH c1 st1 Hw1) as (c2 & st2 & Hrun2 & Hb2).
    exists c2, st2. unfold bind at 1. rewrite Hrun1. split; [assumption |].
    rewrite length_app, length_map.
    eapply uniform_batch_app; eassumption.
Qed.

(** [upload_to_minio] with the directory in place and the store ready: it
    is the batch, run after the records and calls of the start. *)
Lemma upload_to_minio_ready :
  forall (machine_name base_output_dir_str : pystr) (st : State)
         (children : list entry),
    machine_dir st machine_name = Some children ->
    store_ready machine_name st ->
    exists (st1 : State) (pre : history),
      new_events st st1 pre
      /\ world st1 = world st
      /\ output_root st1 = output_root st
      /\ forallb (fun e => negb (is_fput e) && negb (is_sleep e)
                           && negb (is_retry_record e)
                           && negb (is_failure_record e)) pre = true
      /\ forall (b : bool) (st' : State),
           upload_batch machine_name (Sanitizer.sanitize_name machine_name)
             (os_path_join base_output_dir_str machine_name) st1 = (Ok b, st') ->
           upload_to_minio machine_name base_output_dir_str st = (Ok b, st').
Proof.
  intros m base st children Hdir (Hminio & Hbucket).
  set (out := os_path_join base m) in *.
  set (prefix := Sanitizer.sanitize_name m) in *.
  unfold upload_to_minio, get_minio_client, os_path_isdir_machine, ensure_bucket.
  fold out. fold prefix.
  unfold try_except at 1. unfold bind at 1. unfold logging at 1, record_event at 1.
  unfold bind at 1. unfold try_except at 1. unfold bind at 1.
  unfold external at 1. cbn [world trace with_trace]. rewrite Hminio.
  cbn [is_raised]. unfold logging at 1, record_event at 1.
  cbn [world trace with_trace].
  unfold bind at 1. rewrite !machine_dir_with_trace, Hdir. cbn [negb].
  unfold bind at 1. unfold logging at 1, record_event at 1.
  cbn [world trace with_trace].
  unfold bind at 1. unfold try_except at 1. unfold bind at 1.
  unfold external at 1. cbn [world trace with_trace].
  destruct Hbucket as [Hexists | [Hexists Hmake]]; rewrite Hexists;
    cbn [is_raised negb].
  - unfold bind at 1. unfold logging at 1, record_event at 1. unfold ret at 1.
    cbn [world trace with_trace negb].
    match goal with
    | |- context [upload_batch m prefix out ?s] => exists s
    end.
    eexists [_; _; _; _; _; _].
    split; [unfold new_events; cbn [trace with_trace]; reflexivity |].
    split; [reflexivity |]. split; [reflexivity |]. split; [reflexivity |].
    intros b st' Hrun. rewrite Hrun. reflexivity.
  - unfold bind at 1. unfold external at 1. cbn [world trace with_trace].
    rewrite Hmake. cbn [is_raised].
    unfold bind at 1. unfold logging at 1, record_event at 1. unfold ret at 1.
    cbn [world trace with_trace negb].
    match goal with
    | |- context [upload_batch m prefix out ?s] => exists s
    end.
    eexists [_; _; _; _; _; _; _].
    split; [unfold new_events; cbn [trace with_trace]; reflexivity |].
    split; [reflexivity |]. split; [reflexivity |]. split; [reflexivity |].
    intros b st' Hrun. rewrite Hrun. reflexivity.
Qed.

Lemma count_files_files_under (top : pystr) (children : list entry) :
  count_files (os_walk top children)
  = Z.of_nat (List.length (files_under top children)).
Proof.
  rewrite <- attempt_order_length.
  now rewrite (Permutation_length (attempt_order_files top children)).
Qed.

Lemma upload_batch_uniform :
  forall (raised : bool) (machine_name machine_prefix output_path : pystr)
         (st : State) (children : list entry),
    machine_dir st machine_name = Some children ->
    puts_answer raised (world st) ->
    (raised = false ->
     (Z.of_nat (List.length (files_under output_path children)) < 2 ^ 50)%Z) ->
    let n := List.length (files_under output_path children) in
    exists (st' : State) (new : history),
      upload_batch machine_name machine_prefix output_path st
      = (Ok (if raised then (n =? 0)%nat else true), st')
      /\ new_events st st' new
      /\ count is_fput new = (if raised then 3 * n else n)%nat
      /\ count is_ok_fput new = (if raised then 0 else n)%nat
      /\ count is_sleep new = (if raised then 2 * n else 0)%nat
      /\ count is_retry_record new = (if raised then 2 * n else 0)%nat
      /\ count is_failure_record new = (if raised then n else 0)%nat.
Proof.
  intros raised m prefix out st children Hdir Hw Hbound n.
  pose proof (count_files_files_under out children) as Htotal.
  fold n in Htotal, Hbound.
  assert (Hlen : List.length (attempt_order (os_walk out children)) = n).
  { apply Nat2Z.inj. now rewrite attempt_order_length. }
  set (w := os_walk out children) in *.
  set (total := count_files w) in *.
  unfold upload_batch, os_walk_machine.
  unfold bind at 1. rewrite Hdir. fold w. fold total.
  destruct (Z.eqb_spec total 0) as [Hzero | Hpos].
  - assert (Hn : n = 0%nat) by lia. rewrite Hn.
    unfold bind, logging, record_event, ret.
    eexists. exists [Logged Warning (MsgNoFiles m)].
    split; [destruct raised; reflexivity |].
    split; [reflexivity |]. unfold count. simpl.
    destruct raised; repeat split.
  - unfold bind at 1. unfold logging at 1, record_event at 1.
    unfold bind at 1. rewrite machine_dir_with_trace, Hdir. fold w.
    set (st1 := with_trace st (Logged Info (MsgFoundFiles total) :: trace st)).
    destruct (upload_all_uniform raised prefix out total w
                {| upload_count := 0; file_count := 0; error_count := 0 |} st1 Hw)
      as (c & st2 & Hrun & new2 & Hnew2 & _ & P2 & O2 & S2 & R2 & F2 & U2 & E2).
    rewrite Hlen in P2, O2, S2, R2, F2, U2, E2.
    cbn [upload_count error_count] in U2, E2.
    unfold bind at 1. rewrite Hrun. unfold final_report, new_events in *.
    destruct raised.
    + replace (0 <? upload_count c)%Z with false by (symmetry; apply Z.ltb_ge; lia).
      replace (0 <? total)%Z with true by (symmetry; apply Z.ltb_lt; lia).
      replace (n =? 0)%nat with false by (symmetry; apply Nat.eqb_neq; lia).
      unfold bind, logging, record_event, ret.
      eexists. exists ([Logged Error (MsgNothingUploaded m)] ++ new2
                       ++ [Logged Info (MsgFoundFiles total)]).
      split; [reflexivity |].
      split; [cbn [trace with_trace]; rewrite Hnew2; unfold st1;
              cbn [trace with_trace]; now rewrite <- !app_assoc |].
      rewrite !count_app, P2, O2, S2, R2, F2. unfold count. simpl.
      repeat split; lia.
    + replace (0 <? upload_count c)%Z with true by (symmetry; apply Z.ltb_lt; lia).
      specialize (Hbound eq_refl).
      rewrite success_rate_threshold by lia.
      replace (80 * total <=? 100 * upload_count c)%Z with true
        by (symmetry; apply Z.leb_le; lia).
      unfold bind, logging, record_event, ret.
      eexists. exists ([Logged Info (MsgUploaded (upload_count c) total)] ++ new2
                       ++ [Logged Info (MsgFoundFiles total)]).
      split; [reflexivity |].
      split; [cbn [trace with_trace]; rewrite Hnew2; unfold st1;
              cbn [trace with_trace]; now rewrite <- !app_assoc |].
      rewrite !count_app, P2, O2, S2, R2, F2. unfold count. simpl.
      repeat split; lia.
Qed.

Lemma count_none (p : event -> bool) (h : history) :
  forallb (fun e => negb (p e)) h = true -> count p h = 0%nat.
Proof.
  unfold count. induction h as [| e h IH]; [reflexivity |].
  cbn [forallb filter]. intros H. apply andb_true_iff in H. destruct H as [He Hh].
  apply negb_true_iff in He. rewrite He. now apply IH.
Qed.

Lemma upload_to_minio_uniform :
  forall (raised : bool) (machine_name base_output_dir_str : pystr) (st : State)
         (children : list entry),
    machine_dir st machine_name = Some children ->
    store_ready machine_name st ->
    puts_answer raised (world st) ->
    let n := List.length
               (files_under (os_path_join base_output_dir_str machine_name)
                  children) in
    (raised = false -> (Z.of_nat n < 2 ^ 50)%Z) ->
    exists (st' : State) (new : history),
      upload_to_minio machine_name base_output_dir_str st
      = (Ok (if raised then (n =? 0)%nat else true), st')
      /\ new_events st st' new
      /\ count is_fput new = (if raised then 3 * n else n)%nat
      /\ count is_ok_fput new = (if raised then 0 else n)%nat
      /\ count is_sleep new = (if raised then 2 * n else 0)%nat
      /\ count is_retry_record new = (if raised then 2 * n else 0)%nat
      /\ count is_failure_record new = (if raised then n else 0)%nat.
Proof.
  intros raised m base st children Hdir Hready Hw n Hbound.
  destruct (upload_to_minio_ready m base st children Hdir Hready)
    as (st1 & pre & Hpre & HW1 & HR1 & Hquiet & Hlift).
  assert (Hdir1 : machine_dir st1 m = Some children).
  { unfold machine_dir in *. now rewrite HR1. }
  assert (Hw1 : puts_answer raised (world st1)) by (rewrite HW1; exact Hw).
  destruct (upload_batch_uniform raised m (Sanitizer.sanitize_name m)
              (os_path_join base m) st1 children Hdir1 Hw1 Hbound)
    as (st' & new & Hrun & Hnew & P & O & S & R & F).
  fold n in Hrun, P, O, S, R, F.
  exists st', (new ++ pre). split; [now apply Hlift |].
  split; [unfold new_events in *; rewrite Hnew, Hpre; now rewrite app_assoc |].
  assert (Hq : forall p : event -> bool,
             (forall e, negb (is_fput e) && negb (is_sleep e)
                        && negb (is_retry_record e) && negb (is_failure_record e)
                        = true -> negb (p e) = true) ->
             count p pre = 0%nat).
  { intros p Hp. apply count_none. rewrite forallb_forall in *.
    intros e He. apply Hp, Hquiet, He. }
  rewrite !count_app.
  rewrite (Hq is_fput), (Hq is_ok_fput), (Hq is_sleep), (Hq is_retry_record),
    (Hq is_failure_record).
  - rewrite !Nat.add_0_r. repeat split; assumption.
  - intros e He. repeat (apply andb_true_iff in He; destruct He as [He ?]). assumption.
  - intros e He. repeat (apply andb_true_iff in He; destruct He as [He ?]). assumption.
  - intros e He. repeat (apply andb_true_iff in He; destruct He as [He ?]). assumption.
  - intros [[] [] | ] He; try reflexivity;
      repeat (apply andb_true_iff in He; destruct He as [He ?]); discriminate.
  - intros e He. repeat (apply andb_true_iff in He; destruct He as [He ?]). assumption.
Qed.

(** X6: when the store refuses every put, a batch of [n] files makes
    exactly [3 * n] attempts and sleeps [2 * n] times, writes [2 * n] retry
    records and [n] failure records, uploads nothing, and
    [upload_to_minio] returns [False], unless there is no file at all. *)
Theorem store_refusing_every_put :
  forall (machine_name base_output_dir_str : pystr) (st : State)
         (children : list entry),
    machine_dir st machine_name = Some children ->
    store_ready machine_name st ->
    puts_answer true (world st) ->
    let n := List.length
               (files_under (os_path_join base_output_dir_str machine_name)
                  children) in
    exists (st' : State) (new : history),
      upload_to_minio machine_name base_output_dir_str st
      = (Ok (n =? 0)%nat, st')
      /\ new_events st st' new
      /\ count is_fput new = (3 * n)%nat
      /\ count is_ok_fput new = 0%nat
      /\ count is_sleep new = (2 * n)%nat
      /\ count is_retry_record new = (2 * n)%nat
      /\ count is_failure_record new = n.
Proof.
  intros m base st children Hdir Hready Hw n.
  apply (upload_to_minio_uniform true m base st children Hdir Hready Hw).
  discriminate.
Qed.

(** The same on ten files. *)
Lemma store_refusing_every_put_witness :
  let st := initial_state refusing_world (Some [Dir (py "m1") ten_files]) in
  exists (st' : State) (new : history),
    upload_to_minio (py "m1") (py "output") st = (Ok false, st')
    /\ new_events st st' new
    /\ count is_fput new = 30%nat
    /\ count is_ok_fput new = 0%nat
    /\ count is_sleep new = 20%nat
    /\ count is_retry_record new = 20%nat
    /\ count is_failure_record new = 10%nat.
Proof.
  intros st.
  apply (store_refusing_every_put (py "m1") (py "output") st ten_files).
  - reflexivity.
  - split; [reflexivity | left; reflexivity].
  - intros h bucket object_name file_path. reflexivity.
Defined.

(** X7: when the store accepts every put, a batch of [n] files (fewer than
    [2^50]) makes exactly one attempt per file, never sleeps, writes no
    retry and no failure record, and [upload_to_minio] returns [True]. *)
Theorem store_accepting_every_put :
  forall (machine_name base_output_dir_str : pystr) (st : State)
         (children : list entry),
    machine_dir st machine_name = Some children ->
    store_ready machine_name st ->
    puts_answer false (world st) ->
    let n := List.length
               (files_under (os_path_join base_output_dir_str machine_name)
                  children) in
    (Z.of_nat n < 2 ^ 50)%Z ->
    exists (st' : State) (new : history),
      upload_to_minio machine_name base_output_dir_str st = (Ok true, st')
      /\ new_events st st' new
      /\ count is_fput new = n
      /\ count is_ok_fput new = n
      /\ count is_sleep new = 0%nat
      /\ count is_retry_record new = 0%nat
      /\ count is_failure_record new = 0%nat.
Proof.
  intros m base st children Hdir Hready Hw n Hbound.
  apply (upload_to_minio_uniform false m base st children Hdir Hready Hw).
  intros _. exact Hbound.
Qed.

(** The same on ten files. *)
Lemma store_accepting_every_put_witness :
  let st := ten_files_state [] in
  exists (st' : State) (new : history),
    upload_to_minio (py "m1") (py "output") st = (Ok true, st')
    /\ new_events st st' new
    /\ count is_fput new = 10%nat
    /\ count is_ok_fput new = 10%nat
    /\ count is_sleep new = 0%nat
    /\ count is_retry_record new = 0%nat
    /\ count is_failure_record new = 0%nat.
Proof.
  intros st.
  apply (store_accepting_every_put (py "m1") (py "output") st ten_files).
  - reflexivity.
  - split; [reflexivity | left; reflexivity].
  - intros h bucket object_name file_path. reflexivity.
  - vm_compute. reflexivity.
Defined.

(** ** Classification, signal file, counter record and cleanup *)

Lemma contains_check_mark (s : pystr) :
  str_contains check_mark s = true <-> In 9989%N s.
Proof.
  unfold check_mark. induction s as [| y s IH].
  - split; [discriminate | intros []].
  - cbn [str_contains is_prefix In].
    rewrite andb_true_r, orb_true_iff, IH, N.eqb_eq.
    split; (intros [H | H]; [left; congruence | right; exact H]).
Qed.

(** X8: [check_firmware_update_status] answers [True] exactly when both
    logs are files of the machine's output directory and the classifier,
    given their two paths, returns a text that holds the mark U+2705. The
    classifier is called once when both logs are there and not at all
    otherwise; when it raises, the answer is [False]. *)
Theorem classification_of_an_update :
  forall (machine_name base_output_dir_str : pystr) (st : State),
    let output_path := os_path_join base_output_dir_str machine_name in
    let installsetlog_path := os_path_join output_path installSetLogs_log in
    let cidebug_path := os_path_join output_path ciDebug_log in
    let both_logs := has_file st machine_name installSetLogs_log
                     && has_file st machine_name ciDebug_log in
    let answer := determine_update_type_and_check (world st) (trace st)
                    installsetlog_path cidebug_path in
    exists (is_update_success : bool) (st' : State) (new : history),
      check_firmware_update_status machine_name base_output_dir_str st
      = (Ok is_update_success, st')
      /\ new_events st st' new
      /\ (is_update_success = true
          <-> both_logs = true
              /\ exists verdict, answer = Ok verdict /\ In 9989%N verdict)
      /\ filter is_classifier_call new
         = (if both_logs
            then [Called (DetermineUpdateTypeAndCheck installsetlog_path cidebug_path)
                    (is_raised answer)]
            else []).
Proof.
  intros m base st output_path p1 p2 both_logs answer.
  unfold check_firmware_update_status, os_path_isfile_in_machine, new_events.
  fold output_path. fold p1. fold p2.
  subst both_logs. step_monad.
  destruct (has_file st m installSetLogs_log) eqn:H1; simpl.
  2:{ do 3 eexists. split; [reflexivity |]. simpl.
      split; [instantiate (1 := [_]); reflexivity |].
      split; [| reflexivity].
      split; [discriminate | intros [H _]; discriminate]. }
  destruct (has_file st m ciDebug_log) eqn:H2; simpl.
  2:{ do 3 eexists. split; [reflexivity |]. simpl.
      split; [instantiate (1 := [_]); reflexivity |].
      split; [| reflexivity].
      split; [discriminate | intros [H _]; discriminate]. }
  subst answer.
  destruct (determine_update_type_and_check (world st) (trace st) p1 p2)
    as [verdict | e]; simpl.
  - destruct (str_contains check_mark verdict) eqn:Hc; simpl.
    + do 3 eexists. split; [reflexivity |]. simpl.
      split; [instantiate (1 := [_; _; _]); reflexivity |].
      split; [| reflexivity].
      split; [| reflexivity]. intros _. split; [reflexivity |].
      exists verdict. split; [reflexivity |]. now apply contains_check_mark.
    + do 3 eexists. split; [reflexivity |]. simpl.
      split; [instantiate (1 := [_; _; _]); reflexivity |].
      split; [| reflexivity].
      split; [discriminate |]. intros [_ (v & Hv & Hin)].
      inversion Hv; subst. apply contains_check_mark in Hin. congruence.
  - do 3 eexists. split; [reflexivity |]. simpl.
    split; [instantiate (1 := [_; _]); reflexivity |].
    split; [| reflexivity].
    split; [discriminate |]. intros [_ (v & Hv & _)]. discriminate.
Qed.

(** X9: [write_master_signal] never raises. It returns [False] exactly
    when its file operation raised, and then the signal file is as before;
    after [True] the signal file exists exactly when [should_run_master]
    holds. Asked to remove a signal file that is not there, it does nothing
    at all. It makes at most one call, on the file [NEEDS_MASTER]. *)
Theorem write_master_signal_outcome :
  forall (should_run_master : bool) (st : State),
    exists (done : bool) (st' : State) (new : history),
      write_master_signal should_run_master st = (Ok done, st')
      /\ new_events st st' new
      /\ output_root st' = output_root st
      /\ signal_file st' = (if done then should_run_master else signal_file st)
      /\ (done = false <-> exists c, In (Called c true) new)
      /\ (should_run_master = false -> signal_file st = false ->
          done = true /\ st' = st)
      /\ forallb is_signal_event new = true
      /\ (count is_call new <= 1)%nat.
Proof.
  intros should st. unfold write_master_signal, new_events.
  unfold signal_file_exists, set_signal_file. step_monad.
  destruct should; simpl.
  - destruct (touch (world st) (trace st) MASTER_SIGNAL_FILE) as [[] | e] eqn:E;
      simpl; do 3 eexists; (split; [reflexivity |]); simpl.
    + split; [instantiate (1 := [_; _]); reflexivity |].
      repeat split; try discriminate; try (unfold count; simpl; lia).
      intros [c [H | [H | []]]]; discriminate.
    + split; [instantiate (1 := [_; _]); reflexivity |].
      repeat split; try discriminate; try (unfold count; simpl; lia).
      eexists. right. left. reflexivity.
  - destruct (signal_file st) eqn:S; simpl.
    + destruct (unlink (world st) (trace st) MASTER_SIGNAL_FILE) as [[] | e] eqn:E;
        simpl; do 3 eexists; (split; [reflexivity |]); simpl.
      * split; [instantiate (1 := [_; _]); reflexivity |].
        repeat split; try discriminate; try (unfold count; simpl; lia).
        intros [c [H | [H | []]]]; discriminate.
      * split; [instantiate (1 := [_; _]); reflexivity |].
        repeat split; try discriminate; try congruence;
          try (unfold count; simpl; lia).
        eexists. right. left. reflexivity.
    + exists true, st, []. split; [reflexivity |].
      repeat split; try discriminate; try congruence;
        try (unfold count; simpl; lia).
      intros [c []].
Qed.


(** *** The cleanup *)

Lemma remove_required_files_spec :
  forall (items : list pystr) (item : pystr) (count : Z) (st : State),
    In item items ->
    exists (count' : Z) (st' : State) (new : history),
      remove_required_files item count st = (Ok count', st')
      /\ st' = with_trace st (new ++ trace st)
      /\ Forall (is_required_removal items) new.
Proof.
  intros items item count st Hin.
  unfold remove_required_files, required_files_item_is_dir, shutil_rmtree_item.
  step_monad.
  destruct (required_files_is_dir (world st) (trace st) item).
  - destruct (rmtree (world st) (trace st) item) as [| e left_over]; simpl.
    + do 2 eexists. exists [Logged Info (MsgRemovedDirectory item);
                            Called (Rmtree item) false].
      split; [reflexivity |]. split; [reflexivity |].
      constructor; [right; now exists item |].
      constructor; [left; now exists item, false | constructor].
    + do 2 eexists. exists [Called (Rmtree item) true].
      split; [reflexivity |]. split; [reflexivity |].
      constructor; [left; now exists item, true | constructor].
  - exists count, st, []. split; [reflexivity |].
    split; [destruct st; reflexivity | constructor].
Qed.

Lemma remove_required_files_loop :
  forall (items all : list pystr) (count : Z) (st : State),
    incl items all ->
    exists (count' : Z) (st' : State) (new : history),
      for_each items remove_required_files count st = (Ok count', st')
      /\ st' = with_trace st (new ++ trace st)
      /\ Forall (is_required_removal all) new.
Proof.
  induction items as [| item items IH]; intros all count st Hincl.
  - exists count, st, []. split; [reflexivity |].
    split; [destruct st; reflexivity | constructor].
  - destruct (remove_required_files_spec all item count st)
      as (c1 & st1 & n1 & Hrun1 & Hst1 & F1); [apply Hincl; now left |].
    destruct (IH all c1 st1) as (c2 & st2 & n2 & Hrun2 & Hst2 & F2).
    { intros x Hx. apply Hincl. now right. }
    exists c2, st2, (n2 ++ n1). cbn [for_each]. unfold bind. rewrite Hrun1.
    split; [exact Hrun2 |]. split.
    + rewrite Hst2, Hst1. unfold with_trace. cbn [trace world output_root signal_file].
      now rewrite app_assoc.
    + apply Forall_app. now split.
Qed.

Lemma remove_all_required_files_spec :
  forall st : State,
    let found := glob_required_files (world st) (trace st) in
    let search_raised := match snd found with Some _ => true | None => false end in
    exists (r : result Z) (removals : history),
      remove_all_required_files st
      = (r, with_trace st
              (Called GlobRequiredFiles search_raised :: removals ++ trace st))
      /\ Forall (is_required_removal (fst found)) removals
      /\ is_raised r = search_raised.
Proof.
  intros st found search_raised. unfold remove_all_required_files.
  fold found.
  destruct (remove_required_files_loop (fst found) (fst found) 0%Z st)
    as (count & st1 & removals & Hrun & Hst1 & F); [apply incl_refl |].
  unfold bind at 1. rewrite Hrun. subst search_raised.
  destruct (snd found) as [e |].
  - exists (Raised e), removals. rewrite Hst1.
    split; [reflexivity |]. now split.
  - exists (Ok count), removals. rewrite Hst1.
    split; [reflexivity |]. now split.
Qed.

Lemma cleanup_directories_ends :
  forall st : State,
    exists (b : bool) (st' : State) (new : history),
      cleanup_directories st = (Ok b, st')
      /\ new_events st st' new
      /\ signal_file st' = signal_file st
      /\ world st' = world st
      /\ cleanup_end st st' b new.
Proof.
  intros st. unfold cleanup_directories, new_events, cleanup_end, old_root_removed.
  unfold get_output_root, set_output_root, shutil_rmtree_output_root,
    source_dir_is_dir.
  unfold try_except. unfold bind at 1. unfold bind at 1.
  destruct (output_root st) as [children |] eqn:Hroot.
  - destruct (rmtree_output_root (world st) (trace st)) as [| e left_over] eqn:Hrm.
    2:{ unfold ret. do 2 eexists. exists [Called RmtreeOutputRoot true].
        split; [reflexivity |]. cbn.
        do 3 (split; [reflexivity |]).
        left. exists e, left_over. repeat split. discriminate. }
    unfold bind at 1. unfold external at 1. cbn [world trace with_trace with_output_root].
    destruct (makedirs_output_root (world st) _) as [[] | e] eqn:Hmk; cbn [is_raised].
    2:{ unfold ret. do 2 eexists.
        exists [Called MakedirsOutputRoot true; Called RmtreeOutputRoot false].
        split; [reflexivity |]. cbn.
        do 3 (split; [reflexivity |]).
        right. left. repeat split. }
    unfold bind at 1. cbn [output_root with_output_root with_trace].
    unfold bind at 1. unfold bind at 1.
    cbn [world trace output_root signal_file with_output_root with_trace].
    destruct (source_is_dir (world st)) eqn:Hsrc.
    + unfold bind.
      match goal with
      | |- context [remove_all_required_files ?s] =>
          destruct (remove_all_required_files_spec s)
            as (r & removals & Hrun & F & Hr)
      end.
      cbn [world trace] in Hrun, F, Hr. rewrite Hrun.
      destruct r as [count | e]; cbn [is_raised] in Hr; unfold ret;
        do 2 eexists;
        eexists (Called GlobRequiredFiles _ :: removals
                 ++ [Called MakedirsOutputRoot false; Called RmtreeOutputRoot false]);
        (split; [reflexivity |]); cbn [trace with_trace output_root signal_file world];
        (split; [cbn [app]; now rewrite <- app_assoc |]);
        do 2 (split; [reflexivity |]);
        right; right; right; (split; [reflexivity |]);
        exists removals; eexists; cbn zeta; cbn [app];
        (split; [reflexivity |]); rewrite <- Hr;
        repeat split; assumption.
    + unfold ret. do 2 eexists.
      exists [Called MakedirsOutputRoot false; Called RmtreeOutputRoot false].
      split; [reflexivity |]. cbn.
      do 3 (split; [reflexivity |]).
      right. right. left. repeat split.
  - unfold ret at 1.
    unfold bind at 1. unfold external at 1.
    destruct (makedirs_output_root (world st) _) as [[] | e] eqn:Hmk; cbn [is_raised].
    2:{ unfold ret. do 2 eexists. exists [Called MakedirsOutputRoot true].
        split; [reflexivity |]. cbn.
        do 3 (split; [reflexivity |]).
        right. left. repeat split. exact Hroot. }
    unfold bind at 1. cbn [output_root with_output_root with_trace]. rewrite Hroot.
    unfold bind at 1. unfold bind at 1.
    cbn [world trace output_root signal_file with_output_root with_trace].
    destruct (source_is_dir (world st)) eqn:Hsrc.
    + unfold bind.
      match goal with
      | |- context [remove_all_required_files ?s] =>
          destruct (remove_all_required_files_spec s)
            as (r & removals & Hrun & F & Hr)
      end.
      cbn [world trace] in Hrun, F, Hr. rewrite Hrun.
      destruct r as [count | e]; cbn [is_raised] in Hr; unfold ret;
        do 2 eexists;
        eexists (Called GlobRequiredFiles _ :: removals
                 ++ [Called MakedirsOutputRoot false]);
        (split; [reflexivity |]); cbn [trace with_trace output_root signal_file world];
        (split; [cbn [app]; now rewrite <- app_assoc |]);
        do 2 (split; [reflexivity |]);
        right; right; right; (split; [reflexivity |]);
        exists removals; eexists; cbn zeta; cbn [app];
        (split; [reflexivity |]); rewrite <- Hr;
        repeat split; assumption.
    + unfold ret. do 2 eexists. exists [Called MakedirsOutputRoot false].
      split; [reflexivity |]. cbn.
      do 3 (split; [reflexivity |]).
      right. right. left. repeat split.
Qed.

Lemma required_removal_inv (items : list pystr) (removals : history) (e : event) :
  Forall (is_required_removal items) removals -> In e removals ->
  (exists item raised, e = Called (Rmtree item) raised /\ In item items)
  \/ (exists item, e = Logged Info (MsgRemovedDirectory item)).
Proof. intros F Hin. rewrite Forall_forall in F. exact (F e Hin). Qed.

Lemma in_old_root_removed (st : State) (e : event) :
  In e (old_root_removed st) ->
  e = Called RmtreeOutputRoot false /\ output_root st <> None.
Proof.
  unfold old_root_removed. destruct (output_root st); [| intros []].
  intros [<- | []]. split; [reflexivity | discriminate].
Qed.

(** The events of a cleanup that got as far as the search. *)
Lemma in_cleanup_events (st : State) (items : list pystr) (removals : history)
  (search_raised : bool) (e : event) :
  Forall (is_required_removal items) removals ->
  In e (Called GlobRequiredFiles search_raised :: removals
        ++ Called MakedirsOutputRoot false :: old_root_removed st) ->
  e = Called GlobRequiredFiles search_raised
  \/ (exists item raised, e = Called (Rmtree item) raised /\ In item items)
  \/ (exists item, e = Logged Info (MsgRemovedDirectory item))
  \/ e = Called MakedirsOutputRoot false
  \/ (e = Called RmtreeOutputRoot false /\ output_root st <> None).
Proof.
  intros F [<- | Hin]; [now left |].
  apply in_app_or in Hin. destruct Hin as [Hin | [<- | Hin]].
  - destruct (required_removal_inv _ _ _ F Hin) as [H | H]; tauto.
  - tauto.
  - apply in_old_root_removed in Hin. tauto.
Qed.

(** X11: [cleanup_directories] never raises and leaves the signal file
    alone. It returns [True] exactly when neither the removal of the old
    output root, nor the creation of the new one, nor the search for the
    [required_files] directories raised; a removal of such a directory that
    raises is passed over. After [True] the output root exists and is
    empty. When the removal of the old output root raises, nothing else is
    done and what was not deleted stays; when the creation raises, there is
    no output root. Without an output root its removal is not attempted;
    without a source directory nothing is looked for or removed below it;
    and every other removal is of a path the search yielded. *)
Theorem cleanup_directories_outcome :
  forall st : State,
    exists (b : bool) (st' : State) (new : history),
      cleanup_directories st = (Ok b, st')
      /\ new_events st st' new
      /\ signal_file st' = signal_file st
      /\ (b = true
          <-> ~ In (Called RmtreeOutputRoot true) new
              /\ ~ In (Called MakedirsOutputRoot true) new
              /\ ~ In (Called GlobRequiredFiles true) new)
      /\ (b = true -> output_root st' = Some [])
      /\ (In (Called RmtreeOutputRoot true) new ->
          new = [Called RmtreeOutputRoot true]
          /\ exists e left_over,
               rmtree_output_root (world st) (trace st) = RemoveFailed e left_over
               /\ output_root st' = Some left_over)
      /\ (In (Called MakedirsOutputRoot true) new ->
          hd_error new = Some (Called MakedirsOutputRoot true)
          /\ output_root st' = None)
      /\ (output_root st = None ->
          forall raised, ~ In (Called RmtreeOutputRoot raised) new)
      /\ (source_is_dir (world st) = false ->
          forallb is_setup_event new = true)
      /\ (forall item raised,
            In (Called (Rmtree item) raised) new ->
            source_is_dir (world st) = true
            /\ In item
                 (fst (glob_required_files (world st)
                         (Called MakedirsOutputRoot false
                          :: old_root_removed st ++ trace st)))).
Proof.
  intros st.
  destruct (cleanup_directories_ends st) as (b & st' & new & Hrun & Hnew & Hsig & _ & Hend).
  exists b, st', new.
  do 3 (split; [assumption |]).
  destruct Hend as [(e & left_over & Hrm & Hroot & -> & -> & Hout)
                   | [(-> & -> & Hout)
                     | [(Hsrc & -> & -> & Hout)
                       | (Hsrc & removals & search_raised & -> & Hraised & F & -> & Hout)]]].
  - (* the removal of the old output root raised *)
    split; [split; [discriminate | intros (H & _); exfalso; apply H; now left] |].
    split; [discriminate |].
    split; [intros _; split; [reflexivity | now exists e, left_over] |].
    split; [intros [H | []]; discriminate |].
    split; [intros H; contradiction |].
    split; [intros _; reflexivity |].
    intros item raised [H | []]. discriminate.
  - (* the creation raised *)
    split; [split; [discriminate |
                    intros (_ & H & _); exfalso; apply H; now left] |].
    split; [discriminate |].
    split.
    { intros [H | H]; [discriminate |].
      apply in_old_root_removed in H. destruct H as [H _]. discriminate. }
    split; [intros _; split; [reflexivity | exact Hout] |].
    split.
    { intros Hnone raised [H | H]; [discriminate |].
      apply in_old_root_removed in H. tauto. }
    split.
    { intros _. cbn [forallb is_setup_event]. unfold old_root_removed.
      destruct (output_root st); reflexivity. }
    intros item raised [H | H]; [discriminate |].
    apply in_old_root_removed in H. destruct H as [H _]. discriminate.
  - (* no source directory *)
    assert (Hin : forall e, In e (Called MakedirsOutputRoot false
                                    :: old_root_removed st) ->
                            e = Called MakedirsOutputRoot false
                            \/ (e = Called RmtreeOutputRoot false
                                /\ output_root st <> None)).
    { intros e [<- | H]; [now left |]. right. now apply in_old_root_removed. }
    split.
    { split; [intros _ | reflexivity].
      repeat split; intros H; apply Hin in H;
        destruct H as [H | [H _]]; discriminate. }
    split; [intros _; exact Hout |].
    split; [intros H; apply Hin in H; destruct H as [H | [H _]]; discriminate |].
    split; [intros H; apply Hin in H; destruct H as [H | [H _]]; discriminate |].
    split.
    { intros Hnone raised H. apply Hin in H.
      destruct H as [H | [_ H]]; [discriminate | contradiction]. }
    split.
    { intros _. cbn [forallb is_setup_event]. unfold old_root_removed.
      destruct (output_root st); reflexivity. }
    intros item raised H. apply Hin in H. destruct H as [H | [H _]]; discriminate.
  - (* the search ran *)
    cbn zeta in Hraised, F.
    assert (Hin := fun e => in_cleanup_events st _ removals search_raised e F).
    split.
    { split.
      - intros Hb. apply negb_true_iff in Hb. subst search_raised.
        repeat split; intros H; apply Hin in H;
          destruct H as [H | [(i & r & H & _) | [(i & H) | [H | [H _]]]]];
          try discriminate; congruence.
      - intros (_ & _ & H). destruct search_raised; [| reflexivity].
        exfalso. apply H. now left. }
    split; [intros _; exact Hout |].
    split.
    { intros H. apply Hin in H.
      destruct H as [H | [(i & r & H & _) | [(i & H) | [H | [H _]]]]];
        discriminate. }
    split.
    { intros H. apply Hin in H.
      destruct H as [H | [(i & r & H & _) | [(i & H) | [H | [H _]]]]];
        discriminate. }
    split.
    { intros Hnone raised H. apply Hin in H.
      destruct H as [H | [(i & r & H & _) | [(i & H) | [H | [_ H]]]]];
        try discriminate. contradiction. }
    split; [congruence |].
    intros item raised H. apply Hin in H.
    destruct H as [H | [(i & r & H & Hi) | [(i & H) | [H | [H _]]]]];
      try discriminate.
    inversion H; subst. split; [exact Hsrc | exact Hi].
Qed.

(** Two [required_files] directories, the first of which cannot be removed:
    the cleanup goes on to the second and returns [True]. *)
Example cleanup_passes_over_failed_removal :
  let run := cleanup_directories (initial_state stubborn_world None) in
  fst run = Ok true
  /\ trace (snd run)
     = [Called GlobRequiredFiles false;
        Logged Info (MsgRemovedDirectory (py "machines/m2/required_files"));
        Called (Rmtree (py "machines/m2/required_files")) false;
        Called (Rmtree (py "machines/m1/required_files")) true;
        Called MakedirsOutputRoot false].
Proof. intros run. split; reflexivity. Qed.

(** ** The step of one machine *)

Lemma emits_shutil_rmtree_machine (W : World -> Prop) (P : event -> bool)
  (machine_output_path machine_name : pystr) :
  (forall raised, P (Called (Rmtree machine_output_path) raised) = true) ->
  respects (emits W P) (shutil_rmtree_machine machine_output_path machine_name).
Proof.
  intros HP st r st' H. unfold shutil_rmtree_machine in H.
  destruct (rmtree (world st) (trace st) machine_output_path);
    inversion H; subst; (split; [reflexivity |]); intros _;
    eexists [_]; simpl; (split; [reflexivity |]); now rewrite HP.
Qed.

Lemma emits_remove_machine_output (W : World -> Prop) (P : event -> bool)
  (machine_name base_output_dir : pystr) :
  (forall raised,
     P (Called (Rmtree (os_path_join base_output_dir machine_name)) raised) = true) ->
  (forall level msg, P (Logged level msg) = true) ->
  respects (emits W P) (remove_machine_output machine_name base_output_dir).
Proof.
  intros HP HL. unfold remove_machine_output, os_path_exists_machine.
  apply respects_try_except; [apply emits_trans | | intros e; apply emits_logging, HL].
  apply respects_bind; [apply emits_trans | emits_step |].
  intros present. apply respects_if; [| apply emits_logging, HL].
  apply respects_bind; [apply emits_trans | | intros _; apply emits_logging, HL].
  now apply emits_shutil_rmtree_machine.
Qed.

Lemma emits_check_firmware_update_status (W : World -> Prop) (P : event -> bool)
  (machine_name base_output_dir : pystr) :
  (forall p1 p2 raised, P (Called (DetermineUpdateTypeAndCheck p1 p2) raised) = true) ->
  (forall level msg, P (Logged level msg) = true) ->
  respects (emits W P) (check_firmware_update_status machine_name base_output_dir).
Proof.
  intros HP HL. unfold check_firmware_update_status, os_path_isfile_in_machine.
  repeat first
    [ apply emits_logging, HL
    | apply emits_external; intros; apply HP
    | emits_step ].
Qed.

Lemma remove_machine_output_returns :
  forall (machine_name base_output_dir : pystr) (st : State),
    exists st' : State,
      remove_machine_output machine_name base_output_dir st = (Ok tt, st').
Proof.
  intros m out st. unfold remove_machine_output.
  match goal with
  | |- context [try_except ?body ?handler] =>
      destruct (try_except_returns body handler) with (st := st)
        as ([] & st' & Hrun)
  end.
  - intros e st0. exists tt. eexists. reflexivity.
  - exists st'. exact Hrun.
Qed.

(** X12: a machine whose update is classified as successful is not
    uploaded: its step constructs no client and makes no call to the object
    store, records that the upload was skipped, adds one to the success
    counter and nothing to the list of failures. *)
Theorem successful_update_is_not_uploaded :
  forall (base_source_dir base_output_dir machine_name : pystr) (r : run_state)
         (st : State) (written : option (list entry)),
    prepared_and_extracted st base_source_dir machine_name written ->
    fst (check_firmware_update_status machine_name base_output_dir
           (extracted st base_source_dir machine_name written))
    = Ok true ->
    exists (st' : State) (new : history),
      process_machine base_source_dir base_output_dir machine_name r st
      = (Ok (add_success_count r), st')
      /\ new_events st st' new
      /\ forallb (fun e => negb (is_minio_event e)) new = true
      /\ In (Logged Info (MsgSkippedUpload machine_name)) new.
Proof.
  intros src out m r st written Hpe Hcheck.
  rewrite (process_machine_classifies src out m r st written Hpe).
  set (st_e := extracted st src m written) in *.
  destruct (check_firmware_update_status m out st_e) as [res st_c] eqn:Hrun.
  cbn [fst] in Hcheck. subst res.
  destruct (emits_check_firmware_update_status any_world
              (fun e => negb (is_minio_event e)) m out
              ltac:(reflexivity) ltac:(reflexivity) st_e _ _ Hrun) as [_ Hc].
  destruct (Hc I) as (new_c & Tc & Fc).
  set (st_s := with_trace st_c (Logged Info (MsgSkippedUpload m) :: trace st_c)).
  destruct (remove_machine_output_returns m out st_s) as (st' & Hrm).
  destruct (emits_remove_machine_output any_world
              (fun e => negb (is_minio_event e)) m out
              ltac:(reflexivity) ltac:(reflexivity) st_s _ _ Hrm) as [_ Hr].
  destruct (Hr I) as (new_r & Tr & Fr).
  exists st'.
  exists (new_r ++ [Logged Info (MsgSkippedUpload m)] ++ new_c
          ++ [Called (RunLogExtraction m) false;
              Called (PrepareMachine (os_path_join src m)) false]).
  split.
  { unfold bind at 1. rewrite Hrun. unfold after_classification.
    unfold bind, logging, record_event, ret. fold st_s. now rewrite Hrm. }
  split.
  { unfold new_events. rewrite Tr. unfold st_s. cbn [trace with_trace].
    rewrite Tc. unfold st_e, extracted. cbn [trace].
    now rewrite <- !app_assoc. }
  split.
  { rewrite !forallb_app, Fr, Fc. reflexivity. }
  apply in_or_app. right. left. reflexivity.
Qed.

(** The same on a machine with both logs and a successful update. *)
Lemma successful_update_is_not_uploaded_witness :
  let st := initial_state
              (demo_world [py "m1"] complete_logs
                 (check_mark ++ py " update applied") Removed [])
              None in
  exists (st' : State) (new : history),
    process_machine (py "machines") (py "output") (py "m1") initial_run_state st
    = (Ok (add_success_count initial_run_state), st')
    /\ new_events st st' new
    /\ forallb (fun e => negb (is_minio_event e)) new = true
    /\ In (Logged Info (MsgSkippedUpload (py "m1"))) new.
Proof.
  intros st.
  apply (successful_update_is_not_uploaded (py "machines") (py "output") (py "m1")
           initial_run_state st (Some complete_logs)).
  - split; reflexivity.
  - reflexivity.
Defined.

Lemma process_machine_ends :
  forall (base_source_dir base_output_dir machine_name : pystr) (r r' : run_state)
         (st st' : State),
    process_machine base_source_dir base_output_dir machine_name r st
    = (Ok r', st') ->
    exists o : step_end,
      ends_as base_source_dir base_output_dir machine_name st o
      /\ r' = counted machine_name o r.
Proof.
  intros src out m r r' st st' Hrun.
  destruct (shared_prepare_machine (world st) (trace st) (os_path_join src m))
    as [[|] | e] eqn:Hprep.
  - destruct (shared_run_log_extraction (world st)
                (Called (PrepareMachine (os_path_join src m)) false :: trace st) m)
      as [[[|] written] | e] eqn:Hext.
    + assert (Hpe : prepared_and_extracted st src m written) by (split; assumption).
      rewrite (process_machine_classifies src out m r st written Hpe) in Hrun.
      unfold bind at 1 in Hrun.
      destruct (check_firmware_update_status m out (extracted st src m written))
        as [[[|] | e] st_c] eqn:Hcheck; [| | discriminate].
      * exists UpdateSuccessful. split.
        { exists written. split; [exact Hpe |]. now rewrite Hcheck. }
        unfold after_classification in Hrun.
        unfold bind at 1 in Hrun. unfold logging at 1, record_event at 1 in Hrun.
        unfold bind at 1 in Hrun.
        destruct (remove_machine_output m out _) as [[[] | e] st2];
          [| discriminate].
        unfold ret in Hrun. now inversion Hrun.
      * unfold after_classification in Hrun. unfold bind at 1 in Hrun.
        destruct (upload_to_minio m out st_c) as [[up | e] st2] eqn:Hup;
          [| discriminate].
        exists (UpdateFailed up). split.
        { exists written. split; [exact Hpe |]. cbn zeta. rewrite Hcheck.
          cbn [fst snd]. split; [reflexivity |]. now rewrite Hup. }
        destruct up; cbn [negb] in Hrun; unfold ret in Hrun; now inversion Hrun.
    + exists ExtractionFailed. split.
      { split; [exact Hprep |]. now exists written. }
      unfold process_machine in Hrun. unfold bind at 1 in Hrun.
      unfold external at 1 in Hrun. rewrite Hprep in Hrun. cbn [negb is_raised] in Hrun.
      unfold bind at 1 in Hrun. unfold run_log_extraction in Hrun.
      cbn [world trace with_trace] in Hrun. rewrite Hext in Hrun.
      cbn [negb] in Hrun. unfold ret in Hrun. now inversion Hrun.
    + unfold process_machine in Hrun. unfold bind at 1 in Hrun.
      unfold external at 1 in Hrun. rewrite Hprep in Hrun. cbn [negb is_raised] in Hrun.
      unfold bind at 1 in Hrun. unfold run_log_extraction in Hrun.
      cbn [world trace with_trace] in Hrun. rewrite Hext in Hrun.
      discriminate.
  - exists PreparationFailed. split; [exact Hprep |].
    unfold process_machine in Hrun. unfold bind at 1 in Hrun.
    unfold external at 1 in Hrun. rewrite Hprep in Hrun. cbn [negb] in Hrun.
    unfold ret in Hrun. now inversion Hrun.
  - unfold process_machine in Hrun. unfold bind at 1 in Hrun.
    unfold external at 1 in Hrun. rewrite Hprep in Hrun. discriminate.
Qed.

Lemma machine_loop_ends :
  forall (base_source_dir base_output_dir : pystr) (machines : list pystr)
         (r r' : run_state) (st st' : State),
    for_each machines (process_machine base_source_dir base_output_dir) r st
    = (Ok r', st') ->
    exists ends : list step_end,
      loop_ends base_source_dir base_output_dir machines ends r st r' st'.
Proof.
  intros src out machines.
  induction machines as [| m machines IH]; intros r r' st st'; cbn [for_each].
  - intros H. inversion H; subst. exists []. split; reflexivity.
  - unfold bind at 1.
    destruct (process_machine src out m r st) as [[r1 | e] st1] eqn:Hstep;
      [| discriminate].
    intros Hrest.
    destruct (process_machine_ends src out m r r1 st st1 Hstep) as (o & Ho & ->).
    destruct (IH _ _ _ _ Hrest) as (ends & Hends).
    exists (o :: ends). cbn [loop_ends]. exists st1. now repeat split.
Qed.

(** The counters and the list of failures, read off the ends of the
    steps. *)
Lemma loop_ends_counts :
  forall (base_source_dir base_output_dir : pystr) (machines : list pystr)
         (ends : list step_end) (r r' : run_state) (st st' : State),
    loop_ends base_source_dir base_output_dir machines ends r st r' st' ->
    List.length ends = List.length machines
    /\ success_count r'
       = (success_count r
          + Z.of_nat (List.length (filter is_counted_success ends)))%Z
    /\ failure_count r'
       = (failure_count r
          + Z.of_nat (List.length (filter is_counted_failure ends)))%Z
    /\ prep_extract_failures r'
       = prep_extract_failures r ++ failure_labels machines ends.
Proof.
  intros src out machines.
  induction machines as [| m machines IH]; intros [| o ends] r r' st st';
    cbn [loop_ends]; try contradiction.
  - intros [-> ->]. unfold failure_labels. cbn. rewrite app_nil_r.
    repeat split; lia.
  - intros (st1 & _ & _ & Hrest).
    destruct (IH _ _ _ _ _ Hrest) as (Hlen & Hs & Hf & Hl).
    unfold failure_labels in *. cbn [combine flat_map fst snd List.length filter].
    rewrite Hs, Hf, Hl.
    destruct o as [| | | [|]];
      cbn [counted is_counted_success is_counted_failure failure_label
           add_failure add_success_count add_failure_count
           success_count failure_count prep_extract_failures List.length app];
      rewrite <- ?app_assoc; cbn [app];
      repeat split; try lia; try reflexivity.
Qed.

(** X13: when the machine loop ends, every machine has been taken once, in
    the sorted order of the names, and its step ended in one of four ways:
    the preparation returned [False]; the extraction returned [False]; the
    update was classified as successful; or it was classified as failed and
    the upload returned [True] or [False]. [success_count] is the number of
    machines of the third kind, [failure_count] the number of the fourth;
    the list of failures holds, in the order of the machines, the name of
    each machine whose preparation or extraction failed and the name
    followed by [" (upload)"] of each whose upload failed. [overall_success]
    holds exactly when that list is empty, and then the two counters add up
    to the number of machines. *)
Theorem machine_loop_accounting :
  forall (base_source_dir base_output_dir : pystr) (machines : list pystr)
         (st st' : State) (overall_success : bool) (r : run_state),
    process_machines base_source_dir base_output_dir machines st
    = (Ok (overall_success, r), st') ->
    exists ends : list step_end,
      loop_ends base_source_dir base_output_dir (sorted machines) ends
        initial_run_state st r st'
      /\ List.length ends = List.length machines
      /\ success_count r
         = Z.of_nat (List.length (filter is_counted_success ends))
      /\ failure_count r
         = Z.of_nat (List.length (filter is_counted_failure ends))
      /\ prep_extract_failures r = failure_labels (sorted machines) ends
      /\ (overall_success = true <-> prep_extract_failures r = [])
      /\ (overall_success = true ->
          (success_count r + failure_count r
           = Z.of_nat (List.length machines))%Z).
Proof.
  intros src out machines st st' ov r Hrun.
  assert (Hloop : for_each (sorted machines) (process_machine src out)
                    initial_run_state st = (Ok r, st')
                  /\ ov = match prep_extract_failures r with
                          | [] => true
                          | _ :: _ => false
                          end).
  { unfold process_machines in Hrun. destruct machines as [| m0 rest] eqn:Hm.
    - inversion Hrun; subst. split; reflexivity.
    - rewrite <- Hm in *. unfold bind at 1 in Hrun.
      destruct (for_each (sorted machines) (process_machine src out)
                  initial_run_state st) as [[r1 | e] st1]; [| discriminate].
      unfold ret in Hrun. inversion Hrun; subst. split; reflexivity. }
  destruct Hloop as [Hloop Hov].
  destruct (machine_loop_ends src out _ _ _ _ _ Hloop) as (ends & Hends).
  destruct (loop_ends_counts src out _ _ _ _ _ _ Hends) as (Hlen & Hs & Hf & Hl).
  rewrite sorted_length in Hlen.
  cbn [initial_run_state success_count failure_count prep_extract_failures app]
    in Hs, Hf, Hl.
  exists ends.
  split; [exact Hends |]. split; [exact Hlen |].
  split; [lia |]. split; [lia |]. split; [exact Hl |].
  split.
  - rewrite Hov. destruct (prep_extract_failures r); split; congruence.
  - intros Htrue. rewrite Hov in Htrue.
    destruct (prep_extract_failures r) eqn:Hnil; [| discriminate].
    (* no label: every step ended as a success or as an uploaded failure *)
    assert (Hall : forall (ms : list pystr) (es : list step_end),
               List.length es = List.length ms ->
               failure_labels ms es = [] ->
               (List.length (filter is_counted_success es)
                + List.length (filter is_counted_failure es) = List.length ms)%nat).
    { clear. induction ms as [| m ms IH]; intros [| e es] Hlen Hlab;
        try discriminate; [reflexivity |].
      unfold failure_labels in *. cbn [combine flat_map fst snd] in Hlab.
      apply app_eq_nil in Hlab. destruct Hlab as [He Hrest].
      cbn [List.length] in Hlen. injection Hlen as Hlen.
      specialize (IH es Hlen Hrest).
      destruct e as [| | | [|]]; try discriminate;
        cbn [filter is_counted_success is_counted_failure List.length]; lia. }
    specialize (Hall (sorted machines) ends).
    rewrite sorted_length in Hall. specialize (Hall Hlen (eq_sym Hl)).
    lia.
Qed.

(** The same on two machines with failed updates, one upload failing. *)
Lemma machine_loop_accounting_witness :
  let machines := [py "m2"; py "m1"] in
  let st := initial_state
              (demo_world machines [File (py "trace.txt")] [] Removed
                 [py "output/m1/trace.txt"])
              (Some []) in
  let run := process_machines (py "machines") (py "output") machines st in
  let r := {| success_count := 0; failure_count := 2;
              prep_extract_failures := [py "m1 (upload)"] |} in
  exists ends : list step_end,
    loop_ends (py "machines") (py "output") (sorted machines) ends
      initial_run_state st r (snd run)
    /\ List.length ends = List.length machines
    /\ success_count r
       = Z.of_nat (List.length (filter is_counted_success ends))
    /\ failure_count r
       = Z.of_nat (List.length (filter is_counted_failure ends))
    /\ prep_extract_failures r = failure_labels (sorted machines) ends
    /\ (false = true <-> prep_extract_failures r = [])
    /\ (false = true ->
        (success_count r + failure_count r
         = Z.of_nat (List.length machines))%Z).
Proof.
  intros machines st run r.
  apply (machine_loop_accounting (py "machines") (py "output") machines
           st (snd run) false r).
  vm_compute. reflexivity.
Defined.

(** ** The run as a whole *)

Lemma forallb_impl {A} (p q : A -> bool) (l : list A) :
  (forall x, p x = true -> q x = true) ->
  forallb p l = true -> forallb q l = true.
Proof.
  intros Hpq H. rewrite forallb_forall in *. auto.
Qed.

Lemma keeps_signal_refl (st : State) : keeps_signal st st.
Proof. reflexivity. Qed.

Lemma keeps_signal_trans (a b c : State) :
  keeps_signal a b -> keeps_signal b c -> keeps_signal a c.
Proof. unfold keeps_signal. congruence. Qed.

Lemma keeps_signal_preserves {A} (m : M A) :
  preserves m -> respects keeps_signal m.
Proof. intros Hm st r st' H. now destruct (Hm st r st' H) as (_ & S & _). Qed.

Lemma keeps_signal_remove_machine_output (machine_name base_output_dir : pystr) :
  respects keeps_signal (remove_machine_output machine_name base_output_dir).
Proof.
  unfold remove_machine_output, os_path_exists_machine.
  apply respects_try_except; [apply keeps_signal_trans | |].
  - apply respects_bind; [apply keeps_signal_trans | |].
    + apply respects_read, keeps_signal_refl.
    + intros present. apply respects_if.
      * apply respects_bind; [apply keeps_signal_trans | |].
        -- intros st r st' H. unfold shutil_rmtree_machine in H.
           destruct (rmtree (world st) (trace st) _); inversion H; reflexivity.
        -- intros _. apply keeps_signal_preserves, preserves_logging.
      * apply keeps_signal_preserves, preserves_logging.
  - intros e. apply keeps_signal_preserves, preserves_logging.
Qed.

(** *** Statements of the loop *)

Lemma runs_clean_intro {A} (m : M A) :
  (forall st, exists a st', m st = (Ok a, st')) ->
  respects keeps_signal m ->
  respects (emits any_world is_loop_event) m ->
  runs_clean m.
Proof.
  intros Hret Hsig Hem st res st' H.
  destruct (Hret st) as (a & st1 & Hrun).
  assert (res = Ok a) by congruence. subst res.
  destruct (Hem st _ _ H) as [_ Hnew].
  split; [exact (Hsig st _ _ H) |]. split; [now exists a |].
  exact (Hnew I).
Qed.

Lemma aborts_of_clean {A} (m : M A) : runs_clean m -> aborts_or_runs m.
Proof.
  intros Hm st res st' H.
  destruct (Hm st res st' H) as (S & (a & ->) & new & T & F).
  split; [exact S |]. now exists new.
Qed.

Lemma aborts_ret {A} (a : A) : aborts_or_runs (ret a).
Proof.
  intros st res st' H. inversion H; subst. split; [reflexivity |]. now exists [].
Qed.

Lemma aborts_bind {A B} (m : M A) (k : A -> M B) :
  aborts_or_runs m -> (forall a, aborts_or_runs (k a)) -> aborts_or_runs (bind m k).
Proof.
  intros Hm Hk st res st' H. unfold bind in H.
  destruct (m st) as [[a | e] st1] eqn:E.
  - destruct (Hm _ _ _ E) as (S1 & n1 & T1 & F1).
    destruct (Hk a _ _ _ H) as (S2 & n2 & T2 & F2).
    split; [congruence |].
    exists (n2 ++ n1). split; [rewrite T2, T1; now rewrite app_assoc |].
    destruct res as [b | e].
    + rewrite forallb_app. now rewrite F1, F2.
    + destruct F2 as (c & tl & -> & Hc & Ftl).
      exists c, (tl ++ n1). split; [reflexivity |]. split; [exact Hc |].
      rewrite forallb_app. now rewrite Ftl, F1.
  - inversion H; subst. exact (Hm _ _ _ E).
Qed.

Lemma aborts_if {A} (b : bool) (m1 m2 : M A) :
  aborts_or_runs m1 -> aborts_or_runs m2 -> aborts_or_runs (if b then m1 else m2).
Proof. now destruct b. Qed.

Lemma aborts_for_each {A S} (l : list A) (body : A -> S -> M S) :
  (forall x s, aborts_or_runs (body x s)) ->
  forall s, aborts_or_runs (for_each l body s).
Proof.
  intros Hb. induction l as [| x l IH]; intros s; simpl.
  - apply aborts_ret.
  - apply aborts_bind; [apply Hb | intros s'; apply IH].
Qed.

(** An unguarded call. *)
Lemma aborts_external {A} (c : call) (answer : World -> history -> result A) :
  is_abort_call c = true -> aborts_or_runs (external c answer).
Proof.
  intros Hc st res st' H. unfold external in H. inversion H; subst. clear H.
  split; [reflexivity |]. eexists [_]. split; [reflexivity |].
  destruct (answer (world st) (trace st)) as [a | e]; cbn [is_raised].
  - destruct c; try discriminate; reflexivity.
  - exists c, []. repeat split. exact Hc.
Qed.

Lemma aborts_run_log_extraction (machine_name : pystr) :
  aborts_or_runs (run_log_extraction machine_name).
Proof.
  intros st res st' H. unfold run_log_extraction in H.
  destruct (shared_run_log_extraction (world st) (trace st) machine_name)
    as [[ok written] | e]; inversion H; subst; clear H;
    (split; [reflexivity |]); eexists [_]; (split; [reflexivity |]).
  - reflexivity.
  - eexists _, []. repeat split.
Qed.

Lemma upload_event_loop_event (machine_name : pystr) (e : event) :
  is_upload_event machine_name e = true -> is_loop_event e = true.
Proof.
  destruct e as [c raised | level msg]; [| reflexivity].
  destruct c, raised; try discriminate; reflexivity.
Qed.

Lemma runs_clean_upload_to_minio (machine_name base_output_dir : pystr) :
  runs_clean (upload_to_minio machine_name base_output_dir).
Proof.
  intros st res st' H.
  destruct (upload_to_minio_returns machine_name base_output_dir st)
    as (b & st1 & Hrun).
  destruct (preserves_upload_to_minio _ _ _ _ _ H) as (_ & S & _).
  destruct (upload_to_minio_emits _ _ _ _ _ H) as [_ Hnew].
  destruct (Hnew I) as (new & T & F).
  split; [exact S |]. split; [exists b; congruence |].
  exists new. split; [exact T |].
  eapply forallb_impl; [| exact F]. apply upload_event_loop_event.
Qed.

Lemma runs_clean_check_firmware_update_status (machine_name base : pystr) :
  runs_clean (check_firmware_update_status machine_name base).
Proof.
  apply runs_clean_intro.
  - intros st. destruct (check_firmware_update_status_spec machine_name base st)
      as (b & st' & Hrun & _). now exists b, st'.
  - apply keeps_signal_preserves, preserves_check_firmware_update_status.
  - apply emits_check_firmware_update_status;
      [intros p1 p2 []; reflexivity | reflexivity].
Qed.

Lemma runs_clean_remove_machine_output (machine_name base : pystr) :
  runs_clean (remove_machine_output machine_name base).
Proof.
  apply runs_clean_intro.
  - intros st. destruct (remove_machine_output_returns machine_name base st)
      as (st' & Hrun). now exists tt, st'.
  - apply keeps_signal_remove_machine_output.
  - apply emits_remove_machine_output; [intros []; reflexivity | reflexivity].
Qed.

Lemma runs_clean_logging (level : log_level) (msg : log_msg) :
  runs_clean (logging level msg).
Proof.
  intros st res st' H. inversion H; subst.
  split; [reflexivity |]. split; [now exists tt |].
  now exists [Logged level msg].
Qed.

Lemma aborts_process_machine (base_source_dir base_output_dir machine_name : pystr)
  (r : run_state) :
  aborts_or_runs
    (process_machine base_source_dir base_output_dir machine_name r).
Proof.
  unfold process_machine.
  apply aborts_bind; [now apply aborts_external |].
  intros prep_success. apply aborts_if; [apply aborts_ret |].
  apply aborts_bind; [apply aborts_run_log_extraction |].
  intros extract_success. apply aborts_if; [apply aborts_ret |].
  apply aborts_bind;
    [apply aborts_of_clean, runs_clean_check_firmware_update_status |].
  intros is_update_success. unfold after_classification.
  apply aborts_if.
  - apply aborts_bind; [apply aborts_of_clean, runs_clean_logging |].
    intros _. apply aborts_bind;
      [apply aborts_of_clean, runs_clean_remove_machine_output |].
    intros _. apply aborts_ret.
  - apply aborts_bind; [apply aborts_of_clean, runs_clean_upload_to_minio |].
    intros upload_success. apply aborts_if; apply aborts_ret.
Qed.

Lemma aborts_process_machines (base_source_dir base_output_dir : pystr)
  (machines : list pystr) :
  aborts_or_runs (process_machines base_source_dir base_output_dir machines).
Proof.
  unfold process_machines. destruct machines as [| m rest]; [apply aborts_ret |].
  apply aborts_bind; [| intros r; apply aborts_ret].
  apply aborts_for_each. intros x s. apply aborts_process_machine.
Qed.

(** The cleanup: it returns, leaves the signal file, and its events are
    events of the loop; without a source directory it calls nothing but the
    removal and the creation of the output root. *)
Lemma cleanup_directories_setup :
  forall st : State,
    exists (b : bool) (st' : State) (new : history),
      cleanup_directories st = (Ok b, st')
      /\ trace st' = new ++ trace st
      /\ signal_file st' = signal_file st
      /\ world st' = world st
      /\ forallb is_loop_event new = true
      /\ (source_is_dir (world st) = false -> forallb is_setup_event new = true).
Proof.
  intros st.
  destruct (cleanup_directories_ends st) as (b & st' & new & Hrun & T & S & HW & E).
  exists b, st', new.
  split; [exact Hrun |]. split; [exact T |]. split; [exact S |].
  split; [exact HW |].
  assert (Hold : forallb is_setup_event (old_root_removed st) = true
                 /\ forallb is_loop_event (old_root_removed st) = true).
  { unfold old_root_removed. destruct (output_root st); split; reflexivity. }
  destruct Hold as [Hold_s Hold_l].
  destruct E as [(e & left_over & _ & _ & -> & _)
                | [(-> & _) | [(_ & -> & _) | (Hsrc & removals & raised & E)]]].
  - split; reflexivity.
  - cbn [forallb]. rewrite Hold_s, Hold_l. split; reflexivity.
  - cbn [forallb]. rewrite Hold_s, Hold_l. split; reflexivity.
  - cbn zeta in E. destruct E as (-> & _ & F & _).
    split; [| intros H; congruence].
    cbn [forallb]. rewrite forallb_app. cbn [forallb]. rewrite Hold_l.
    assert (Hrem : forallb is_loop_event removals = true).
    { apply forallb_forall. intros ev Hin.
      destruct (required_removal_inv _ _ _ F Hin)
        as [(item & r & -> & _) | (item & ->)]; [destruct r |]; reflexivity. }
    rewrite Hrem. destruct raised; reflexivity.
Qed.

Lemma setup_event_loop_event (e : event) :
  is_setup_event e = true -> is_loop_event e = true.
Proof.
  destruct e as [c raised | level msg]; [| discriminate].
  destruct c, raised; try discriminate; reflexivity.
Qed.

Lemma aborts_prepare_extract_upload (base_source_dir base_output_dir : pystr) :
  aborts_or_runs (prepare_extract_upload base_source_dir base_output_dir).
Proof.
  unfold prepare_extract_upload.
  apply aborts_bind.
  { intros st res st' H. unfold external in H. inversion H; subst.
    split; [reflexivity |]. now eexists [_]. }
  intros env_ready. apply aborts_if; [apply aborts_ret |].
  apply aborts_bind.
  { intros st res st' H.
    destruct (cleanup_directories_setup st)
      as (b & st1 & new & Hrun & T & S & _ & F & _).
    rewrite Hrun in H. inversion H; subst.
    split; [exact S |]. exists new. split; [exact T |]. exact F. }
  intros _ st res st'.
  destruct (negb (source_is_dir (world st))).
  - intros H. inversion H; subst. split; [reflexivity |]. now exists [].
  - revert st res st'.
    change (aborts_or_runs
              (machines <- external ListMachines list_machines ;;
               result <- process_machines base_source_dir base_output_dir machines ;;
               ret (Some result))).
    apply aborts_bind; [now apply aborts_external |].
    intros machines. apply aborts_bind; [apply aborts_process_machines |].
    intros result. apply aborts_ret.
Qed.

(** *** The end of the run *)

Lemma emits_state_change (W : World -> Prop) (P : event -> bool)
  (f : State -> State) :
  (forall st, world (f st) = world st /\ trace (f st) = trace st) ->
  respects (emits W P) (fun st => (Ok tt, f st)).
Proof.
  intros Hf st r st' H. inversion H; subst.
  destruct (Hf st) as [Hw Ht]. split; [exact Hw |].
  intros _. exists []. now rewrite Ht.
Qed.

Lemma emits_update_machine_status_counts (success_count failure_count : Z) :
  respects (emits any_world (fun e => negb (is_abort_event e)))
    (update_machine_status_counts success_count failure_count).
Proof.
  unfold update_machine_status_counts.
  repeat first
    [ emits_step
    | apply emits_external; intros w h _; destruct (is_raised _); reflexivity ].
Qed.

Lemma emits_write_master_signal (should_run_master : bool) :
  respects (emits any_world (fun e => negb (is_abort_event e)))
    (write_master_signal should_run_master).
Proof.
  unfold write_master_signal, signal_file_exists, set_signal_file.
  repeat first
    [ emits_step
    | apply emits_external; intros w h _; destruct (is_raised _); reflexivity
    | apply emits_state_change; intros st; split; reflexivity ].
Qed.

Lemma emits_decide_master_signal (failure_count : Z) :
  respects (emits any_world (fun e => negb (is_abort_event e)))
    (decide_master_signal failure_count).
Proof.
  unfold decide_master_signal.
  apply respects_bind; [apply emits_trans | |].
  - intros st r st' H. unfold list_output_dirs in H.
    destruct (output_root st); inversion H; subst; apply emits_refl.
  - intros output_dirs.
    repeat first [ apply emits_write_master_signal | emits_step ].
Qed.

Lemma emits_record_statistics (r : run_state) :
  respects (emits any_world (fun e => negb (is_abort_event e)))
    (record_statistics r).
Proof.
  unfold record_statistics.
  apply respects_if; [apply emits_update_machine_status_counts | emits_step].
Qed.

Lemma loop_event_not_abort (e : event) :
  is_loop_event e = true -> negb (is_abort_event e) = true.
Proof.
  unfold is_loop_event. intros H.
  apply andb_true_iff in H. destruct H as [H _].
  apply andb_true_iff in H. now destruct H.
Qed.

Lemma loop_event_no_counter_no_signal (e : event) :
  is_loop_event e = true ->
  negb (is_counter_call e) && negb (is_signal_call e) = true.
Proof.
  unfold is_loop_event. intros H.
  apply andb_true_iff in H. destruct H as [H H3].
  apply andb_true_iff in H. destruct H as [_ H2]. now rewrite H2, H3.
Qed.

(** The two ways [main] ends: right after an unguarded call raised, with
    [False] and the signal file as it was, or without any such exception. *)
Lemma main_outcome :
  forall (st : State) (b : bool) (st' : State),
    main st = (Ok b, st') ->
    exists new : history,
      trace st' = new ++ trace st
      /\ ((exists c tl,
             new = Called c true :: tl
             /\ is_abort_call c = true
             /\ forallb is_loop_event tl = true
             /\ b = false
             /\ signal_file st' = signal_file st)
          \/ forallb (fun e => negb (is_abort_event e)) new = true).
Proof.
  intros st b st'. unfold main. unfold try_except. unfold bind at 1.
  destruct (prepare_extract_upload (py "machines") (py "output") st)
    as [[run | e] st1] eqn:Hrun.
  - destruct (aborts_prepare_extract_upload _ _ _ _ _ Hrun) as (S1 & n1 & T1 & F1).
    destruct run as [[ov r] |].
    + unfold bind at 1.
      destruct (record_statistics r st1) as [[[] | e] st2] eqn:Hstat.
      2:{ destruct (record_statistics_spec r st1) as (st2' & Hs & _). congruence. }
      destruct (emits_record_statistics r _ _ _ Hstat) as [_ H2].
      destruct (H2 I) as (n2 & T2 & F2).
      unfold bind at 1.
      destruct (decide_master_signal (failure_count r) st2) as [[[] | e] st3] eqn:Hdec;
        destruct (emits_decide_master_signal _ _ _ _ Hdec) as [_ H3];
        destruct (H3 I) as (n3 & T3 & F3);
        unfold ret; intros H; inversion H; subst;
        exists (n3 ++ n2 ++ n1);
        (split; [rewrite T3, T2, T1; now rewrite <- !app_assoc |]);
        right; rewrite !forallb_app, F3, F2;
        cbn [andb]; (eapply forallb_impl; [| exact F1]);
        apply loop_event_not_abort.
    + unfold ret. intros H. inversion H; subst.
      exists n1. split; [exact T1 |]. right.
      eapply forallb_impl; [| exact F1]. apply loop_event_not_abort.
  - destruct (aborts_prepare_extract_upload _ _ _ _ _ Hrun)
      as (S1 & n1 & T1 & c & tl & -> & Hc & Ftl).
    unfold ret. intros H. inversion H; subst.
    exists (Called c true :: tl). split; [exact T1 |]. left.
    exists c, tl. repeat split; assumption.
Qed.

(** X14: the listing of the machines, the preparation and the extraction
    are not guarded inside the loop: when one of them raises, [main] stops
    at once and returns [False]. The raising call is the last thing the run
    did; the machines after it are not processed, the counter store is not
    called, and the signal file is left as it was. *)
Theorem unguarded_exception_aborts_the_run :
  forall (st : State) (b : bool) (st' : State) (new : history) (c : call),
    main st = (Ok b, st') ->
    new_events st st' new ->
    is_abort_call c = true ->
    In (Called c true) new ->
    b = false
    /\ hd_error new = Some (Called c true)
    /\ signal_file st' = signal_file st
    /\ forallb (fun e => negb (is_counter_call e) && negb (is_signal_call e)) new
       = true.
Proof.
  intros st b st' new c Hmain Hnew Hc Hin.
  destruct (main_outcome st b st' Hmain) as (new' & T & Hcases).
  unfold new_events in Hnew. rewrite Hnew in T. apply app_inv_tail in T. subst new'.
  destruct Hcases as [(c' & tl & -> & Hc' & Ftl & -> & S) | Hnone].
  - assert (c' = c).
    { destruct Hin as [H | H]; [congruence |].
      rewrite forallb_forall in Ftl. specialize (Ftl _ H).
      apply loop_event_not_abort in Ftl. cbn in Ftl. rewrite Hc in Ftl.
      discriminate. }
    subst c'. split; [reflexivity |]. split; [reflexivity |].
    split; [exact S |]. cbn [forallb].
    replace (negb (is_counter_call (Called c true))
             && negb (is_signal_call (Called c true))) with true
      by (destruct c; try discriminate; reflexivity).
    eapply forallb_impl; [| exact Ftl]. apply loop_event_no_counter_no_signal.
  - rewrite forallb_forall in Hnone. specialize (Hnone _ Hin).
    cbn in Hnone. rewrite Hc in Hnone. discriminate.
Qed.

(** The same on a run whose second machine cannot be prepared. *)
Lemma unguarded_exception_aborts_the_run_witness :
  let st := {| world := aborting_world [py "m1"; py "m2"] (py "machines/m2");
               trace := []; output_root := None; signal_file := true |} in
  let c := PrepareMachine (py "machines/m2") in
  false = false
  /\ hd_error (trace (snd (main st))) = Some (Called c true)
  /\ signal_file (snd (main st)) = signal_file st
  /\ forallb (fun e => negb (is_counter_call e) && negb (is_signal_call e))
       (trace (snd (main st)))
     = true.
Proof.
  intros st c.
  apply (unguarded_exception_aborts_the_run st false (snd (main st))
           (trace (snd (main st))) c).
  - vm_compute. reflexivity.
  - unfold new_events. cbn [trace st]. now rewrite app_nil_r.
  - reflexivity.
  - vm_compute. left. reflexivity.
Defined.

(** X15: when the environment setup fails or the source directory is
    missing, [main] returns [False] without a look at any machine: it calls
    nothing but the setup, the removal and the creation of the output root,
    and leaves the signal file as it was. After a failed setup the output
    root is untouched as well. *)
Theorem main_stops_before_the_machines :
  forall st : State,
    setup_virtual_environment (world st) (trace st) = false
    \/ source_is_dir (world st) = false ->
    exists (st' : State) (new : history),
      main st = (Ok false, st')
      /\ new_events st st' new
      /\ signal_file st' = signal_file st
      /\ forallb is_setup_event new = true
      /\ (setup_virtual_environment (world st) (trace st) = false ->
          new = [Called SetupVirtualEnvironment false]
          /\ output_root st' = output_root st).
Proof.
  intros st Hstop. unfold main, prepare_extract_upload, new_events.
  unfold try_except. unfold bind at 1. unfold bind at 1. unfold external at 1.
  cbn [is_raised].
  destruct (setup_virtual_environment (world st) (trace st)) eqn:Hsetup;
    cbn [negb].
  - destruct Hstop as [H | Hsrc]; [discriminate |].
    unfold bind at 1.
    match goal with
    | |- context [cleanup_directories ?s] =>
        destruct (cleanup_directories_setup s)
          as (b & st1 & new & Hrun & T & S & HW & _ & F)
    end.
    cbn [world with_trace] in HW, F. specialize (F Hsrc).
    rewrite Hrun. rewrite HW, Hsrc. cbn [negb].
    unfold ret. exists st1, (new ++ [Called SetupVirtualEnvironment false]).
    split; [reflexivity |].
    split; [rewrite T; cbn [trace with_trace]; now rewrite <- app_assoc |].
    split; [exact S |].
    split; [rewrite forallb_app, F; reflexivity | discriminate].
  - unfold ret. do 2 eexists. split; [reflexivity |]. cbn [trace with_trace].
    split; [instantiate (1 := [_]); reflexivity |].
    repeat split.
Qed.

(** The same on a run without a source directory, with the output of an
    earlier run and its signal file in place. *)
Lemma main_stops_before_the_machines_witness :
  let st := {| world := sourceless_world; trace := [];
               output_root := Some [Dir (py "m0") complete_logs];
               signal_file := true |} in
  exists (st' : State) (new : history),
    main st = (Ok false, st')
    /\ new_events st st' new
    /\ signal_file st' = signal_file st
    /\ forallb is_setup_event new = true
    /\ (setup_virtual_environment (world st) (trace st) = false ->
        new = [Called SetupVirtualEnvironment false]
        /\ output_root st' = output_root st).
Proof.
  intros st.
  apply (main_stops_before_the_machines st).
  right. reflexivity.
Defined.

(** *** The trigger at the end of the run *)

(** [write_master_signal] returns; the signal file is as asked for, unless
    the file operation raised, and then it is as it was. *)
Lemma write_master_signal_ends :
  forall (should_run_master : bool) (st : State),
    exists (done : bool) (st' : State),
      write_master_signal should_run_master st = (Ok done, st')
      /\ output_root st' = output_root st
      /\ done = negb (signal_operation_raises should_run_master st)
      /\ signal_file st'
         = (if signal_operation_raises should_run_master st
            then signal_file st else should_run_master).
Proof.
  intros should_run st. unfold write_master_signal, signal_operation_raises.
  unfold signal_file_exists, set_signal_file. step_monad.
  destruct should_run; simpl.
  - destruct (touch (world st) (trace st) MASTER_SIGNAL_FILE) as [[] | e];
      simpl; do 2 eexists; (split; [reflexivity |]); simpl; repeat split.
  - destruct (signal_file st) eqn:S; simpl.
    + destruct (unlink (world st) (trace st) MASTER_SIGNAL_FILE) as [[] | e];
        simpl; do 2 eexists; (split; [reflexivity |]); simpl; repeat split;
        congruence.
    + do 2 eexists. split; [reflexivity |]. simpl. repeat split; congruence.
Qed.

Lemma decide_master_signal_ends :
  forall (failure_count : Z) (st : State),
    match output_root st with
    | Some children =>
        let trigger := trigger_required children failure_count in
        exists st' : State,
          decide_master_signal failure_count st = (Ok tt, st')
          /\ output_root st' = Some children
          /\ signal_file st'
             = (if signal_operation_raises trigger st
                then signal_file st else trigger)
    | None =>
        exists e : exn, decide_master_signal failure_count st = (Raised e, st)
    end.
Proof.
  intros fc st.
  destruct (output_root st) as [children |] eqn:Hroot;
    unfold decide_master_signal, list_output_dirs, trigger_required;
    unfold bind at 1; rewrite Hroot; [| eexists; reflexivity].
  cbn zeta.
  destruct (List.length (filter is_dir_entry children) =? 0)%nat.
  - destruct (write_master_signal_ends false st) as (done & st' & Hrun & Hr & _ & Hs).
    exists st'. unfold bind, ret. rewrite Hrun.
    repeat split; [congruence | exact Hs].
  - destruct (0 <? fc)%Z.
    + destruct (write_master_signal_ends true st) as (done & st' & Hrun & Hr & _ & Hs).
      exists st'. unfold bind, ret. rewrite Hrun.
      repeat split; [congruence | exact Hs].
    + destruct (write_master_signal_ends false st) as (done & st' & Hrun & Hr & _ & Hs).
      exists st'. unfold bind, ret. rewrite Hrun.
      repeat split; [congruence | exact Hs].
Qed.

Lemma writable_not_raises (should_run_master : bool) (st : State) :
  signal_file_writable st ->
  signal_operation_raises should_run_master st = false.
Proof.
  intros [Ht Hu]. unfold signal_operation_raises. rewrite Ht, Hu.
  destruct should_run_master; [reflexivity | apply andb_false_r].
Qed.

(** C5, as the code has it: the trigger is decided only in a run that gets
    past the machine loop and finds the output root at the end. There [main]
    returns [overall_success], and the signal file is absent when the output
    root has no subdirectory, whatever the failure count, and otherwise
    present exactly when the failure count is above zero, unless the
    operation on the signal file raises, and then the file is as it was
    before the run. Every other run (the setup failed, the source directory
    is missing, an unguarded call raised, or the output root is missing at
    the end) ends with [False] and the signal file as it was before the
    run. *)
Theorem trigger_decision_at_end_of_run :
  forall st : State,
    let run := prepare_extract_upload (py "machines") (py "output") st in
    let st1 := snd run in
    let st' := snd (main st) in
    match fst run, output_root st1 with
    | Ok (Some (overall_success, r)), Some children =>
        let trigger := trigger_required children (failure_count r) in
        exists st2 : State,
          record_statistics r st1 = (Ok tt, st2)
          /\ fst (main st) = Ok overall_success
          /\ output_root st' = Some children
          /\ signal_file st'
             = (if signal_operation_raises trigger st2
                then signal_file st else trigger)
          /\ (signal_file_writable st2 -> signal_file st' = trigger)
    | _, _ =>
        fst (main st) = Ok false /\ signal_file st' = signal_file st
    end.
Proof.
  intros st. cbn zeta.
  destruct (prepare_extract_upload (py "machines") (py "output") st)
    as [[[[ov r] |] | e] st1] eqn:Hrun; cbn [fst snd];
    destruct (aborts_prepare_extract_upload _ _ _ _ _ Hrun) as (S1 & _).
  - destruct (record_statistics_spec r st1) as (st2 & Hstat & Hr2 & S2 & _).
    pose proof (decide_master_signal_ends (failure_count r) st2) as Hdec.
    rewrite Hr2 in Hdec.
    destruct (output_root st1) as [children |].
    + cbn zeta in Hdec. destruct Hdec as (st' & Hdec & Hr & Hs).
      assert (Hmain : main st = (Ok ov, st')).
      { unfold main, try_except. unfold bind at 1. rewrite Hrun.
        unfold bind at 1. rewrite Hstat. unfold bind at 1. now rewrite Hdec. }
      rewrite Hmain. cbn [fst snd].
      exists st2.
      split; [exact Hstat |]. split; [reflexivity |]. split; [exact Hr |].
      rewrite S2, S1 in Hs. split; [exact Hs |].
      intros Hw. rewrite Hs. now rewrite writable_not_raises.
    + destruct Hdec as (e & Hdec).
      assert (Hmain : main st = (Ok false, st2)).
      { unfold main, try_except. unfold bind at 1. rewrite Hrun.
        unfold bind at 1. rewrite Hstat. unfold bind at 1. now rewrite Hdec. }
      rewrite Hmain. cbn [fst snd]. split; [reflexivity | congruence].
  - assert (Hmain : main st = (Ok false, st1)).
    { unfold main, try_except. unfold bind at 1. now rewrite Hrun. }
    rewrite Hmain. cbn [fst snd]. destruct (output_root st1); now split.
  - assert (Hmain : main st = (Ok false, st1)).
    { unfold main, try_except. unfold bind at 1. now rewrite Hrun. }
    rewrite Hmain. cbn [fst snd]. destruct (output_root st1); now split.
Qed.

(** C5 as stated fails in two runs whose output root ends without a
    subdirectory while the signal file of an earlier run stays: a run that
    stops because the source directory is missing, and a run over no
    machine that returns [True] but cannot remove the file. *)
Lemma stale_trigger_survives :
  let stopped := {| world := sourceless_world; trace := [];
                    output_root := Some [Dir (py "m0") complete_logs];
                    signal_file := true |} in
  let complete := {| world := stuck_signal_world; trace := [];
                     output_root := Some [];
                     signal_file := true |} in
  (fst (main stopped) = Ok false
   /\ output_root (snd (main stopped)) = Some []
   /\ signal_file (snd (main stopped)) = true)
  /\ (fst (main complete) = Ok true
      /\ output_root (snd (main complete)) = Some []
      /\ In (Called (Unlink MASTER_SIGNAL_FILE) true) (trace (snd (main complete)))
      /\ signal_file (snd (main complete)) = true).
Proof.
  intros stopped complete. vm_compute. repeat split. tauto.
Qed.

(** A run of one machine whose update failed: the trigger is set. *)
Example trigger_set_after_failed_update :
  let st := initial_state
              (demo_world [py "m1"] complete_logs (py "failed") Removed []) None in
  fst (main st) = Ok true
  /\ output_root (snd (main st)) = Some [Dir (py "m1") complete_logs]
  /\ signal_file (snd (main st)) = true.
Proof.
  intros st. vm_compute. repeat split.
Qed.

(** *** The output directory of a machine *)








(** A machine with both logs and a successful update, on a file system that
    lets go of the directory: the step removes it. *)
Example successful_machine_loses_directory :
  let st := initial_state
              (demo_world [py "m1"] complete_logs
                 (check_mark ++ py " update applied") Removed [])
              None in
  let run := process_machine (py "machines") (py "output") (py "m1")
               initial_run_state st in
  fst run = Ok (add_success_count initial_run_state)
  /\ hd_error (trace (snd run)) = Some (Logged Info (MsgRemovedOutputDir (py "m1")))
  /\ In (Called (Rmtree (py "output/m1")) false) (trace (snd run))
  /\ has_entry (snd run) (py "m1") = false.
Proof.
  intros st run. vm_compute. repeat split. tauto.
Qed.

(** ** The environment setup *)

Module BootstrapFacts.
Import Bootstrap.

Ltac step_boot :=
  unfold run_command, try_catch, bind, ret, throw, log, print, emit, run in *;
  cbn beta iota in *.

Ltac exists_new :=
  first
    [ exists []; split; [reflexivity |]
    | eexists [_]; split; [reflexivity |]
    | eexists [_; _]; split; [reflexivity |]
    | eexists [_; _; _]; split; [reflexivity |]
    | eexists [_; _; _; _]; split; [reflexivity |]
    | eexists [_; _; _; _; _]; split; [reflexivity |]
    | eexists [_; _; _; _; _; _]; split; [reflexivity |]
    | eexists [_; _; _; _; _; _; _]; split; [reflexivity |]
    | eexists [_; _; _; _; _; _; _; _]; split; [reflexivity |] ].

Lemma processes_app (a b : history) :
  processes (a ++ b) = processes b ++ processes a.
Proof. unfold processes. now rewrite rev_app_distr, flat_map_app. Qed.

(** A checked command: it returns with code 0, or it raises. *)
Lemma run_command_checked (env : Env) (command : list pystr) (t : history) :
  exists (res : outcome completed) (new : history),
    run_command env command true true t = (res, new ++ t)
    /\ ((exists result,
           res = Returned result
           /\ processes new = [(command, Some 0%Z)])
        \/ (exists e code,
              res = Thrown e
              /\ processes new = [(command, code)]
              /\ code <> Some 0%Z)).
Proof.
  step_boot.
  destruct (subprocess_run env _ command) as [[code out err] | e];
    cbn [returncode stdout stderr andb].
  - destruct (Z.eqb_spec code 0) as [-> | Hcode];
      destruct (nonempty out), (nonempty err); cbn;
      eexists; exists_new;
      first [ left; eexists; split; reflexivity
            | right; do 2 eexists; split; [reflexivity |];
              split; [reflexivity | congruence] ].
  - cbn. eexists. exists_new.
    right. do 2 eexists. split; [reflexivity |]. split; [reflexivity | discriminate].
Qed.

End BootstrapFacts.

(** X16: [run_command] starts one child process. It returns the completed
    process, after the record that the command finished, unless
    [subprocess.run] raises, which it passes on, or [check] is set and the
    return code is not zero, for which it raises [CalledProcessError].
    Whenever it raises it has logged exactly one failure report, and none
    when it returns. The report of its [CalledProcessError] handler for
    unchecked commands is never printed. *)
Theorem run_command_outcome :
  forall (env : Bootstrap.Env) (command : list pystr)
         (check capture_output : bool) (t : Bootstrap.history),
    let started := Bootstrap.Printed Bootstrap.AsStep (Bootstrap.Running command)
                   :: Bootstrap.Logged Bootstrap.INFO (Bootstrap.Running command)
                   :: t in
    let answer := Bootstrap.subprocess_run env started command in
    let run := Bootstrap.run_command env command check capture_output t in
    exists new : Bootstrap.history,
      snd run = new ++ t
      /\ fst run
         = match answer with
           | Raised e => Bootstrap.Thrown (Bootstrap.Other e)
           | Ok result =>
               if check && negb (Bootstrap.returncode result =? 0)%Z
               then Bootstrap.Thrown
                      (Bootstrap.CalledProcessError
                         (Bootstrap.returncode result) command)
               else Bootstrap.Returned result
           end
      /\ Bootstrap.processes new
         = [(command,
             match answer with
             | Ok result => Some (Bootstrap.returncode result)
             | Raised _ => None
             end)]
      /\ List.length (filter Bootstrap.is_failure_report new)
         = (if Bootstrap.is_thrown (fst run) then 1 else 0)%nat
      /\ forallb (fun e => negb (Bootstrap.is_unchecked_report e)) new = true
      /\ (Bootstrap.is_thrown (fst run) = false ->
          exists result,
            answer = Ok result
            /\ hd_error new
               = Some (Bootstrap.Logged Bootstrap.INFO
                         (Bootstrap.Finished (Bootstrap.returncode result)
                            command))).
Proof.
  intros env command check capture t started answer run.
  subst run answer started. BootstrapFacts.step_boot.
  destruct (Bootstrap.subprocess_run env _ command) as [[code out err] | e];
    cbn [Bootstrap.returncode Bootstrap.stdout Bootstrap.stderr].
  - destruct check, capture, (Bootstrap.nonempty out), (Bootstrap.nonempty err),
      (code =? 0)%Z; cbn;
      BootstrapFacts.exists_new; repeat split; try discriminate;
      intros _; eexists; split; reflexivity.
  - cbn. BootstrapFacts.exists_new. repeat split. discriminate.
Qed.

(** X17: [setup_virtual_environment] never raises. Without
    [requirements.txt] it returns [True] and starts no process. With it, the
    processes it starts are, in this order, the creation of the virtual
    environment when [.venv] does not exist and the installation with the
    environment's [pip]. It stops at the first one that fails: every process
    but the last one started exited with code 0, and when it returns [False]
    the last one did not, and the failure of the setup is the last thing
    printed. It returns [True] exactly when all of them ran and exited with
    code 0. *)
Theorem setup_virtual_environment_outcome :
  forall (env : Bootstrap.Env) (t : Bootstrap.history),
    exists (b : bool) (new : Bootstrap.history),
      Bootstrap.setup_virtual_environment env t = (Bootstrap.Returned b, new ++ t)
      /\ (Bootstrap.requirements_exists env = false ->
          b = true /\ Bootstrap.processes new = [])
      /\ (Bootstrap.requirements_exists env = true ->
          (b = true
           <-> Bootstrap.processes new
               = map (fun c => (c, Some 0%Z)) (Bootstrap.setup_commands env))
          /\ exists k : nat,
               (1 <= k)%nat
               /\ map fst (Bootstrap.processes new)
                  = firstn k (Bootstrap.setup_commands env))
      /\ (b = false ->
          hd_error new
          = Some (Bootstrap.Printed Bootstrap.AsError Bootstrap.SetupFailed))
      /\ (forall (command : list pystr) (code : option Z),
             In (command, code) (removelast (Bootstrap.processes new)) ->
             code = Some 0%Z)
      /\ (b = false ->
          exists (earlier : list (list pystr * option Z))
                 (command : list pystr) (code : option Z),
            Bootstrap.processes new = earlier ++ [(command, code)]
            /\ code <> Some 0%Z).
Proof.
  intros env t. unfold Bootstrap.setup_virtual_environment, Bootstrap.setup_commands.
  unfold Bootstrap.bind at 1. unfold Bootstrap.print at 1, Bootstrap.emit at 1.
  set (t0 := Bootstrap.Printed Bootstrap.AsSection Bootstrap.SettingUp :: t).
  destruct (Bootstrap.requirements_exists env); cbn [negb].
  2:{ exists true. eexists [_; _]. split; [reflexivity |].
      split; [split; reflexivity |]. split; [discriminate |].
      split; [discriminate |]. split; [intros c code [] | discriminate]. }
  unfold Bootstrap.try_catch. unfold Bootstrap.bind at 1.
  destruct (Bootstrap.venv_exists env); cbn [app].
  - unfold Bootstrap.print at 1, Bootstrap.emit at 1.
    set (t1 := Bootstrap.Printed Bootstrap.AsStep Bootstrap.ReusingEnvironment :: t0).
    unfold Bootstrap.bind at 1.
    destruct (BootstrapFacts.run_command_checked env (Bootstrap.pip_command env) t1)
      as (res & new & Hrun & [(result & -> & Hp) | (e & code & -> & Hp & Hcode)]);
      rewrite Hrun.
    + exists true.
      exists ([Bootstrap.Printed Bootstrap.AsSuccess Bootstrap.SetupComplete]
              ++ new
              ++ [Bootstrap.Printed Bootstrap.AsStep Bootstrap.ReusingEnvironment;
                  Bootstrap.Printed Bootstrap.AsSection Bootstrap.SettingUp]).
      split.
      { unfold Bootstrap.bind, Bootstrap.print, Bootstrap.emit, Bootstrap.ret.
        unfold t1, t0. cbn [app]. now rewrite <- app_assoc. }
      split; [discriminate |].
      rewrite !BootstrapFacts.processes_app, Hp. cbn.
      split; [intros _; split; [split; reflexivity |];
              exists 1%nat; split; [lia | reflexivity] |].
      split; [discriminate |]. split; [intros c code [] | discriminate].
    + exists false.
      exists ([Bootstrap.Printed Bootstrap.AsError Bootstrap.SetupFailed]
              ++ new
              ++ [Bootstrap.Printed Bootstrap.AsStep Bootstrap.ReusingEnvironment;
                  Bootstrap.Printed Bootstrap.AsSection Bootstrap.SettingUp]).
      split.
      { unfold Bootstrap.bind, Bootstrap.print, Bootstrap.emit, Bootstrap.ret.
        unfold t1, t0. cbn [app]. now rewrite <- app_assoc. }
      split; [discriminate |].
      rewrite !BootstrapFacts.processes_app, Hp. cbn.
      split; [intros _;
              split; [split; [discriminate | intros H; inversion H; congruence] |];
              exists 1%nat; split; [lia | reflexivity] |].
      split; [reflexivity |]. split; [intros c code0 [] |].
      intros _. exists [], (Bootstrap.pip_command env), code.
      split; [reflexivity | exact Hcode].
  - unfold Bootstrap.bind at 1. unfold Bootstrap.print at 1, Bootstrap.emit at 1.
    set (t1 := Bootstrap.Printed Bootstrap.AsStep Bootstrap.CreatingEnvironment :: t0).
    unfold Bootstrap.bind at 1.
    destruct (BootstrapFacts.run_command_checked env (Bootstrap.venv_command env) t1)
      as (res & new1 & Hrun1 & [(result & -> & Hp1) | (e & code & -> & Hp1 & Hcode)]);
      rewrite Hrun1.
    + unfold Bootstrap.ret at 1. unfold Bootstrap.bind at 1.
      destruct (BootstrapFacts.run_command_checked env (Bootstrap.pip_command env)
                  (new1 ++ t1))
        as (res & new2 & Hrun2 & [(result2 & -> & Hp2) | (e & code & -> & Hp2 & Hcode)]);
        rewrite Hrun2.
      * exists true.
        exists ([Bootstrap.Printed Bootstrap.AsSuccess Bootstrap.SetupComplete]
                ++ new2 ++ new1
                ++ [Bootstrap.Printed Bootstrap.AsStep Bootstrap.CreatingEnvironment;
                    Bootstrap.Printed Bootstrap.AsSection Bootstrap.SettingUp]).
        split.
        { unfold Bootstrap.bind, Bootstrap.print, Bootstrap.emit, Bootstrap.ret.
          unfold t1, t0. cbn [app]. now rewrite <- !app_assoc. }
        split; [discriminate |].
        rewrite !BootstrapFacts.processes_app, Hp1, Hp2. cbn.
        split; [intros _; split; [split; reflexivity |];
                exists 2%nat; split; [lia | reflexivity] |].
        split; [discriminate |]. split; [| discriminate].
        intros c code [H | []]. now inversion H.
      * exists false.
        exists ([Bootstrap.Printed Bootstrap.AsError Bootstrap.SetupFailed]
                ++ new2 ++ new1
                ++ [Bootstrap.Printed Bootstrap.AsStep Bootstrap.CreatingEnvironment;
                    Bootstrap.Printed Bootstrap.AsSection Bootstrap.SettingUp]).
        split.
        { unfold Bootstrap.bind, Bootstrap.print, Bootstrap.emit, Bootstrap.ret.
          unfold t1, t0. cbn [app]. now rewrite <- !app_assoc. }
        split; [discriminate |].
        rewrite !BootstrapFacts.processes_app, Hp1, Hp2. cbn.
        split; [intros _;
                split; [split; [discriminate | intros H; inversion H; congruence] |];
                exists 2%nat; split; [lia | reflexivity] |].
        split; [reflexivity |]. split.
        { intros c code0 [H | []]. now inversion H. }
        intros _.
        exists [(Bootstrap.venv_command env, Some 0%Z)],
          (Bootstrap.pip_command env), code.
        split; [reflexivity | exact Hcode].
    + exists false.
      exists ([Bootstrap.Printed Bootstrap.AsError Bootstrap.SetupFailed]
              ++ new1
              ++ [Bootstrap.Printed Bootstrap.AsStep Bootstrap.CreatingEnvironment;
                  Bootstrap.Printed Bootstrap.AsSection Bootstrap.SettingUp]).
      split.
      { unfold Bootstrap.bind, Bootstrap.print, Bootstrap.emit, Bootstrap.ret.
        unfold t1, t0. cbn [app]. now rewrite <- !app_assoc. }
      split; [discriminate |].
      rewrite !BootstrapFacts.processes_app, Hp1. cbn.
      split; [intros _;
              split; [split; [discriminate | intros H; inversion H; congruence] |];
              exists 1%nat; split; [lia | reflexivity] |].
      split; [reflexivity |]. split; [intros c code0 [] |].
      intros _. exists [], (Bootstrap.venv_command env), code.
      split; [reflexivity | exact Hcode].
Qed.

(** With [requirements.txt] and without [.venv]: two processes when both
    exit with 0, and no installation when the creation fails. *)
Example setup_creates_then_installs :
  let env := Bootstrap.exiting_with 0 true false in
  let run := Bootstrap.setup_virtual_environment env [] in
  fst run = Bootstrap.Returned true
  /\ Bootstrap.processes (snd run)
     = [(Bootstrap.venv_command env, Some 0%Z);
        (Bootstrap.pip_command env, Some 0%Z)].
Proof. intros env run. split; reflexivity. Qed.

Example setup_stops_at_failed_creation :
  let env := Bootstrap.exiting_with 1 true false in
  let run := Bootstrap.setup_virtual_environment env [] in
  fst run = Bootstrap.Returned false
  /\ Bootstrap.processes (snd run) = [(Bootstrap.venv_command env, Some 1%Z)].
Proof. intros env run. split; reflexivity. Qed.
